(** * SharkonAI: decision and chain-orchestration engine

    A shallow embedding of the decision engine of the SharkonAI bot
    ([brain.py], [telegram_handler.py], [tools.py], [config.example.py])
    and the properties of it that the specification states.

    Conventions of the embedding.
    - A Python [str] is a list of code points, [list N].
    - A Python [int] is a [Z]; a Python [float] holding a temperature is a
      rational [Q] (rounding is not modelled).
    - A value produced by [json.loads], and every [dict] the code builds,
      is a [json] tree; a [dict] is an association list in insertion order
      with unique keys; Python's [None] is [JNull].
    - A [try]/[except] is a [match] on a result that names the exception.
    - The language model and the tool handlers are oracles, indexed by the
      number of the call, so that successive calls may answer differently.
      The text of the prompts sent to the model is modelled only where a
      property speaks of it. *)

From Stdlib Require Import Ascii String List NArith ZArith QArith Qminmax Lia Lqa Bool Arith.
Import ListNotations.

Set Implicit Arguments.

(** ** Python strings *)

Definition char := N.
Definition str := list char.

Definition ch (a : ascii) : char := N_of_ascii a.

(** A literal. *)
Definition lit (s : string) : str := map N_of_ascii (list_ascii_of_string s).

Definition QUOTE : char := 34%N.
Definition BACKSLASH : char := 92%N.
Definition NL : char := 10%N.
Definition SP : char := 32%N.

(** A literal in which every single quote stands for a double quote. *)
Definition litq (s : string) : str :=
  map (fun c => if (c =? 39)%N then QUOTE else c) (lit s).

Definition len (s : str) : Z := Z.of_nat (length s).

Fixpoint str_eqb (a b : str) : bool :=
  match a, b with
  | [], [] => true
  | x :: a', y :: b' => (x =? y)%N && str_eqb a' b'
  | _, _ => false
  end.

(** [s[:n]] and [s[n:]], with Python's reading of a negative bound. *)
Definition slice_to (s : str) (n : Z) : str :=
  if (0 <=? n)%Z then firstn (Z.to_nat n) s
  else firstn (length s - Z.to_nat (- n)) s.

Definition slice_from (s : str) (n : Z) : str :=
  if (0 <=? n)%Z then skipn (Z.to_nat n) s
  else skipn (length s - Z.to_nat (- n)) s.

(** [s.startswith(p)], and the rest of [s] after a prefix [p]. *)
Fixpoint strip_prefix (p s : str) : option str :=
  match p, s with
  | [], _ => Some s
  | x :: p', y :: s' => if (x =? y)%N then strip_prefix p' s' else None
  | _ :: _, [] => None
  end.

Definition startswith (s p : str) : bool :=
  match strip_prefix p s with Some _ => true | None => false end.

(** [s.find(p)]: the text after the first occurrence of [p], with the
    index of that occurrence. *)
Fixpoint find_after (p s : str) (i : nat) : option (nat * str) :=
  match strip_prefix p s with
  | Some r => Some (i, r)
  | None => match s with
            | [] => None
            | _ :: s' => find_after p s' (S i)
            end
  end.

(** [p in s]. *)
Definition contains (p s : str) : bool :=
  match find_after p s 0 with Some _ => true | None => false end.

(** [s.rfind(c)] for a needle of one character: the highest index of [c]
    in [s], or -1. *)
Fixpoint rfind (c : char) (s : str) : Z :=
  match s with
  | [] => (-1)%Z
  | x :: r =>
      let k := rfind c r in
      if (0 <=? k)%Z then (k + 1)%Z
      else if (x =? c)%N then 0%Z else (-1)%Z
  end.

(** [s.lstrip(c)] for a set of one character. *)
Fixpoint lstrip_char (c : char) (s : str) : str :=
  match s with
  | x :: r => if (x =? c)%N then lstrip_char c r else s
  | [] => []
  end.

(** [c.isspace()], which is also what [\s] matches in a [str] pattern. *)
Definition isspace (c : char) : bool :=
  ((9 <=? c) && (c <=? 13) || (28 <=? c) && (c <=? 32) ||
   (c =? 133) || (c =? 160) || (c =? 5760) ||
   (8192 <=? c) && (c <=? 8202) || (c =? 8232) || (c =? 8233) ||
   (c =? 8239) || (c =? 8287) || (c =? 12288))%N.

Fixpoint lstrip (s : str) : str :=
  match s with
  | x :: r => if isspace x then lstrip r else s
  | [] => []
  end.

Definition rstrip (s : str) : str := rev (lstrip (rev s)).

(** [s.strip()]. *)
Definition strip (s : str) : str := rstrip (lstrip s).

(** [sep.join(parts)]. *)
Fixpoint join (sep : str) (parts : list str) : str :=
  match parts with
  | [] => []
  | [p] => p
  | p :: ps => p ++ sep ++ join sep ps
  end.

(** ** Python values and dicts *)

(** The values [json.loads] builds.  A float keeps the literal it was read
    from; [JNull] is [None]. *)
#[local] Unset Elimination Schemes.
Inductive json : Type :=
| JNull
| JBool (b : bool)
| JInt (n : Z)
| JFloat (literal : str)
| JStr (s : str)
| JArr (items : list json)
| JObj (members : list (str * json)).
#[local] Set Elimination Schemes.

Definition dict := list (str * json).

(** [d.get(k)] *)
Fixpoint dict_lookup (k : str) (d : dict) : option json :=
  match d with
  | [] => None
  | (k', v) :: d' => if str_eqb k k' then Some v else dict_lookup k d'
  end.

(** [d.get(k, default)] *)
Definition dict_get (k : str) (default : json) (d : dict) : json :=
  match dict_lookup k d with Some v => v | None => default end.

(** [k in d] *)
Definition dict_has (k : str) (d : dict) : bool :=
  match dict_lookup k d with Some _ => true | None => false end.

(** [d[k] = v]: a key already there keeps its place. *)
Fixpoint dict_set (k : str) (v : json) (d : dict) : dict :=
  match d with
  | [] => [(k, v)]
  | (k', v') :: d' =>
      if str_eqb k k' then (k', v) :: d' else (k', v') :: dict_set k v d'
  end.

(** [d.setdefault(k, v)], for its effect on [d]. *)
Definition setdefault (k : str) (v : json) (d : dict) : dict :=
  if dict_has k d then d else d ++ [(k, v)].

Definition is_digit (c : char) : bool := ((48 <=? c) && (c <=? 57))%N.

Definition digit_val (c : char) : Z := Z.of_N (c - 48).

(** The prefix of [s] made of decimal digits, and the rest. *)
Fixpoint span_digits (s : str) : str * str :=
  match s with
  | c :: r => if is_digit c then let (d, r') := span_digits r in (c :: d, r')
              else ([], s)
  | [] => ([], [])
  end.

Definition digits_to_Z (d : str) : Z :=
  fold_left (fun acc c => (acc * 10 + digit_val c)%Z) d 0%Z.

(** [str(n)] for an [int]. *)
Fixpoint N_digits (fuel : nat) (m : N) : str :=
  match fuel with
  | O => []
  | S f => if (m <? 10)%N then [(48 + m)%N]
           else N_digits f (m / 10)%N ++ [(48 + m mod 10)%N]
  end.

Definition int_text (n : Z) : str :=
  (if (n <? 0)%Z then [ch "-"] else []) ++
  N_digits (S (N.to_nat (N.log2 (Z.abs_N n)))) (Z.abs_N n).

(** Whether the float read from a literal is zero: its digits are all
    zero, or its value is at most 2^-1075 and rounds to zero. *)
Definition float_is_zero (literal : str) : bool :=
  let body := match literal with
              | c :: r => if (c =? ch "-")%N then r else literal
              | [] => []
              end in
  let (ipart, r1) := span_digits body in
  match ipart with
  | [] => false
  | _ :: _ =>
      let (fpart, r2) :=
        match r1 with
        | c :: r => if (c =? ch ".")%N then span_digits r else ([], r1)
        | [] => ([], [])
        end in
      let e :=
        match r2 with
        | c :: r =>
            if ((c =? ch "e") || (c =? ch "E"))%N then
              match r with
              | s :: r' =>
                  if (s =? ch "-")%N then (- digits_to_Z (fst (span_digits r')))%Z
                  else if (s =? ch "+")%N then digits_to_Z (fst (span_digits r'))
                  else digits_to_Z (fst (span_digits r))
              | [] => 0%Z
              end
            else 0%Z
        | [] => 0%Z
        end in
      let m := digits_to_Z (ipart ++ fpart) in
      let e10 := (e - len fpart)%Z in
      ((m =? 0) ||
       ((e10 <? 0) && (m * 2 ^ 1075 <=? 10 ^ (- e10))))%Z
  end.

(** Python's truth value of a value. *)
Definition truthy (v : json) : bool :=
  match v with
  | JNull => false
  | JBool b => b
  | JInt n => negb (n =? 0)%Z
  | JFloat l => negb (float_is_zero l)
  | JStr s => match s with [] => false | _ => true end
  | JArr l => match l with [] => false | _ => true end
  | JObj m => match m with [] => false | _ => true end
  end.

(** [v == s] for a [str] s. *)
Definition eq_str (v : json) (s : str) : bool :=
  match v with JStr s' => str_eqb s' s | _ => false end.

(** [type(v).__name__] *)
Definition type_name (v : json) : str :=
  match v with
  | JNull => lit "NoneType"
  | JBool _ => lit "bool"
  | JInt _ => lit "int"
  | JFloat _ => lit "float"
  | JStr _ => lit "str"
  | JArr _ => lit "list"
  | JObj _ => lit "dict"
  end.

(** ** json.loads

    The decoder of the standard library, with its default settings: the
    JSON grammar, the whitespace [ \t\n\r], strict strings, the literals
    [NaN], [Infinity] and [-Infinity], and a later duplicate key
    overwriting an earlier one.  [None] is [json.JSONDecodeError].  The
    limits of the interpreter (recursion depth, digits of an [int]) are
    not modelled. *)

Module Json.

Inductive scan (A : Type) : Type :=
| Scanned (a : A) (rest : str)
| DecodeError
| OutOfFuel.
Arguments DecodeError {A}.
Arguments OutOfFuel {A}.

Definition is_json_ws (c : char) : bool :=
  ((c =? 32) || (c =? 9) || (c =? 10) || (c =? 13))%N.

Fixpoint skip_ws (s : str) : str :=
  match s with
  | c :: r => if is_json_ws c then skip_ws r else s
  | [] => []
  end.

Definition hexval (c : char) : option N :=
  if ((48 <=? c) && (c <=? 57))%N then Some (c - 48)%N
  else if ((97 <=? c) && (c <=? 102))%N then Some (c - 87)%N
  else if ((65 <=? c) && (c <=? 70))%N then Some (c - 55)%N
  else None.

Definition hexval4 (a b c d : char) : option N :=
  match hexval a, hexval b, hexval c, hexval d with
  | Some x, Some y, Some z, Some w => Some (((x * 16 + y) * 16 + z) * 16 + w)%N
  | _, _, _, _ => None
  end.

(** The character a one-letter escape stands for. *)
Definition escape_char (e : char) : option char :=
  if (e =? QUOTE)%N then Some QUOTE
  else if (e =? BACKSLASH)%N then Some BACKSLASH
  else if (e =? ch "/")%N then Some (ch "/")
  else if (e =? ch "b")%N then Some 8%N
  else if (e =? ch "f")%N then Some 12%N
  else if (e =? ch "n")%N then Some 10%N
  else if (e =? ch "r")%N then Some 13%N
  else if (e =? ch "t")%N then Some 9%N
  else None.

Definition is_high_surrogate (u : N) : bool := ((55296 <=? u) && (u <=? 56319))%N.
Definition is_low_surrogate (u : N) : bool := ((56320 <=? u) && (u <=? 57343))%N.
Definition join_surrogates (hi lo : N) : N :=
  (65536 + ((hi - 55296) * 1024 + (lo - 56320)))%N.

(** The body of a string, read from just after its opening quote; [acc]
    holds the characters read so far, last first. *)
Fixpoint scanstring (s : str) (acc : str) : scan str :=
  match s with
  | [] => DecodeError
  | c :: r =>
      if (c =? QUOTE)%N then Scanned (rev acc) r
      else if (c =? BACKSLASH)%N then
        match r with
        | [] => DecodeError
        | e :: r1 =>
            if (e =? ch "u")%N then
              match r1 with
              | h1 :: h2 :: h3 :: h4 :: r2 =>
                  match hexval4 h1 h2 h3 h4 with
                  | None => DecodeError
                  | Some uni =>
                      if is_high_surrogate uni then
                        match r2 with
                        | b :: u :: g1 :: g2 :: g3 :: g4 :: r3 =>
                            if ((b =? BACKSLASH) && (u =? ch "u"))%N then
                              match hexval4 g1 g2 g3 g4 with
                              | None => DecodeError
                              | Some uni2 =>
                                  if is_low_surrogate uni2
                                  then scanstring r3 (join_surrogates uni uni2 :: acc)
                                  else scanstring r2 (uni :: acc)
                              end
                            else scanstring r2 (uni :: acc)
                        | _ => scanstring r2 (uni :: acc)
                        end
                      else scanstring r2 (uni :: acc)
                  end
              | _ => DecodeError
              end
            else
              match escape_char e with
              | Some x => scanstring r1 (x :: acc)
              | None => DecodeError
              end
        end
      else if (c <=? 31)%N then DecodeError
      else scanstring r (c :: acc)
  end.

(** A number at the head of [s]: an optional minus sign; a zero, or a
    digit from 1 to 9 and then any digits; optionally a point and one or
    more digits; optionally [e] or [E], an optional sign and one or more
    digits.  It is an [int] when it has neither fraction nor exponent. *)
Definition match_number (s : str) : option (json * str) :=
  let (neg, s0) := match s with
                   | c :: r => if (c =? ch "-")%N then (true, r) else (false, s)
                   | [] => (false, [])
                   end in
  let int_part :=
    match s0 with
    | c :: r =>
        if (c =? ch "0")%N then Some ([c], r)
        else if is_digit c then let (d, r') := span_digits r in Some (c :: d, r')
        else None
    | [] => None
    end in
  match int_part with
  | None => None
  | Some (ip, r1) =>
      let (fp, r2) :=
        match r1 with
        | c :: r =>
            if (c =? ch ".")%N then
              match span_digits r with
              | ([], _) => ([], r1)
              | (d, r') => (c :: d, r')
              end
            else ([], r1)
        | [] => ([], r1)
        end in
      let (ep, r3) :=
        match r2 with
        | c :: r =>
            if ((c =? ch "e") || (c =? ch "E"))%N then
              let (sign, r') :=
                match r with
                | g :: t => if ((g =? ch "-") || (g =? ch "+"))%N
                            then ([g], t) else ([], r)
                | [] => ([], r)
                end in
              match span_digits r' with
              | ([], _) => ([], r2)
              | (d, r'') => (c :: sign ++ d, r'')
              end
            else ([], r2)
        | [] => ([], r2)
        end in
      match fp, ep with
      | [], [] =>
          let n := digits_to_Z ip in
          Some (JInt (if neg then (- n)%Z else n), r3)
      | _, _ =>
          Some (JFloat ((if neg then [ch "-"] else []) ++ ip ++ fp ++ ep), r3)
      end
  end.

(** [k] followed by the rest, when [s] starts with the word [k]. *)
Definition keyword (k : string) (v : json) (s : str) : option (json * str) :=
  match strip_prefix (lit k) s with
  | Some r => Some (v, r)
  | None => None
  end.

(** One value at the head of [s] ([scan_once]), the members of an object
    from its first key on, and the items of an array from its first item
    on.  Every call consumes one unit of fuel; twice the length of the
    text and one more are enough for any text. *)
Fixpoint scan_once (fuel : nat) (s : str) : scan json :=
  match fuel with
  | O => OutOfFuel
  | S fuel' =>
      match s with
      | [] => DecodeError
      | c :: r =>
          if (c =? QUOTE)%N then
            match scanstring r [] with
            | Scanned x rest => Scanned (JStr x) rest
            | DecodeError => DecodeError
            | OutOfFuel => OutOfFuel
            end
          else if (c =? ch "{")%N then
            match skip_ws r with
            | c' :: r' =>
                if (c' =? ch "}")%N then Scanned (JObj []) r'
                else parse_members fuel' (c' :: r') []
            | [] => DecodeError
            end
          else if (c =? ch "[")%N then
            match skip_ws r with
            | c' :: r' =>
                if (c' =? ch "]")%N then Scanned (JArr []) r'
                else parse_items fuel' (c' :: r') []
            | [] => DecodeError
            end
          else
            match
              match keyword "null" JNull s with Some x => Some x | None =>
              match keyword "true" (JBool true) s with Some x => Some x | None =>
              match keyword "false" (JBool false) s with Some x => Some x | None =>
              match keyword "NaN" (JFloat (lit "NaN")) s with Some x => Some x | None =>
              match keyword "Infinity" (JFloat (lit "Infinity")) s with Some x => Some x | None =>
              match keyword "-Infinity" (JFloat (lit "-Infinity")) s with Some x => Some x | None =>
              match_number s
              end end end end end end
            with
            | Some (v, rest) => Scanned v rest
            | None => DecodeError
            end
      end
  end

with parse_members (fuel : nat) (s : str) (acc : dict) : scan json :=
  match fuel with
  | O => OutOfFuel
  | S fuel' =>
      match s with
      | c :: r =>
          if (c =? QUOTE)%N then
            match scanstring r [] with
            | Scanned key rest =>
                match skip_ws rest with
                | c1 :: r1 =>
                    if (c1 =? ch ":")%N then
                      match scan_once fuel' (skip_ws r1) with
                      | Scanned v rest' =>
                          let acc' := dict_set key v acc in
                          match skip_ws rest' with
                          | c2 :: r2 =>
                              if (c2 =? ch "}")%N then Scanned (JObj acc') r2
                              else if (c2 =? ch ",")%N
                              then parse_members fuel' (skip_ws r2) acc'
                              else DecodeError
                          | [] => DecodeError
                          end
                      | DecodeError => DecodeError
                      | OutOfFuel => OutOfFuel
                      end
                    else DecodeError
                | [] => DecodeError
                end
            | DecodeError => DecodeError
            | OutOfFuel => OutOfFuel
            end
          else DecodeError
      | [] => DecodeError
      end
  end

with parse_items (fuel : nat) (s : str) (acc : list json) : scan json :=
  match fuel with
  | O => OutOfFuel
  | S fuel' =>
      match scan_once fuel' s with
      | Scanned v rest =>
          match skip_ws rest with
          | c :: r =>
              if (c =? ch "]")%N then Scanned (JArr (acc ++ [v])) r
              else if (c =? ch ",")%N
              then parse_items fuel' (skip_ws r) (acc ++ [v])
              else DecodeError
          | [] => DecodeError
          end
      | DecodeError => DecodeError
      | OutOfFuel => OutOfFuel
      end
  end.

(** [json.loads(s)]: one value, whitespace around it, and nothing else. *)
Definition loads (s : str) : option json :=
  let s1 := skip_ws s in
  match scan_once (S (2 * length s1)) s1 with
  | Scanned v rest =>
      match skip_ws rest with
      | [] => Some v
      | _ :: _ => None
      end
  | DecodeError => None
  | OutOfFuel => None
  end.

End Json.

(** ** config.example.py *)

Record Config : Type := {
  MAX_CHAIN_STEPS : Z;
  MAX_RETRIES : Z;
  CREATIVE_TEMPERATURE : Q;
  PRECISE_TEMPERATURE : Q;
  MAX_TOKENS : Z
}.

(** The values of the file as shipped. *)
Definition CONFIG : Config := {|
  MAX_CHAIN_STEPS := 10;
  MAX_RETRIES := 3;
  CREATIVE_TEMPERATURE := 7 # 10;
  PRECISE_TEMPERATURE := 2 # 10;
  MAX_TOKENS := 4096
|}.

(** ** tools.py: the dispatcher *)

Module Tools.

Record ToolResult : Type := {
  success : bool;
  stdout : str;
  stderr : str;
  return_code : Z;
  image_path : str;
  file_path : str
}.

(** A [ToolResult] with [success=False], an empty [stdout], the given
    [stderr] and [return_code=1]. *)
Definition failure (message : str) : ToolResult := {|
  success := false;
  stdout := [];
  stderr := message;
  return_code := 1;
  image_path := [];
  file_path := []
|}.

(** The keys of [TOOL_MAP], in order. *)
Definition TOOL_MAP_keys : list str := map lit [
  "execute_cmd"; "execute_powershell"; "run_python"; "read_file";
  "write_file"; "append_file"; "list_directory"; "find_files";
  "create_file"; "create_pdf"; "send_file"; "type_text"; "press_key";
  "hotkey"; "mouse_click"; "mouse_move"; "mouse_scroll"; "drag_and_drop";
  "drag_text"; "mouse_hover"; "hover_text"; "select_text"; "select_region";
  "scroll_smooth"; "mouse_hold"; "get_mouse_position"; "right_click_at";
  "screenshot"; "send_image"; "take_photo"; "get_system_info";
  "get_running_processes"; "kill_process"; "open_application";
  "http_request"; "download_file"; "get_clipboard"; "set_clipboard";
  "wait"; "remember"; "recall"; "transcribe_audio"; "analyze_screen";
  "click_text"; "find_text_on_screen"; "get_active_window"
]%string.

Definition in_TOOL_MAP (name : str) : bool :=
  existsb (str_eqb name) TOOL_MAP_keys.

(** What awaiting a tool function does: it returns a [ToolResult], or it
    raises [TypeError] (so does a call whose keyword arguments do not fit
    the function), or it raises another exception.  The [str] is the text
    of the exception. *)
Inductive outcome : Type :=
| Returns (r : ToolResult)
| RaisesTypeError (e : str)
| RaisesException (e : str).

(** The tool functions: the function named by a key of [TOOL_MAP],
    applied to keyword arguments. *)
Definition handlers := str -> dict -> outcome.

(** What a call of [dispatch_tool] does for its caller. *)
Inductive dispatched : Type :=
| Result (r : ToolResult)
| Raised (e : str).

(** [{k: v for k, v in parameters.items() if v is not None}] *)
Definition clean_params (parameters : dict) : dict :=
  filter (fun kv => match snd kv with JNull => false | _ => true end) parameters.

(** [str(list(TOOL_MAP.keys()))] *)
Definition keys_repr : str :=
  lit "[" ++ join (lit ", ") (map (fun k => lit "'" ++ k ++ lit "'") TOOL_MAP_keys)
  ++ lit "]".

(** The text of a scalar in an f-string; a float is shown by its
    literal. *)
Definition scalar_text (v : json) : str :=
  match v with
  | JNull => lit "None"
  | JBool true => lit "True"
  | JBool false => lit "False"
  | JInt n => int_text n
  | JFloat l => l
  | JStr s => s
  | _ => []
  end.

(** [dispatch_tool(action, parameters)].  The arguments are whatever the
    decision holds under [action] and [parameters].  A list or a dict
    is not hashable, so the test [action not in TOOL_MAP] raises
    [TypeError] for it; any other value that is not a key is an unknown
    tool.  The body of the [try] reads [parameters.items()], which raises
    [AttributeError] when [parameters] is not a dict. *)
Definition dispatch_tool (run : handlers) (action parameters : json) : dispatched :=
  match action with
  | JArr _ | JObj _ =>
      Raised (lit "unhashable type: '" ++ type_name action ++ lit "'")
  | JStr name =>
      if negb (in_TOOL_MAP name) then
        Result (failure (lit "Unknown tool: " ++ name ++ lit ". Available: " ++ keys_repr))
      else
        match parameters with
        | JObj items =>
            match run name (clean_params items) with
            | Returns result => Result result
            | RaisesTypeError e =>
                Result (failure (lit "Invalid parameters for " ++ name ++ lit ": " ++ e))
            | RaisesException e =>
                Result (failure (lit "Tool execution error: " ++ e))
            end
        | _ =>
            Result (failure (lit "Tool execution error: '" ++ type_name parameters
                             ++ lit "' object has no attribute 'items'"))
        end
  | _ =>
      Result (failure (lit "Unknown tool: " ++ scalar_text action
                       ++ lit ". Available: " ++ keys_repr))
  end.

End Tools.

(** ** brain.py: extraction of a decision from the model's text *)

Module Brain.

Definition THINK_OPEN : str := lit "<think>".
Definition THINK_CLOSE : str := lit "</think>".
Definition FENCE : str := lit "```".

(** The first [re.sub] of [_strip_thinking_tags], which removes the
    pattern [<think>.*?</think>] with [re.DOTALL]: from the left, each
    [<think>] that has a [</think>] after it is removed with everything
    up to the nearest one.  [skip] counts the characters of a match still
    to be dropped. *)
Fixpoint sub_think_paired (skip : nat) (text : str) : str :=
  match text with
  | [] => []
  | c :: r =>
      match skip with
      | S k => sub_think_paired k r
      | O =>
          match strip_prefix THINK_OPEN text with
          | Some body =>
              match find_after THINK_CLOSE body 0 with
              | Some (j, _) => sub_think_paired (14 + j) r
              | None => c :: sub_think_paired 0 r
              end
          | None => c :: sub_think_paired 0 r
          end
      end
  end.

(** The second [re.sub], which removes the pattern [<think>.*$] with
    [re.DOTALL]: the text is cut at its first [<think>]. *)
Fixpoint sub_think_open (text : str) : str :=
  match strip_prefix THINK_OPEN text with
  | Some _ => []
  | None =>
      match text with
      | [] => []
      | c :: r => c :: sub_think_open r
      end
  end.

Definition _strip_thinking_tags (text : str) : str :=
  strip (sub_think_open (sub_think_paired 0 text)).

(** The lazy [.*?] of the fence pattern, followed by its
    [\}\s*```]: the group ends at the first closing brace that has only
    whitespace between it and a fence.  [acc] is the group so far, last
    character first. *)
Fixpoint fence_close (body : str) (acc : str) : option str :=
  match body with
  | [] => None
  | c :: r =>
      if ((c =? ch "}")%N && startswith (lstrip r) FENCE)%bool
      then Some (rev (c :: acc))
      else fence_close r (c :: acc)
  end.

(** Group 1 of the fence pattern matched at the head of [t]: a fence, an
    optional [json], whitespace, and a group from an opening brace on. *)
Definition fence_match_at (t : str) : option str :=
  match strip_prefix FENCE t with
  | None => None
  | Some t1 =>
      let t2 := match strip_prefix (lit "json") t1 with
                | Some t' => t'
                | None => t1
                end in
      match lstrip t2 with
      | c :: body => if (c =? ch "{")%N then fence_close body [c] else None
      | [] => None
      end
  end.

(** [re.search(fence_pattern, text, re.DOTALL)], for its group 1: the
    match that starts leftmost. *)
Fixpoint fence_search (text : str) : option str :=
  match fence_match_at text with
  | Some g => Some g
  | None =>
      match text with
      | [] => None
      | _ :: r => fence_search r
      end
  end.

(** The [for] loop of step 4, from the first opening brace on: the span up
    to the closing brace that brings the depth back to 0, when there is
    one.  [taken] is the text passed so far, last character first. *)
Fixpoint brace_scan (rest : str) (depth : Z) (in_string escape_next : bool)
    (taken : str) : option str :=
  match rest with
  | [] => None
  | c :: r =>
      if escape_next then brace_scan r depth in_string false (c :: taken)
      else if (c =? BACKSLASH)%N then brace_scan r depth in_string true (c :: taken)
      else if (c =? QUOTE)%N then brace_scan r depth (negb in_string) false (c :: taken)
      else if in_string then brace_scan r depth in_string false (c :: taken)
      else if (c =? ch "{")%N then brace_scan r (depth + 1) in_string false (c :: taken)
      else if (c =? ch "}")%N then
        if (depth - 1 =? 0)%Z then Some (rev (c :: taken))
        else brace_scan r (depth - 1) in_string false (c :: taken)
      else brace_scan r depth in_string false (c :: taken)
  end.

(** The text from [brace_start] on, when there is an opening brace. *)
Fixpoint from_first_brace (text : str) : option str :=
  match text with
  | [] => None
  | c :: r => if (c =? ch "{")%N then Some text else from_first_brace r
  end.

(** [re.sub] of a comma, whitespace and a closing bracket [closer] by
    that bracket: a comma with only whitespace between it and the bracket
    is removed with that whitespace. *)
Fixpoint sub_trailing_comma (closer : char) (skip : nat) (s : str) : str :=
  match s with
  | [] => []
  | c :: r =>
      match skip with
      | S k => sub_trailing_comma closer k r
      | O =>
          if (c =? ch ",")%N then
            match lstrip r with
            | x :: r' =>
                if (x =? closer)%N
                then closer :: sub_trailing_comma closer (length r - length r') r
                else c :: sub_trailing_comma closer 0 r
            | [] => c :: sub_trailing_comma closer 0 r
            end
          else c :: sub_trailing_comma closer 0 r
      end
  end.

Definition fix_trailing_commas (s : str) : str :=
  sub_trailing_comma (ch "]") 0 (sub_trailing_comma (ch "}") 0 s).

(** [str.replace] of every single quote by a double quote. *)
Definition replace_single_quotes (s : str) : str :=
  map (fun c => if (c =? ch "'")%N then QUOTE else c) s.

(** The three parses tried on the candidate of step 4. *)
Definition parse_candidate (candidate : str) : option json :=
  match Json.loads candidate with
  | Some v => Some v
  | None =>
      match Json.loads (fix_trailing_commas candidate) with
      | Some v => Some v
      | None => Json.loads (fix_trailing_commas (replace_single_quotes candidate))
      end
  end.

(** The lazy group of the field patterns: the text up to the next double
    quote. *)
Fixpoint until_quote (s : str) (acc : str) : option str :=
  match s with
  | [] => None
  | c :: r => if (c =? QUOTE)%N then Some (rev acc) else until_quote r (c :: acc)
  end.

(** Group 1 of the pattern for a field matched at the head of [t]: the
    quoted key, whitespace, a colon, whitespace, a double quote and the
    text up to the next double quote. *)
Definition field_match_at (key : str) (t : str) : option str :=
  match strip_prefix ([QUOTE] ++ key ++ [QUOTE]) t with
  | None => None
  | Some t1 =>
      match lstrip t1 with
      | c :: t2 =>
          if (c =? ch ":")%N then
            match lstrip t2 with
            | q :: t3 => if (q =? QUOTE)%N then until_quote t3 [] else None
            | [] => None
            end
          else None
      | [] => None
      end
  end.

(** [re.search] with the pattern for a field, for its group 1. *)
Fixpoint field_search (key : str) (text : str) : option str :=
  match field_match_at key text with
  | Some g => Some g
  | None =>
      match text with
      | [] => None
      | _ :: r => field_search key r
      end
  end.

(** The five keys of a decision. *)
Definition K_thought : str := lit "thought".
Definition K_action : str := lit "action".
Definition K_parameters : str := lit "parameters".
Definition K_response : str := lit "response".
Definition K_continue : str := lit "continue".

Definition decision_keys : list str :=
  [K_thought; K_action; K_parameters; K_response; K_continue].

(** The dict literal that most fallbacks return. *)
Definition reply (thought response : str) : dict :=
  [(K_thought, JStr thought); (K_action, JStr (lit "none"));
   (K_parameters, JObj []); (K_response, JStr response);
   (K_continue, JBool false)].

(** Steps 2 to 5 of [_extract_json], on the stripped text. *)
Definition step5 (text : str) : json :=
  match field_search K_response text with
  | Some response =>
      JObj (reply (match field_search K_thought text with
                   | Some thought => thought
                   | None => []
                   end) response)
  | None => JNull
  end.

Definition step4 (text : str) : json :=
  match from_first_brace text with
  | Some rest =>
      match brace_scan rest 0 false false [] with
      | Some candidate =>
          match parse_candidate candidate with
          | Some v => v
          | None => step5 text
          end
      | None => step5 text
      end
  | None => step5 text
  end.

Definition step3 (text : str) : json :=
  match fence_search text with
  | Some group =>
      match Json.loads group with
      | Some v => v
      | None => step4 text
      end
  | None => step4 text
  end.

(** [_extract_json(text)]; the result [None] is [JNull]. *)
Definition _extract_json (text : str) : json :=
  let text := strip (_strip_thinking_tags text) in
  match text with
  | [] => JNull
  | _ :: _ =>
      match Json.loads text with
      | Some v => v
      | None => step3 text
      end
  end.

(** ** brain.py: class Brain *)

(** [str.lower].  Code points up to U+00FF, U+0130 and U+212A are mapped as
    Python maps them.  Every other character is left as it is: its lower
    case holds no ASCII letter, so it cannot change whether one of the
    signal words below occurs in the result. *)
Definition lower_char (c : char) : str :=
  if ((65 <=? c) && (c <=? 90) || (192 <=? c) && (c <=? 214) ||
      (216 <=? c) && (c <=? 222))%N then [(c + 32)%N]
  else if (c =? 304)%N then [105; 775]%N
  else if (c =? 8490)%N then [107%N]
  else [c].

Definition lower (s : str) : str := flat_map lower_char s.

Definition creative_signals : list str := map lit [
  "write"; "story"; "poem"; "joke"; "creative"; "imagine";
  "chat"; "talk"; "tell me"; "how are you"; "what do you think";
  "opinion"; "suggest"; "recommend"; "idea"
]%string.

Definition precise_signals : list str := map lit [
  "run"; "execute"; "install"; "create file"; "write file";
  "open"; "click"; "type"; "command"; "code"; "script";
  "fix"; "debug"; "error"; "delete"; "kill"; "process";
  "download"; "build"; "deploy"; "configure"; "setup"
]%string.

(** [any(signal in message_lower for signal in signals)] *)
Definition any_in (signals : list str) (message_lower : str) : bool :=
  existsb (fun signal => contains signal message_lower) signals.

Definition _classify_task (message : str) : str :=
  let message_lower := lower message in
  if any_in creative_signals message_lower then lit "creative"
  else if any_in precise_signals message_lower then lit "precise"
  else lit "balanced".

(** One entry of the [messages] of a call, and the call itself. *)
Record message : Type := { role : str; content : str }.

Record request : Type := {
  messages : list message;
  temperature : Q;
  max_tokens : Z
}.

(** What a call of the model gives: the text of its answer ([content], or
    the empty text when there is none), or an exception. *)
Inductive completion : Type :=
| Completed (raw : str)
| ServiceError (e : str).

(** The warning sign that opens three of the texts below. *)
Definition WARNING_SIGN : str := [9888; 65039]%N.

(** The message added on a retry. *)
Definition corrective_message : message := {|
  role := lit "user";
  content :=
    WARNING_SIGN ++ lit " Your previous response was NOT valid JSON. " ++
    lit "You MUST respond with ONLY a JSON object, nothing else. " ++
    litq "Format: {'thought': '...', 'action': '...', " ++
    litq "'parameters': {...}, 'response': '...', 'continue': false}" ++ [NL] ++
    lit "NO markdown, NO backticks, NO extra text. JUST THE JSON."
|}.

(** [max(a, b)] *)
Definition py_max (a b : Q) : Q := if Qlt_le_dec a b then b else a.

(** The temperature of an attempt. *)
Definition current_temp (temperature : Q) (attempt : Z) : Q :=
  if (attempt >? 0)%Z
  then py_max (1 # 10) (temperature - (2 # 10) * inject_Z attempt)
  else temperature.

Definition extra_messages (attempt : Z) : list message :=
  if (attempt >? 0)%Z then [corrective_message] else [].

(** The five [setdefault] of [think]. *)
Definition fill_defaults (decision : dict) : dict :=
  setdefault K_continue (JBool false)
    (setdefault K_response (JStr (lit "I processed your request."))
      (setdefault K_parameters (JObj [])
        (setdefault K_action (JStr (lit "none"))
          (setdefault K_thought (JStr []) decision)))).

Section Think.

Variable cfg : Config.

(** The model: its answer to the call numbered [n] (from 0) of one
    [think]. *)
Variable llm : nat -> request -> completion.

(** The temperature chosen from the kind of task. *)
Definition base_temperature (user_message : str) : Q :=
  let task_type := _classify_task user_message in
  if str_eqb task_type (lit "creative") then CREATIVE_TEMPERATURE cfg
  else if str_eqb task_type (lit "precise") then PRECISE_TEMPERATURE cfg
  else 5 # 10.

(** The dict returned from the [except] branch of the last attempt. *)
Definition error_reply (e : str) : dict :=
  reply (lit "Error occurred: " ++ e)
        (WARNING_SIGN ++ lit " I encountered an error while processing: " ++ e).

(** The dict returned when the last attempt gave no JSON. *)
Definition wrapped_reply (raw : str) : dict :=
  let cleaned := strip (_strip_thinking_tags raw) in
  reply (lit "Response was not in JSON format after retries.")
        (match cleaned with
         | [] => lit "I processed your request but couldn't format the response properly."
         | _ :: _ => cleaned
         end).

(** The dict returned after the loop. *)
Definition unexpected_reply : dict :=
  reply (lit "Unexpected flow.")
        (WARNING_SIGN ++ lit " Something went wrong. Please try again.").

(** The loop [for attempt in range(MAX_RETRIES)], with [remaining] turns
    to go.  [calls] lists the calls of the model made so far.  A decision
    that is not a dict makes [decision.get] raise [AttributeError], which
    the [except] branch handles as it handles an error of the service. *)
Fixpoint think_loop (remaining : nat) (attempt : Z) (msgs : list message)
    (temperature : Q) (calls : list request) : dict * list request :=
  match remaining with
  | O => (unexpected_reply, calls)
  | S remaining' =>
      let call := {| messages := msgs ++ extra_messages attempt;
                     temperature := current_temp temperature attempt;
                     max_tokens := MAX_TOKENS cfg |} in
      let calls' := calls ++ [call] in
      let on_exception (e : str) :=
        if (attempt =? MAX_RETRIES cfg - 1)%Z then (error_reply e, calls')
        else think_loop remaining' (attempt + 1) msgs temperature calls' in
      match llm (length calls) call with
      | Completed raw =>
          match _extract_json raw with
          | JNull =>
              if (attempt <? MAX_RETRIES cfg - 1)%Z
              then think_loop remaining' (attempt + 1) msgs temperature calls'
              else (wrapped_reply raw, calls')
          | JObj decision => (fill_defaults decision, calls')
          | other =>
              on_exception (lit "'" ++ type_name other ++
                            lit "' object has no attribute 'get'")
          end
      | ServiceError e => on_exception e
      end
  end.

(** [Brain.think(user_message)]: the decision, and the calls of the model
    it made.  [context] is what the method puts in [messages] before the
    user's message: the system prompt, the history and the summaries, as
    read from the store before the loop. *)
Definition think (context : list message) (user_message : str)
    : dict * list request :=
  let msgs := context ++ [{| role := lit "user"; content := user_message |}] in
  think_loop (Z.to_nat (MAX_RETRIES cfg)) 0 msgs (base_temperature user_message) [].

End Think.

(** The dict returned when the reflection gave no usable JSON. *)
Definition summarizing_reply (raw : str) : dict :=
  let cleaned := strip (_strip_thinking_tags raw) in
  reply (lit "Summarizing tool output.")
        (match cleaned with
         | [] => lit "Tool executed successfully."
         | _ :: _ => cleaned
         end).

(** The dict returned from the [except] branch of [process_tool_result]. *)
Definition api_error_reply (tool_result : Tools.ToolResult) : dict :=
  let summary :=
    match Tools.stdout tool_result with
    | _ :: _ => slice_to (Tools.stdout tool_result) 2000
    | [] =>
        match Tools.stderr tool_result with
        | _ :: _ => lit "Error: " ++ slice_to (Tools.stderr tool_result) 1000
        | [] => lit "Command completed with return code " ++
                int_text (Tools.return_code tool_result) ++ lit "."
        end
    end in
  reply (lit "Fallback summary due to API error.") summary.

(** The three [setdefault] of [process_tool_result]. *)
Definition fill_followup (result : dict) : dict :=
  setdefault K_continue (JBool false)
    (setdefault K_parameters (JObj [])
      (setdefault K_action (JStr (lit "none")) result)).

(** What a call gives its caller: a value, or an exception. *)
Inductive raising (A : Type) : Type :=
| Ok (a : A)
| Raise (e : str).
Arguments Raise {A}.

(** [Brain.process_tool_result(decision, tool_result)], given the model's
    [answer] to its one call.  Reading [decision['action']] before the
    [try] raises [KeyError] when the key is missing.  In the test
    [result and K in result], for the key K of the response, a list is
    searched for an item, a str for a substring, and a number or a bool raises [TypeError]; on a
    list or a str, [setdefault] raises [AttributeError]; the [except]
    branch catches both. *)
Definition process_tool_result (answer : completion) (decision : dict)
    (tool_result : Tools.ToolResult) : raising dict :=
  if negb (dict_has K_action decision) then Raise (lit "'action'")
  else
    match answer with
    | ServiceError _ => Ok (api_error_reply tool_result)
    | Completed raw =>
        let result := _extract_json raw in
        if negb (truthy result) then Ok (summarizing_reply raw)
        else
          match result with
          | JObj d =>
              if dict_has K_response d then Ok (fill_followup d)
              else Ok (summarizing_reply raw)
          | JArr items =>
              if existsb (fun v => eq_str v K_response) items
              then Ok (api_error_reply tool_result)
              else Ok (summarizing_reply raw)
          | JStr s =>
              if contains K_response s
              then Ok (api_error_reply tool_result)
              else Ok (summarizing_reply raw)
          | _ => Ok (api_error_reply tool_result)
          end
    end.

End Brain.

(** ** telegram_handler.py: execute_tool_chain *)

Module Chain.
Import Brain.

(** One entry of [chain_context]. *)
Record ChainStep : Type := {
  cs_step : Z;
  cs_action : json;
  cs_parameters : json;
  cs_success : bool;
  cs_output : str
}.

(** How a run of [execute_tool_chain] ends: with its pair
    [(final_response, chain_context)], or with an exception that left
    [chain_context] as given. *)
Inductive chain_end : Type :=
| Returned (final_response : json) (chain_context : list ChainStep)
| Failed (e : str) (chain_context : list ChainStep).

Definition K_original_message : str := lit "_original_message".

(** The test [x and x != none] of the loop, on an action. *)
Definition names_tool (action : json) : bool :=
  truthy action && negb (eq_str action (lit "none")).

(** [tool_result.stdout or tool_result.stderr] *)
Definition stdout_or_stderr (r : Tools.ToolResult) : str :=
  match Tools.stdout r with
  | _ :: _ => Tools.stdout r
  | [] => Tools.stderr r
  end.

Section ExecuteToolChain.

Variable cfg : Config.

(** The tool functions as they answer at the dispatch numbered [n] (from
    1), and the model's answer to the reflection that follows it. *)
Variable tools : nat -> Tools.handlers.
Variable reflections : nat -> completion.

(** The local variables of the function that the loop reads and
    writes. *)
Record state : Type := {
  decision : dict;
  chain_context : list ChainStep;
  step : Z;
  final_response : json
}.

(** What one turn of the loop does: it goes on to the next test of the
    loop with a new state ([continue]), or it ends the function, by
    leaving the loop or by an exception. *)
Inductive turn : Type :=
| Continue (st : state)
| Stop (e : chain_end).


(** The test of the [while] and its body.  Sending status messages,
    images and files and storing the action are taken to succeed; they
    have no part in what the function returns and are left out. *)
Definition chain_turn (user_text : str) (st : state) : turn :=
  if (step st <? MAX_CHAIN_STEPS cfg)%Z then
    let action := dict_get K_action (JStr (lit "none")) (decision st) in
    let parameters := dict_get K_parameters (JObj []) (decision st) in
    let should_continue := dict_get K_continue (JBool false) (decision st) in
    if names_tool action then
      let step := (step st + 1)%Z in
      match Tools.dispatch_tool (tools (Z.to_nat step)) action parameters with
      | Tools.Raised e => Stop (Failed e (chain_context st))
      | Tools.Result tool_result =>
          let chain_context := chain_context st ++ [{|
            cs_step := step;
            cs_action := action;
            cs_parameters := parameters;
            cs_success := Tools.success tool_result;
            cs_output := slice_to (stdout_or_stderr tool_result) 500 |}] in
          match process_tool_result (reflections (Z.to_nat step))
                  (decision st) tool_result with
          | Raise e => Stop (Failed e chain_context)
          | Ok follow_decision =>
              let final_response :=
                dict_get K_response (final_response st) follow_decision in
              let next_action :=
                dict_get K_action (JStr (lit "none")) follow_decision in
              let next_continue :=
                dict_get K_continue (JBool false) follow_decision in
              if names_tool next_action &&
                 (truthy next_continue || truthy should_continue)
              then
                Continue {|
                  decision := dict_set K_original_message (JStr user_text)
                                follow_decision;
                  chain_context := chain_context;
                  step := step;
                  final_response := final_response |}
              else Stop (Returned final_response chain_context)
          end
      end
    else Stop (Returned (final_response st) (chain_context st))
  else Stop (Returned (final_response st) (chain_context st)).

(** The loop.  Each turn consumes one unit of [fuel]; [None] means the
    fuel ran out before the loop ended. *)
Fixpoint chain_loop (fuel : nat) (user_text : str) (st : state)
    : option chain_end :=
  match fuel with
  | O => None
  | S fuel' =>
      match chain_turn user_text st with
      | Stop e => Some e
      | Continue st' => chain_loop fuel' user_text st'
      end
  end.

(** [execute_tool_chain(message, user_text, initial_decision)] *)
Definition execute_tool_chain (user_text : str) (initial_decision : dict)
    : option chain_end :=
  chain_loop (S (Z.to_nat (MAX_CHAIN_STEPS cfg))) user_text {|
    decision := initial_decision;
    chain_context := [];
    step := 0;
    final_response := dict_get K_response (JStr []) initial_decision |}.

End ExecuteToolChain.

End Chain.

(** ** telegram_handler.py: split_message *)

Module Split.

(** The position at which one over-long text is cut. *)
Definition split_pos (text : str) (max_length : Z) : Z :=
  let p := rfind NL (slice_to text max_length) in
  if ((p =? -1) || (p <? max_length / 2))%Z then
    let p := rfind SP (slice_to text max_length) in
    if ((p =? -1) || (p <? max_length / 2))%Z then max_length else p
  else p.

(** The [while text:] loop.  Each turn consumes one unit of [fuel]; [None]
    means the fuel ran out before the loop ended. *)
Fixpoint split_loop (fuel : nat) (max_length : Z) (text : str)
    (chunks : list str) : option (list str) :=
  match fuel with
  | O => None
  | S fuel' =>
      match text with
      | [] => Some chunks
      | _ :: _ =>
          if (len text <=? max_length)%Z then Some (chunks ++ [text])
          else
            let p := split_pos text max_length in
            split_loop fuel' max_length
              (lstrip_char NL (slice_from text p))
              (chunks ++ [slice_to text p])
      end
  end.

Definition split_message (text : str) (max_length : Z) : option (list str) :=
  if (len text <=? max_length)%Z then Some [text]
  else split_loop (S (length text)) max_length text [].

(** Chunks put back together, [gaps] giving the number of newlines that
    followed each chunk. *)
Fixpoint rejoin (chunks : list str) (gaps : list nat) : str :=
  match chunks, gaps with
  | c :: cs, g :: gs => c ++ repeat NL g ++ rejoin cs gs
  | c :: cs, [] => c ++ rejoin cs []
  | [], _ => []
  end.

End Split.

(** * The handler, the store, the background loops and the tools

    The rest of the bot ([telegram_handler.py], [memory.py],
    [cognition_loop.py], [watchdog.py], [tools.py]), with the same
    conventions. *)

(** ** config.example.py: the settings outside the decision engine *)

Record Settings : Type := {
  AUTHORIZED_USER_ID : Z;
  COGNITION_INTERVAL_SECONDS : Z;
  MAX_CONTEXT_MESSAGES : Z;
  WATCHDOG_CHECK_INTERVAL : Z;
  MAX_RESTART_ATTEMPTS : Z;
  CMD_TIMEOUT : Z
}.

(** The values of the file as shipped. *)
Definition SETTINGS : Settings := {|
  AUTHORIZED_USER_ID := 0;
  COGNITION_INTERVAL_SECONDS := 60;
  MAX_CONTEXT_MESSAGES := 50;
  WATCHDOG_CHECK_INTERVAL := 30;
  MAX_RESTART_ATTEMPTS := 5;
  CMD_TIMEOUT := 180
|}.

(** ** telegram_handler.py: the replies and the handler of text messages *)

Module Handler.
Import Brain Chain Split.

(** The texts of the handler. *)
Definition DONE : str := [9989%N] ++ lit " Done.".

Definition ACCESS_DENIED : str :=
  [9940%N] ++ lit " Access denied. You are not authorized to use SharkonAI.".

Definition ERROR_OCCURRED : str := WARNING_SIGN ++ lit " An error occurred: ".

(** The calls that the handler itself makes on the chat, on the store
    and, through [think], on the model, in the order in which it makes
    them.  A call of [message.reply] or of [edit_text] is recorded with its
    text and with whether it was made with [parse_mode=None].  What
    [execute_tool_chain] sends and stores on its way is not recorded. *)
Inductive event : Type :=
| Reply (text : str) (parse_mode_none : bool)
| EditText (text : str) (parse_mode_none : bool)
| ChatAction
| StoreMessage (role : str) (content : json) (user_id message_id : option Z)
| Completion (call : request).

(** The message received: the fields the handler reads. *)
Record incoming : Type := {
  from_user_id : Z;
  text : str;
  message_id : Z
}.

(** [final_response += steps_summary]: a text is extended, a list takes
    the characters of the summary as items, and any other value raises
    [TypeError]. *)
Definition iadd_str (v : json) (s : str) : raising json :=
  match v with
  | JStr a => Ok (JStr (a ++ s))
  | JArr items => Ok (JArr (items ++ map (fun c => JStr [c]) s))
  | other =>
      Raise (lit "unsupported operand type(s) for +=: '" ++ type_name other
             ++ lit "' and 'str'")
  end.

(** The suffix that the handler adds after a chain of several steps. *)
Definition steps_summary (chain_context : list ChainStep) : str :=
  let n := Z.of_nat (length chain_context) in
  let success_count := Z.of_nat (length (filter cs_success chain_context)) in
  [NL; NL; 128203%N] ++ lit " Completed " ++ int_text n ++ lit " steps" ++
  (if (success_count =? n)%Z
   then [SP; 8212%N] ++ lit " all successful " ++ [9989%N]
   else [SP; 8212%N; SP] ++ int_text success_count ++ lit "/" ++ int_text n
        ++ lit " successful").

(** The first lines of [safe_reply]: the text that will be sent.  A value
    that Python takes for false, and a text of whitespace, give the fixed
    text; any other value that is not a text has no [strip]. *)
Definition reply_text (text : json) : raising str :=
  if negb (truthy text) then Ok DONE
  else
    match text with
    | JStr s => match strip s with [] => Ok DONE | _ :: _ => Ok s end
    | other =>
        Raise (lit "'" ++ type_name other ++ lit "' object has no attribute 'strip'")
    end.


Section Handle.

Variable cfg : Config.

Variable settings : Settings.

(** The chat and the store: whether the call that is the event numbered
    [n] (from 0) of a run raises, and with what text. *)
Variable fails : nat -> option str.

(** The model, the messages that [think] assembles from the store, the
    tools and the reflections, as for [think] and [execute_tool_chain]. *)
Variable llm : nat -> request -> completion.
Variable context : list message.
Variable tools : nat -> Tools.handlers.
Variable reflections : nat -> completion.

Definition is_authorized (user_id : Z) : bool :=
  (user_id =? AUTHORIZED_USER_ID settings)%Z.

(** One call: it is recorded, and it raises or not. *)
Definition call (log : list event) (e : event) : list event * option str :=
  (log ++ [e], fails (length log)).

(** The body of the loop of [safe_reply]: a reply that raises is sent
    once more without parse mode, and what that raises is logged. *)
Definition send_chunk (log : list event) (chunk : str) : list event :=
  match call log (Reply chunk false) with
  | (log, None) => log
  | (log, Some _) => fst (call log (Reply chunk true))
  end.

(** [safe_reply(message, text)]: the calls made, and the exception that
    leaves the function if any. *)
Definition safe_reply (log : list event) (text : json)
    : list event * option str :=
  match reply_text text with
  | Raise e => (log, Some e)
  | Ok text =>
      match split_message text 4096 with
      | Some chunks => (fold_left send_chunk chunks log, None)
      | None => (log, None)
      end
  end.


(** The [except] branch of the handler. *)
Definition on_exception (log : list event) (e : str) : list event :=
  fst (call log (Reply (ERROR_OCCURRED ++ slice_to e 300) true)).

(** The end of the [try] block: the response is stored, then sent. *)
Definition respond (log : list event) (final_response : json) : list event :=
  match call log (StoreMessage (lit "assistant") final_response None None) with
  | (log, Some e) => on_exception log e
  | (log, None) =>
      match safe_reply log final_response with
      | (log, Some e) => on_exception log e
      | (log, None) => log
      end
  end.

(** The [try] block with its [except] branch. *)
Definition try_block (log : list event) (user_text : str) : list event :=
  let (decision, calls) := think cfg llm context user_text in
  let log := log ++ map Completion calls in
  let decision := dict_set K_original_message (JStr user_text) decision in
  let action := dict_get K_action (JStr (lit "none")) decision in
  if names_tool action then
    match execute_tool_chain cfg tools reflections user_text decision with
    | None => log
    | Some (Failed e _) => on_exception log e
    | Some (Returned final_response chain_context) =>
        if (Z.of_nat (length chain_context) >? 1)%Z then
          match iadd_str final_response (steps_summary chain_context) with
          | Raise e => on_exception log e
          | Ok final_response => respond log final_response
          end
        else respond log final_response
    end
  else respond log (dict_get K_response (JStr []) decision).

(** [handle_text_message(message)]: the calls made, and the exception
    that leaves the handler if any. *)
Definition handle_text_message (message : incoming)
    : list event * option str :=
  let user_id := from_user_id message in
  if negb (is_authorized user_id) then call [] (Reply ACCESS_DENIED false)
  else
    let user_text := strip (text message) in
    match user_text with
    | [] => ([], None)
    | _ :: _ =>
        match call [] (StoreMessage (lit "user") (JStr user_text)
                         (Some user_id) (Some (message_id message))) with
        | (log, Some e) => (log, Some e)
        | (log, None) =>
            match call log ChatAction with
            | (log, Some e) => (log, Some e)
            | (log, None) => (try_block log user_text, None)
            end
        end
    end.

End Handle.

End Handler.

(** ** memory.py: the store

    The database is modelled by its tables: a table is the list of its
    rows in the order of their insertion, and an [AUTOINCREMENT] key comes
    with the counter that SQLite keeps for it, which [DELETE] does not
    reset.  A query is the list function that its SQL text denotes.  The
    clock is an argument: [now] is the text of
    [datetime.utcnow().isoformat()] at the call.  A column that receives
    [json.dumps] of an argument holds the argument itself.  Connections,
    the lock and failures of the database are not modelled. *)

Module Memory.

Record message_row : Type := {
  m_id : Z;
  m_timestamp : str;
  m_role : str;
  m_content : str;
  m_user_id : option Z;
  m_message_id : option Z;
  m_metadata : dict
}.

Record action_row : Type := {
  a_id : Z;
  a_timestamp : str;
  a_action_type : str;
  a_parameters : dict;
  a_result : str;
  a_success : Z;
  a_thought : str;
  a_response : str
}.

Record state_row : Type := {
  s_key : str;
  s_value : str;
  s_updated_at : str
}.

Record task_row : Type := {
  t_id : Z;
  t_timestamp : str;
  t_description : str;
  t_status : str;
  t_steps_completed : Z;
  t_steps_total : Z;
  t_result : str;
  t_error : str;
  t_metadata : dict
}.

Record knowledge_row : Type := {
  k_id : Z;
  k_timestamp : str;
  k_category : str;
  k_key : str;
  k_value : str;
  k_confidence : Q;
  k_source : str
}.

(** The tables, and the counters of their keys: the largest key given so
    far. *)
Record db : Type := {
  messages : list message_row;
  messages_seq : Z;
  actions : list action_row;
  actions_seq : Z;
  state : list state_row;
  tasks : list task_row;
  tasks_seq : Z;
  knowledge : list knowledge_row;
  knowledge_seq : Z
}.

(** The database after [_init_db] on a new file. *)
Definition empty : db := {|
  messages := []; messages_seq := 0;
  actions := []; actions_seq := 0;
  state := [];
  tasks := []; tasks_seq := 0;
  knowledge := []; knowledge_seq := 0
|}.

(** *** SQL *)

(** [ORDER BY key DESC], for a key without ties. *)
Fixpoint insert_desc (A : Type) (key : A -> Z) (x : A) (l : list A) : list A :=
  match l with
  | [] => [x]
  | y :: r => if (key y <? key x)%Z then x :: l else y :: insert_desc key x r
  end.

Definition order_by_desc (A : Type) (key : A -> Z) (l : list A) : list A :=
  fold_right (insert_desc key) [] l.

(** [LIMIT n]: a negative [n] is no limit. *)
Definition limit (A : Type) (n : Z) (l : list A) : list A :=
  if (n <? 0)%Z then l else firstn (Z.to_nat n) l.

(** [fetchone()] *)
Definition fetchone (A : Type) (l : list A) : option A :=
  match l with
  | [] => None
  | x :: _ => Some x
  end.

(** *** Messages *)

(** What a row of [get_recent_messages] holds. *)
Record message_view : Type := {
  v_role : str;
  v_content : str;
  v_timestamp : str
}.

Definition view (r : message_row) : message_view := {|
  v_role := m_role r;
  v_content := m_content r;
  v_timestamp := m_timestamp r
|}.

(** [store_message(role, content, user_id, message_id, metadata)] *)
Definition store_message (role content : str) (user_id message_id : option Z)
    (metadata : option dict) (now : str) (d : db) : db := {|
  messages := messages d ++ [{|
    m_id := messages_seq d + 1;
    m_timestamp := now;
    m_role := role;
    m_content := content;
    m_user_id := user_id;
    m_message_id := message_id;
    m_metadata := match metadata with
                  | Some ((_ :: _) as m) => m
                  | _ => []
                  end |}];
  messages_seq := messages_seq d + 1;
  actions := actions d; actions_seq := actions_seq d;
  state := state d;
  tasks := tasks d; tasks_seq := tasks_seq d;
  knowledge := knowledge d; knowledge_seq := knowledge_seq d
|}.

(** [get_recent_messages(limit)] *)
Definition get_recent_messages (n : Z) (d : db) : list message_view :=
  map view (rev (limit n (order_by_desc m_id (messages d)))).

(** [get_message_count()] *)
Definition get_message_count (d : db) : Z := Z.of_nat (length (messages d)).

(** *** Actions *)

(** [store_action(action_type, parameters, result, success, thought,
    response)] *)
Definition store_action (action_type : str) (parameters : dict) (result : str)
    (success : bool) (thought response : str) (now : str) (d : db) : db := {|
  messages := messages d; messages_seq := messages_seq d;
  actions := actions d ++ [{|
    a_id := actions_seq d + 1;
    a_timestamp := now;
    a_action_type := action_type;
    a_parameters := parameters;
    a_result := result;
    a_success := if success then 1 else 0;
    a_thought := thought;
    a_response := response |}];
  actions_seq := actions_seq d + 1;
  state := state d;
  tasks := tasks d; tasks_seq := tasks_seq d;
  knowledge := knowledge d; knowledge_seq := knowledge_seq d
|}.

(** [get_recent_actions(limit)], whose rows hold every column but the
    key and the response. *)
Definition get_recent_actions (n : Z) (d : db) : list action_row :=
  rev (limit n (order_by_desc a_id (actions d))).

(** [get_action_count()] *)
Definition get_action_count (d : db) : Z := Z.of_nat (length (actions d)).

(** *** State *)

Definition with_state (rows : list state_row) (d : db) : db := {|
  messages := messages d; messages_seq := messages_seq d;
  actions := actions d; actions_seq := actions_seq d;
  state := rows;
  tasks := tasks d; tasks_seq := tasks_seq d;
  knowledge := knowledge d; knowledge_seq := knowledge_seq d
|}.

(** [INSERT ... ON CONFLICT(key) DO UPDATE SET value, updated_at]: the
    row of the key is updated where it is; a new key gets a new row. *)
Definition upsert_state (key value now : str) (rows : list state_row)
    : list state_row :=
  if existsb (fun r => str_eqb (s_key r) key) rows then
    map (fun r => if str_eqb (s_key r) key
                  then {| s_key := key; s_value := value; s_updated_at := now |}
                  else r) rows
  else rows ++ [{| s_key := key; s_value := value; s_updated_at := now |}].

(** [set_state(key, value)] *)
Definition set_state (key value : str) (now : str) (d : db) : db :=
  with_state (upsert_state key value now (state d)) d.

(** [get_state(key)] *)
Definition get_state (key : str) (d : db) : option str :=
  match fetchone (filter (fun r => str_eqb (s_key r) key) (state d)) with
  | Some row => Some (s_value row)
  | None => None
  end.

(** *** Tasks *)

Definition with_tasks (rows : list task_row) (seq : Z) (d : db) : db := {|
  messages := messages d; messages_seq := messages_seq d;
  actions := actions d; actions_seq := actions_seq d;
  state := state d;
  tasks := rows; tasks_seq := seq;
  knowledge := knowledge d; knowledge_seq := knowledge_seq d
|}.

(** [create_task(description, steps_total, metadata)]: the new database
    and the key of the task. *)
Definition create_task (description : str) (steps_total : Z)
    (metadata : option dict) (now : str) (d : db) : db * Z :=
  let task_id := (tasks_seq d + 1)%Z in
  (with_tasks (tasks d ++ [{|
     t_id := task_id;
     t_timestamp := now;
     t_description := description;
     t_status := lit "in_progress";
     t_steps_completed := 0;
     t_steps_total := steps_total;
     t_result := [];
     t_error := [];
     t_metadata := match metadata with
                   | Some ((_ :: _) as m) => m
                   | _ => []
                   end |}]) task_id d,
   task_id).

Definition or_old (A : Type) (new : option A) (old : A) : A :=
  match new with Some x => x | None => old end.

(** [update_task(task_id, status, steps_completed, result, error)]: the
    arguments that are not [None] are written to the row of the key. *)
Definition update_task (task_id : Z) (status : option str)
    (steps_completed : option Z) (result error : option str) (d : db) : db :=
  match status, steps_completed, result, error with
  | None, None, None, None => d
  | _, _, _, _ =>
      with_tasks
        (map (fun r =>
                if (t_id r =? task_id)%Z then {|
                  t_id := t_id r;
                  t_timestamp := t_timestamp r;
                  t_description := t_description r;
                  t_status := or_old status (t_status r);
                  t_steps_completed := or_old steps_completed (t_steps_completed r);
                  t_steps_total := t_steps_total r;
                  t_result := or_old result (t_result r);
                  t_error := or_old error (t_error r);
                  t_metadata := t_metadata r |}
                else r) (tasks d))
        (tasks_seq d) d
  end.

(** [get_active_tasks()], whose rows hold every column but the result,
    the error and the metadata. *)
Definition get_active_tasks (d : db) : list task_row :=
  limit 10 (order_by_desc t_id
              (filter (fun r => str_eqb (t_status r) (lit "in_progress")) (tasks d))).

(** *** Knowledge *)

Definition with_knowledge (rows : list knowledge_row) (seq : Z) (d : db) : db := {|
  messages := messages d; messages_seq := messages_seq d;
  actions := actions d; actions_seq := actions_seq d;
  state := state d;
  tasks := tasks d; tasks_seq := tasks_seq d;
  knowledge := rows; knowledge_seq := seq
|}.

(** The [WHERE category = ? AND key = ?] of [store_knowledge]. *)
Definition same_fact (category key : str) (r : knowledge_row) : bool :=
  str_eqb (k_category r) category && str_eqb (k_key r) key.

(** [store_knowledge(category, key, value, confidence, source)] *)
Definition store_knowledge (category key value : str) (confidence : Q)
    (source : str) (now : str) (d : db) : db :=
  match fetchone (filter (same_fact category key) (knowledge d)) with
  | Some existing =>
      with_knowledge
        (map (fun r =>
                if (k_id r =? k_id existing)%Z then {|
                  k_id := k_id r;
                  k_timestamp := now;
                  k_category := k_category r;
                  k_key := k_key r;
                  k_value := value;
                  k_confidence := confidence;
                  k_source := source |}
                else r) (knowledge d))
        (knowledge_seq d) d
  | None =>
      with_knowledge
        (knowledge d ++ [{|
           k_id := knowledge_seq d + 1;
           k_timestamp := now;
           k_category := category;
           k_key := key;
           k_value := value;
           k_confidence := confidence;
           k_source := source |}])
        (knowledge_seq d + 1) d
  end.

(** *** Maintenance *)

(** [clear_memory()], on the tables modelled. *)
Definition clear_memory (d : db) : db := {|
  messages := []; messages_seq := messages_seq d;
  actions := []; actions_seq := actions_seq d;
  state := [];
  tasks := []; tasks_seq := tasks_seq d;
  knowledge := []; knowledge_seq := knowledge_seq d
|}.

(** *** Runs *)

(** A call of a method that writes. *)
Inductive op : Type :=
| StoreMessage (role content : str) (user_id message_id : option Z)
    (metadata : option dict) (now : str)
| StoreAction (action_type : str) (parameters : dict) (result : str)
    (success : bool) (thought response : str) (now : str)
| SetState (key value : str) (now : str)
| CreateTask (description : str) (steps_total : Z) (metadata : option dict)
    (now : str)
| UpdateTask (task_id : Z) (status : option str) (steps_completed : option Z)
    (result error : option str)
| StoreKnowledge (category key value : str) (confidence : Q) (source : str)
    (now : str)
| ClearMemory.

Definition apply (d : db) (o : op) : db :=
  match o with
  | StoreMessage role content user_id message_id metadata now =>
      store_message role content user_id message_id metadata now d
  | StoreAction action_type parameters result success thought response now =>
      store_action action_type parameters result success thought response now d
  | SetState key value now => set_state key value now d
  | CreateTask description steps_total metadata now =>
      fst (create_task description steps_total metadata now d)
  | UpdateTask task_id status steps_completed result error =>
      update_task task_id status steps_completed result error d
  | StoreKnowledge category key value confidence source now =>
      store_knowledge category key value confidence source now d
  | ClearMemory => clear_memory d
  end.

(** The database after a sequence of calls on a new file. *)
Definition run (ops : list op) : db := fold_left apply ops empty.

End Memory.

(** ** cognition_loop.py and watchdog.py

    The two background loops act on the store of [Memory] and read the
    clock.  A world is the store together with the number of readings of
    the clock made so far for a text that goes to the store; [clock n] is
    the text of the reading numbered [n].  What is only logged is left
    out; so is the sleep between two turns of a loop. *)

Module World.
Import Memory.

Record world : Type := {
  readings : nat;
  store : db
}.

Section Clock.

Variable clock : nat -> str.

(** [datetime.utcnow().isoformat()] *)
Definition utcnow (w : world) : str * world :=
  (clock (readings w), {| readings := S (readings w); store := store w |}).

(** A method of the store that reads the clock once. *)
Definition timed (method : str -> db -> db) (w : world) : world :=
  let (now, w) := utcnow w in
  {| readings := readings w; store := method now (store w) |}.

End Clock.

End World.

Module Cognition.
Import Memory World.

(** The fields of a [CognitionLoop] besides its store and its task. *)
Record CognitionLoop : Type := {
  _running : bool;
  _tick_count : Z
}.

(** The loop as [__init__] leaves it. *)
Definition new_loop : CognitionLoop := {| _running := false; _tick_count := 0 |}.

Definition is_running (c : CognitionLoop) : bool := _running c.

(** [start()]: nothing when the loop is running. *)
Definition start (c : CognitionLoop) : CognitionLoop :=
  if _running c then c
  else {| _running := true; _tick_count := _tick_count c |}.

(** [stop()] *)
Definition stop (c : CognitionLoop) : CognitionLoop :=
  {| _running := false; _tick_count := _tick_count c |}.

(** What the machine answers to [_check_system_health]: the two texts of
    the disk usage, formatted, or nothing when reading it raised; and the
    text of the size of the database, or nothing likewise. *)
Record health : Type := {
  disk : option (str * str);
  db_size_mb : option str
}.

Section Tick.

Variable clock : nat -> str.

(** [_check_system_health()] *)
Definition _check_system_health (h : health) (w : world) : world :=
  let w :=
    match disk h with
    | Some (disk_pct, disk_free) =>
        timed clock (set_state (lit "disk_free_gb") disk_free)
          (timed clock (set_state (lit "disk_used_pct") disk_pct) w)
    | None => w
    end in
  match db_size_mb h with
  | Some size => timed clock (set_state (lit "db_size_mb") size) w
  | None => w
  end.

(** [_tick()] *)
Definition _tick (h : health) (c : CognitionLoop) (w : world) : world :=
  let (now, w) := utcnow clock w in
  let w := timed clock (set_state (lit "last_heartbeat") now) w in
  let w := timed clock (set_state (lit "tick_count") (int_text (_tick_count c))) w in
  let msg_count := get_message_count (store w) in
  let action_count := get_action_count (store w) in
  let w := timed clock (set_state (lit "total_messages") (int_text msg_count)) w in
  let w := timed clock (set_state (lit "total_actions") (int_text action_count)) w in
  if (_tick_count c mod 5 =? 0)%Z then _check_system_health h w else w.

(** One turn of [_loop] in which the tick does not raise. *)
Definition loop_turn (h : health) (c : CognitionLoop) (w : world)
    : CognitionLoop * world :=
  ({| _running := _running c; _tick_count := _tick_count c + 1 |}, _tick h c w).

End Tick.

End Cognition.

Module Watchdog.
Import Memory World Cognition.

(** The field of a [Watchdog] that [_check_health] reads and writes. *)
Record Watchdog : Type := {
  _restart_count : Z
}.

(** The watchdog as [__init__] leaves it. *)
Definition new_watchdog : Watchdog := {| _restart_count := 0 |}.

Section CheckHealth.

Variable settings : Settings.
Variable clock : nat -> str.

(** The first part of [_check_health]: a loop that is not running is
    started again, unless the limit is reached. *)
Definition restart (g : Watchdog) (c : CognitionLoop) (w : world)
    : Watchdog * CognitionLoop * world :=
  if negb (is_running c) then
    if (_restart_count g <? MAX_RESTART_ATTEMPTS settings)%Z then
      ({| _restart_count := _restart_count g + 1 |},
       start c,
       timed clock
         (store_action (lit "watchdog_restart")
            [(lit "component", JStr (lit "cognition_loop"))]
            (lit "Restarted successfully") true [] []) w)
    else (g, c, w)
  else (g, c, w).

(** [_check_health()].  [age_raises] tells whether comparing the age of
    the heartbeat raises an exception other than the [ValueError] that
    the method catches; it does not for a heartbeat written by [_tick].
    Such an exception ends the method, and [_monitor] logs it. *)
Definition _check_health (age_raises : bool) (g : Watchdog) (c : CognitionLoop)
    (w : world) : Watchdog * CognitionLoop * world :=
  let '(g, c, w) := restart g c w in
  if age_raises then (g, c, w)
  else
    let (now, w) := utcnow clock w in
    let w := timed clock (set_state (lit "watchdog_last_check") now) w in
    let w := timed clock
               (set_state (lit "watchdog_restart_count")
                  (int_text (_restart_count g))) w in
    (g, c, w).

(** What happens to the two loops: a turn of [_monitor], a turn of the
    cognition loop, or a call of [stop] or of [start] on the cognition
    loop from outside. *)
Inductive happening : Type :=
| Check (age_raises : bool)
| Tick (h : health)
| Stopped
| Started.

Definition happen (s : Watchdog * CognitionLoop * world) (e : happening)
    : Watchdog * CognitionLoop * world :=
  let '(g, c, w) := s in
  match e with
  | Check age_raises => _check_health age_raises g c w
  | Tick h =>
      if is_running c then let (c, w) := loop_turn clock h c w in (g, c, w)
      else (g, c, w)
  | Stopped => (g, stop c, w)
  | Started => (g, start c, w)
  end.

Definition happenings (es : list happening) (s : Watchdog * CognitionLoop * world)
    : Watchdog * CognitionLoop * world :=
  fold_left happen es s.

End CheckHealth.

End Watchdog.

(** ** tools.py: commands and files *)

Module ToolFuns.
Import Tools.

(** A [ToolResult] whose paths are left at their default. *)
Definition result (success : bool) (stdout stderr : str) (return_code : Z)
    : ToolResult := {|
  success := success;
  stdout := stdout;
  stderr := stderr;
  return_code := return_code;
  image_path := [];
  file_path := []
|}.

(** [if len(s) > max_len: s = s[:max_len] + marker] *)
Definition truncated (max_len : Z) (marker : str) (s : str) : str :=
  if (len s >? max_len)%Z then slice_to s max_len ++ marker else s.

Definition OUTPUT_TRUNCATED : str := NL :: lit "... [output truncated]".
Definition FILE_TRUNCATED : str := NL :: lit "... [file truncated]".

(** What running a command in a shell gives: the process ends, with what
    it wrote as decoded from UTF-8 and with its return code; or it does
    not end within [CMD_TIMEOUT]; or starting it or talking to it
    raises. *)
Inductive process : Type :=
| Exited (stdout stderr : str) (returncode : Z)
| TimedOut
| Failed (e : str).

Section Commands.

Variable settings : Settings.
Variable shell : str -> process.

(** [execute_cmd(command)] *)
Definition execute_cmd (command : str) : ToolResult :=
  match shell command with
  | TimedOut =>
      result false []
        (lit "Command timed out after " ++ int_text (CMD_TIMEOUT settings)
         ++ lit " seconds.") (-1)
  | Exited stdout_bytes stderr_bytes returncode =>
      let stdout := strip stdout_bytes in
      let stderr := strip stderr_bytes in
      let success := (returncode =? 0)%Z in
      let max_len := 8000%Z in
      result success (truncated max_len OUTPUT_TRUNCATED stdout)
        (truncated max_len OUTPUT_TRUNCATED stderr) returncode
  | Failed e => result false [] e (-1)
  end.

(** [execute_powershell(script)] *)
Definition execute_powershell (script : str) : ToolResult :=
  execute_cmd (litq "powershell.exe -NoProfile -ExecutionPolicy Bypass -Command '"
               ++ script ++ [QUOTE]).

End Commands.

(** What opening and reading a file gives: its text, decoded and with its
    line ends translated to a newline, or an exception. *)
Inductive opened : Type :=
| Opened (content : str)
| OpenFailed (e : str).

(** [f.readlines()] on the text of the file: the lines, each with its
    newline; [cur] is the line being read, last character first. *)
Fixpoint readlines_from (cur : str) (s : str) : list str :=
  match s with
  | [] => match cur with [] => [] | _ :: _ => [rev cur] end
  | c :: r =>
      if (c =? NL)%N then rev (c :: cur) :: readlines_from [] r
      else readlines_from (c :: cur) r
  end.

Definition readlines (s : str) : list str := readlines_from [] s.

(** The bound of a slice as Python reads it, for a sequence of [n]
    items. *)
Definition slice_index (n : nat) (i : Z) : nat :=
  if (i <? 0)%Z then Z.to_nat (Z.max 0 (Z.of_nat n + i))
  else Z.to_nat (Z.min i (Z.of_nat n)).

(** [l[s:e]] *)
Definition py_slice (A : Type) (l : list A) (s e : Z) : list A :=
  let lo := slice_index (length l) s in
  let hi := slice_index (length l) e in
  firstn (hi - lo) (skipn lo l).

(** [x or d] for an optional integer. *)
Definition int_or (x : option Z) (d : Z) : Z :=
  match x with
  | None => d
  | Some v => if (v =? 0)%Z then d else v
  end.

Section Files.

Variable open : str -> opened.

(** [read_file(path, start_line, end_line)] *)
Definition read_file (path : str) (start_line end_line : option Z) : ToolResult :=
  match open path with
  | OpenFailed e => failure e
  | Opened text =>
      let content :=
        match start_line, end_line with
        | None, None => text
        | _, _ =>
            let lines := readlines text in
            let s := (int_or start_line 1 - 1)%Z in
            let e := int_or end_line (Z.of_nat (length lines)) in
            concat (py_slice lines s e)
        end in
      result true (truncated 10000 FILE_TRUNCATED content) [] 0
  end.

End Files.

End ToolFuns.

(** ** brain.py: the messages that think assembles from the store *)

Module Prompt.
Import Brain Memory.

(** A row of [get_recent_summaries]. *)
Record summary_view : Type := {
  sv_summary : str;
  sv_topics : str;
  sv_timestamp : str
}.

(** The dict that [get_context_bundle] returns. *)
Record bundle : Type := {
  b_messages : list message_view;
  b_actions : list action_row;
  b_knowledge : list knowledge_row;
  b_active_tasks : list task_row;
  b_summaries : list summary_view
}.

(** [get_context_bundle()].  The rows of [get_knowledge(limit=15)] and of
    [get_recent_summaries(limit=3)] are arguments: the order of the first
    is by a time that may have ties, and the table of the second is not
    modelled. *)
Definition get_context_bundle (settings : Settings)
    (knowledge : list knowledge_row) (summaries : list summary_view) (d : db)
    : bundle := {|
  b_messages := get_recent_messages (MAX_CONTEXT_MESSAGES settings) d;
  b_actions := get_recent_actions 8 d;
  b_knowledge := knowledge;
  b_active_tasks := get_active_tasks d;
  b_summaries := summaries
|}.

(** The role under which a message of the history is sent. *)
Definition known_role (role : str) : str :=
  if str_eqb role (lit "user") || str_eqb role (lit "assistant")
     || str_eqb role (lit "system")
  then role else lit "user".

(** The line of one action. *)
Definition action_line (act : action_row) : str :=
  lit "  " ++ (if negb (a_success act =? 0)%Z then [9989%N] else [10060%N])
  ++ [SP] ++ a_action_type act ++ lit " ["
  ++ slice_to (a_timestamp act) 19 ++ lit "]" ++ [NL].

(** The text about the last five actions. *)
Definition actions_summary (recent_actions : list action_row) : str :=
  fold_left (fun summary act => summary ++ action_line act)
    (ToolFuns.py_slice recent_actions (-5) (Z.of_nat (length recent_actions)))
    (lit "Recent tool executions:" ++ [NL]).

(** The messages that [think] puts before the message of the user, for
    the text [system_prompt] that [_build_system_prompt] returns; no
    caller passes a [chain_context]. *)
Definition context_of (system_prompt : str) (b : bundle) : list message :=
  [{| role := lit "system"; content := system_prompt |}]
  ++ map (fun msg => {| role := known_role (v_role msg);
                        content := v_content msg |}) (b_messages b)
  ++ match b_actions b with
     | [] => []
     | _ :: _ => [{| role := lit "system";
                     content := actions_summary (b_actions b) |}]
     end.

End Prompt.

(** * The notions of the properties *)

Module Notions.
Import Brain Chain.

(** [p] occurs in [s]. *)
Definition occurs (p s : str) : Prop := exists pre post, s = pre ++ p ++ post.



(** The five keys of a decision are all in the dict. *)
Definition complete (d : dict) : bool :=
  forallb (fun k => dict_has k d) decision_keys.

(** The five keys are in the dict, each with a value of the type of its
    field. *)
Definition well_typed (d : dict) : bool :=
  match dict_lookup K_thought d, dict_lookup K_action d,
        dict_lookup K_parameters d, dict_lookup K_response d,
        dict_lookup K_continue d with
  | Some (JStr _), Some (JStr _), Some (JObj _), Some (JStr _), Some (JBool _) =>
      true
  | _, _, _, _, _ => false
  end.

(** The value [think] puts under a key that is missing. *)
Definition default_of (k : str) : option json :=
  if str_eqb k K_thought then Some (JStr [])
  else if str_eqb k K_action then Some (JStr (lit "none"))
  else if str_eqb k K_parameters then Some (JObj [])
  else if str_eqb k K_response then Some (JStr (lit "I processed your request."))
  else if str_eqb k K_continue then Some (JBool false)
  else None.

(** The two shapes of what [think] returns: a dict literal of the method,
    or the dict the model's text was parsed to, with its missing keys
    filled. *)
Definition shaped (llm : nat -> request -> completion) (d : dict) : Prop :=
  (exists thought response, d = reply thought response) \/
  (exists n call raw decision,
     llm n call = Completed raw /\ _extract_json raw = JObj decision /\
     d = fill_defaults decision).

(** The attempts [from], [from + 1], ... of [n] turns of the loop of
    [think]. *)
Fixpoint attempts (from : Z) (n : nat) : list Z :=
  match n with
  | O => []
  | S m => from :: attempts (from + 1) m
  end.

(** The call of the model that attempt [k] makes. *)
Definition call_at (cfg : Config) (msgs : list message) (base : Q) (k : Z)
    : request := {|
  messages := msgs ++ extra_messages k;
  temperature := current_temp base k;
  max_tokens := MAX_TOKENS cfg
|}.

(** The steps recorded when a run of the chain ends. *)
Definition recorded (e : chain_end) : list ChainStep :=
  match e with
  | Returned _ c => c
  | Failed _ c => c
  end.

(** The invariant of the loop of the chain: every step taken is recorded,
    and the counter is within the bound. *)
Definition inv (cfg : Config) (st : state) : Prop :=
  (Z.of_nat (length (chain_context st)) = step st /\
   0 <= step st <= Z.max 0 (MAX_CHAIN_STEPS cfg))%Z.


End Notions.

(** * Sample inputs *)

Module Samples.
Import Brain.

(** A tool function that rejects its keyword arguments. *)
Definition rejecting : Tools.handlers :=
  fun _ _ => Tools.RaisesTypeError (lit "got an unexpected keyword argument").

(** A tool that fails every time. *)
Definition failing_tools : nat -> Tools.handlers :=
  fun _ _ _ => Tools.Returns (Tools.failure (lit "no")).

(** A model that asks for one more step after every step. *)
Definition always_more : nat -> completion :=
  fun _ => Completed (litq "{'action': 'wait', 'response': 'again', 'continue': true}").

(** A model that writes its flag as a text and leaves the parameters
    null. *)
Definition loose_model : nat -> request -> completion :=
  fun _ _ => Completed
    (litq "{'response': 'ok', 'parameters': null, 'continue': 'false'}").

(** A model that answers in prose. *)
Definition prose_model : nat -> request -> completion :=
  fun _ _ => Completed (lit "I am not sure what you mean.").

(** The shipped configuration with the precise temperature at 0. *)
Definition cold_config : Config := {|
  MAX_CHAIN_STEPS := 10;
  MAX_RETRIES := 3;
  CREATIVE_TEMPERATURE := 7 # 10;
  PRECISE_TEMPERATURE := 0;
  MAX_TOKENS := 4096
|}.




End Samples.

(** * More notions of the properties *)

Module MoreNotions.
Import Brain Chain.

(** A text that does not begin with a newline. *)
Definition no_leading_newline (c : str) : Prop :=
  match c with
  | x :: _ => x <> NL
  | [] => False
  end.





(** An answer of the model from which [think] gets no decision: an
    error of the service, or a text from which no dict is extracted. *)
Definition unusable (c : completion) : Prop :=
  match c with
  | ServiceError _ => True
  | Completed raw =>
      match _extract_json raw with
      | JObj _ => False
      | _ => True
      end
  end.


(** The calls that [safe_reply] makes for one chunk, and [safe_edit] for
    its text: one call, and a second one without parse mode when the
    first raised. *)
Definition reply_attempts (chunk : str) (evs : list Handler.event) : Prop :=
  evs = [Handler.Reply chunk false] \/
  evs = [Handler.Reply chunk false; Handler.Reply chunk true].




End MoreNotions.

(** * Notions of the tools *)

Module ToolNotions.

(** A text that neither begins nor ends with whitespace. *)
Definition trimmed (s : str) : Prop :=
  match s with [] => True | c :: _ => isspace c = false end /\
  match rev s with [] => True | c :: _ => isspace c = false end.

(** A line of a text file: it holds no newline but at its end, and it
    has one there unless it is the last line. *)
Definition is_line (last : bool) (l : str) : Prop :=
  exists body, ~ In NL body /\
    (l = body ++ [NL] \/ (last = true /\ l = body /\ body <> [])).

End ToolNotions.

(** * Notions of the store *)

Module StoreNotions.
Import Memory.

(** The keys of the rows increase along the table, from above [lo]. *)
Fixpoint ascending (A : Type) (key : A -> Z) (lo : Z) (l : list A) : Prop :=
  match l with
  | [] => True
  | x :: r => (lo < key x)%Z /\ ascending key (key x) r
  end.

(** A table whose keys were given by its counter. *)
Definition keyed (A : Type) (key : A -> Z) (seq : Z) (l : list A) : Prop :=
  (0 <= seq)%Z /\ ascending key 0 l /\ Forall (fun x => (key x <= seq)%Z) l.

(** No two rows of the table are about the same fact. *)
Definition one_row_per_fact (rows : list knowledge_row) : Prop :=
  forall category key,
    (length (filter (same_fact category key) rows) <= 1)%nat.

(** What holds of every database that the methods build. *)
Definition consistent (d : db) : Prop :=
  keyed m_id (messages_seq d) (messages d) /\
  keyed a_id (actions_seq d) (actions d) /\
  keyed t_id (tasks_seq d) (tasks d) /\
  keyed k_id (knowledge_seq d) (knowledge d) /\
  one_row_per_fact (knowledge d).

(** The rows that the watchdog stores. *)
Definition restart_row (r : action_row) : Prop :=
  a_action_type r = lit "watchdog_restart" /\ a_success r = 1%Z.

End StoreNotions.

(** * More sample inputs *)

Module MoreSamples.
Import Brain.

(** A model that decides to wait and to go on. *)
Definition waiting_model : nat -> request -> completion :=
  fun _ _ => Completed
    (litq "{'action': 'wait', 'parameters': {'seconds': 1}, 'response': 'Waiting.', 'continue': true}").

(** A model that asks for one more step after the first step, and then
    concludes. *)
Definition two_steps : nat -> completion :=
  fun n =>
    if (n =? 1)%nat
    then Completed (litq "{'action': 'wait', 'response': 'again', 'continue': true}")
    else Completed (litq "{'response': 'All done.'}").

(** A tool that succeeds at the first call and fails afterwards. *)
Definition tiring_tools : nat -> Tools.handlers :=
  fun n _ _ =>
    if (n =? 1)%nat then
      Tools.Returns {| Tools.success := true; Tools.stdout := lit "ok";
                       Tools.stderr := []; Tools.return_code := 0;
                       Tools.image_path := []; Tools.file_path := [] |}
    else Tools.Returns (Tools.failure (lit "no")).

(** The shipped settings, with the user 7 as the operator. *)
Definition owner : Settings := {|
  AUTHORIZED_USER_ID := 7;
  COGNITION_INTERVAL_SECONDS := 60;
  MAX_CONTEXT_MESSAGES := 50;
  WATCHDOG_CHECK_INTERVAL := 30;
  MAX_RESTART_ATTEMPTS := 5;
  CMD_TIMEOUT := 180
|}.

(** A bundle whose history holds a message stored under the role of a
    tool. *)
Definition odd_bundle : Prompt.bundle := {|
  Prompt.b_messages :=
    [{| Memory.v_role := lit "tool"; Memory.v_content := lit "42";
        Memory.v_timestamp := lit "2026-01-01T00:00:00" |}];
  Prompt.b_actions := [];
  Prompt.b_knowledge := [];
  Prompt.b_active_tasks := [];
  Prompt.b_summaries := []
|}.

End MoreSamples.

(** * Properties *)

Import Notions Samples.

(** ** Strings *)

Lemma rfind_range (c : char) (s : str) :
  (rfind c s = -1 \/ 0 <= rfind c s < len s)%Z.
Proof.
  unfold len. induction s as [|x r IH]; cbn [rfind length].
  - now left.
  - destruct (0 <=? rfind c r)%Z eqn:E.
    + right. apply Z.leb_le in E. lia.
    + destruct ((x =? c)%N); [right; lia | now left].
Qed.

Lemma rfind_nth (c : char) (s : str) :
  (0 <= rfind c s)%Z -> nth_error s (Z.to_nat (rfind c s)) = Some c.
Proof.
  induction s as [|x r IH]; cbn [rfind]; [lia|].
  destruct (0 <=? rfind c r)%Z eqn:E.
  - intros _. apply Z.leb_le in E.
    replace (Z.to_nat (rfind c r + 1)) with (S (Z.to_nat (rfind c r))) by lia.
    now apply IH.
  - destruct ((x =? c)%N) eqn:Ex; [|lia].
    apply N.eqb_eq in Ex. now subst.
Qed.

Lemma lstrip_char_spec (c : char) (s : str) :
  exists n, s = repeat c n ++ lstrip_char c s.
Proof.
  induction s as [|x r [n IH]]; [now exists 0%nat|].
  cbn [lstrip_char]. destruct ((x =? c)%N) eqn:E.
  - apply N.eqb_eq in E. subst x. exists (S n). cbn. now f_equal.
  - now exists 0%nat.
Qed.

Lemma lstrip_char_length (c : char) (s : str) :
  (length (lstrip_char c s) <= length s)%nat.
Proof.
  destruct (lstrip_char_spec c s) as [n E].
  rewrite E at 2. rewrite length_app. lia.
Qed.

Lemma str_eqb_eq (a b : str) : str_eqb a b = true <-> a = b.
Proof.
  revert b. induction a as [|x a IH]; intros [|y b]; cbn; try easy.
  rewrite andb_true_iff, N.eqb_eq, IH. split.
  - now intros [-> ->].
  - intros H. now injection H.
Qed.

Lemma str_eqb_refl (a : str) : str_eqb a a = true.
Proof. now apply str_eqb_eq. Qed.

Lemma str_eqb_neq (a b : str) : str_eqb a b = false <-> a <> b.
Proof.
  rewrite <- str_eqb_eq. destruct (str_eqb a b); split; congruence.
Qed.

Lemma strip_prefix_Some (p s r : str) :
  strip_prefix p s = Some r <-> s = p ++ r.
Proof.
  revert s. induction p as [|x p IH]; intros s; cbn.
  - split; congruence.
  - destruct s as [|y s]; [split; discriminate|].
    destruct (N.eqb_spec x y) as [->|Hne].
    + rewrite IH. split; intros H; [now subst | now injection H].
    + split; [discriminate|]. intros H. injection H as H _. congruence.
Qed.


Lemma startswith_head (x p0 : char) (r p : str) :
  startswith (x :: r) (p0 :: p) = true -> x = p0.
Proof.
  unfold startswith. cbn [strip_prefix].
  destruct (N.eqb_spec p0 x) as [->|]; [reflexivity | discriminate].
Qed.

Lemma find_after_Some (p s r : str) (i j : nat) :
  find_after p s i = Some (j, r) ->
  exists pre, s = pre ++ p ++ r /\ j = (i + length pre)%nat.
Proof.
  revert i. induction s as [|c s IH]; intros i; cbn [find_after].
  - destruct (strip_prefix p []) eqn:E; [|discriminate].
    intros H. injection H as <- <-. apply strip_prefix_Some in E.
    exists []. cbn. split; [assumption | lia].
  - destruct (strip_prefix p (c :: s)) eqn:E.
    + intros H. injection H as <- <-. apply strip_prefix_Some in E.
      exists []. cbn. split; [assumption | lia].
    + intros H. apply IH in H. destruct H as (pre & -> & ->).
      exists (c :: pre). cbn. split; [reflexivity | lia].
Qed.

Lemma find_after_None (p s : str) (i : nat) :
  find_after p s i = None <-> ~ occurs p s.
Proof.
  revert i. induction s as [|c s IH]; intros i; cbn [find_after].
  - destruct (strip_prefix p []) as [l|] eqn:E.
    + split; [discriminate|]. intros H. exfalso. apply H.
      apply strip_prefix_Some in E. now exists [], l.
    + split; [|reflexivity]. intros _ (pre & post & H).
      destruct pre; [|discriminate].
      cbn in H. apply strip_prefix_Some in H. congruence.
  - destruct (strip_prefix p (c :: s)) as [l|] eqn:E.
    + split; [discriminate|]. intros H. exfalso. apply H.
      apply strip_prefix_Some in E. now exists [], l.
    + rewrite IH. split; intros H (pre & post & Heq); apply H.
      * destruct pre as [|x pre].
        -- cbn in Heq. apply strip_prefix_Some in Heq. congruence.
        -- injection Heq as _ ->. now exists pre, post.
      * exists (c :: pre), post. cbn. now f_equal.
Qed.

Lemma contains_occurs (p s : str) : contains p s = true <-> occurs p s.
Proof.
  unfold contains. destruct (find_after p s 0) as [[j r]|] eqn:E.
  - split; [|reflexivity]. intros _.
    apply find_after_Some in E. destruct E as (pre & -> & _).
    now exists pre, r.
  - apply find_after_None in E. split; [discriminate | contradiction].
Qed.





(** *** Whitespace *)


Lemma lstrip_head (s : str) (c : char) (r : str) :
  lstrip s = c :: r -> isspace c = false.
Proof.
  induction s as [|x s IH]; cbn [lstrip]; [discriminate|].
  destruct (isspace x) eqn:E; [assumption|].
  intros H. injection H as <- _. assumption.
Qed.



Lemma lstrip_app_nonspace (l : str) (c : char) (r : str) :
  isspace c = false -> lstrip (l ++ c :: r) = lstrip l ++ c :: r.
Proof.
  intros Hc. induction l as [|x l IH]; cbn.
  - now rewrite Hc.
  - destruct (isspace x); [assumption | reflexivity].
Qed.


Lemma rstrip_app_nonspace (l : str) (c : char) (r : str) :
  isspace c = false -> rstrip (l ++ c :: r) = l ++ c :: rstrip r.
Proof.
  intros Hc. unfold rstrip.
  rewrite rev_app_distr. cbn [rev]. rewrite <- app_assoc. cbn [app].
  rewrite lstrip_app_nonspace by assumption.
  rewrite rev_app_distr. cbn [rev]. rewrite rev_involutive.
  now rewrite <- app_assoc.
Qed.





(** ** Dicts *)



Lemma dict_lookup_app (k : str) (d d' : dict) :
  dict_lookup k (d ++ d') =
  match dict_lookup k d with
  | Some v => Some v
  | None => dict_lookup k d'
  end.
Proof.
  induction d as [|[k0 v0] d IH]; cbn; [reflexivity|].
  now destruct (str_eqb k k0).
Qed.

(** What [setdefault] leaves under each key. *)
Lemma dict_lookup_setdefault (k k' : str) (v : json) (d : dict) :
  dict_lookup k (setdefault k' v d) =
  match dict_lookup k d with
  | Some x => Some x
  | None => if str_eqb k k' then Some v else None
  end.
Proof.
  unfold setdefault, dict_has.
  destruct (dict_lookup k' d) as [x'|] eqn:E'.
  - destruct (dict_lookup k d) as [x|] eqn:E; [reflexivity|].
    destruct (str_eqb k k') eqn:Ek; [|reflexivity].
    apply str_eqb_eq in Ek. congruence.
  - rewrite dict_lookup_app. cbn. now destruct (dict_lookup k d).
Qed.

(** ** json.loads: the fuel is enough *)

Module JsonFacts.
Import Json.

Lemma skip_ws_length (s : str) : (length (skip_ws s) <= length s)%nat.
Proof.
  induction s as [|c r IH]; cbn; [lia|].
  destruct (is_json_ws c); cbn; lia.
Qed.

Lemma span_digits_length (s : str) :
  (length (snd (span_digits s)) <= length s)%nat.
Proof.
  induction s as [|c r IH]; cbn; [lia|].
  destruct (is_digit c); [|cbn; lia].
  destruct (span_digits r) as [d r']. cbn in *. lia.
Qed.

Lemma strip_prefix_length (p s r : str) :
  strip_prefix p s = Some r -> length s = (length p + length r)%nat.
Proof.
  intros H. apply strip_prefix_Some in H. subst s. apply length_app.
Qed.

Lemma keyword_rest (k : string) (v v' : json) (s rest : str) :
  k <> EmptyString ->
  keyword k v s = Some (v', rest) -> (length rest < length s)%nat.
Proof.
  unfold keyword. intros Hk.
  destruct (strip_prefix (lit k) s) as [r|] eqn:E; [|discriminate].
  intros H. injection H as _ <-. apply strip_prefix_length in E.
  destruct k; [contradiction|]. cbn in E. lia.
Qed.

(** What a string leaves is shorter than what it was read from. *)
Lemma scanstring_rest (n : nat) :
  forall (s acc x rest : str), (length s <= n)%nat ->
    scanstring s acc = Scanned x rest -> (length rest < length s)%nat.
Proof.
  induction n as [|n IH]; intros s acc x rest Hn.
  - destruct s; [discriminate | cbn in Hn; lia].
  - destruct s as [|c r]; [discriminate|]. cbn [scanstring].
    destruct (c =? QUOTE)%N.
    { intros H. injection H as _ <-. cbn. lia. }
    destruct (c =? BACKSLASH)%N.
    + destruct r as [|e r1]; [discriminate|].
      destruct (e =? ch "u")%N.
      * destruct r1 as [|h1 [|h2 [|h3 [|h4 r2]]]]; try discriminate.
        destruct (hexval4 h1 h2 h3 h4) as [uni|]; [|discriminate].
        assert (Hr2 : forall a, scanstring r2 a = Scanned x rest ->
                      (length rest < length (c :: e :: h1 :: h2 :: h3 :: h4 :: r2))%nat).
        { intros a H. apply IH in H; cbn in *; lia. }
        destruct (is_high_surrogate uni); [|apply Hr2].
        destruct r2 as [|b [|u [|g1 [|g2 [|g3 [|g4 r3]]]]]]; try apply Hr2.
        destruct ((b =? BACKSLASH) && (u =? ch "u"))%N; [|apply Hr2].
        destruct (hexval4 g1 g2 g3 g4) as [uni2|]; [|discriminate].
        destruct (is_low_surrogate uni2); [|apply Hr2].
        intros H. apply IH in H; cbn in *; lia.
      * destruct (escape_char e); [|discriminate].
        intros H. apply IH in H; cbn in *; lia.
    + destruct (c <=? 31)%N; [discriminate|].
      intros H. apply IH in H; cbn in *; lia.
Qed.

Lemma scanstring_fuel (n : nat) :
  forall (s acc : str), (length s <= n)%nat -> scanstring s acc <> OutOfFuel.
Proof.
  induction n as [|n IH]; intros s acc Hn.
  - destruct s; [discriminate | cbn in Hn; lia].
  - destruct s as [|c r]; [discriminate|]. cbn [scanstring].
    destruct (c =? QUOTE)%N; [discriminate|].
    destruct (c =? BACKSLASH)%N.
    + destruct r as [|e r1]; [discriminate|].
      destruct (e =? ch "u")%N.
      * destruct r1 as [|h1 [|h2 [|h3 [|h4 r2]]]]; try discriminate.
        destruct (hexval4 h1 h2 h3 h4) as [uni|]; [|discriminate].
        assert (Hr2 : forall a, scanstring r2 a <> OutOfFuel).
        { intros a. apply IH. cbn in *. lia. }
        destruct (is_high_surrogate uni); [|apply Hr2].
        destruct r2 as [|b [|u [|g1 [|g2 [|g3 [|g4 r3]]]]]]; try apply Hr2.
        destruct ((b =? BACKSLASH) && (u =? ch "u"))%N; [|apply Hr2].
        destruct (hexval4 g1 g2 g3 g4) as [uni2|]; [|discriminate].
        destruct (is_low_surrogate uni2); [|apply Hr2].
        apply IH. cbn in *. lia.
      * destruct (escape_char e); [|discriminate].
        apply IH. cbn in *. lia.
    + destruct (c <=? 31)%N; [discriminate|].
      apply IH. cbn in *. lia.
Qed.

Lemma match_number_rest (s rest : str) (v : json) :
  match_number s = Some (v, rest) -> (length rest < length s)%nat.
Proof.
  unfold match_number.
  set (p := match s with
            | c :: r => if (c =? ch "-")%N then (true, r) else (false, s)
            | [] => (false, [])
            end).
  assert (Hp : (length (snd p) <= length s)%nat).
  { subst p. destruct s as [|c r]; [cbn; lia|].
    destruct (c =? ch "-")%N; cbn [snd length]; lia. }
  destruct p as [neg s0]. cbn [snd] in Hp.
  destruct s0 as [|c r]; [discriminate|].
  set (ip := if (c =? ch "0")%N then Some ([c], r)
             else if is_digit c then let (d, r') := span_digits r in Some (c :: d, r')
             else None).
  assert (Hip : forall d r1, ip = Some (d, r1) -> (length r1 <= length r)%nat).
  { subst ip. intros d r1. destruct (c =? ch "0")%N.
    - intros H. injection H as _ <-. lia.
    - destruct (is_digit c); [|discriminate].
      pose proof (span_digits_length r) as Hs.
      destruct (span_digits r) as [d' r']. intros H. injection H as _ <-.
      exact Hs. }
  destruct ip as [[d r1]|]; [|discriminate].
  specialize (Hip d r1 eq_refl).
  set (fr := match r1 with
             | c0 :: r0 =>
                 if (c0 =? ch ".")%N then
                   match span_digits r0 with
                   | ([], _) => ([], r1)
                   | (d0, r') => (c0 :: d0, r')
                   end
                 else ([], r1)
             | [] => ([], r1)
             end).
  assert (Hfr : (length (snd fr) <= length r1)%nat).
  { subst fr. destruct r1 as [|c0 r0]; [cbn; lia|].
    destruct (c0 =? ch ".")%N; [|cbn; lia].
    pose proof (span_digits_length r0) as Hs.
    destruct (span_digits r0) as [[|x d0] r']; cbn in *; lia. }
  destruct fr as [fp r2]. cbn [snd] in Hfr.
  set (er := match r2 with
             | c0 :: r0 =>
                 if ((c0 =? ch "e") || (c0 =? ch "E"))%N then
                   let (sign, r') :=
                     match r0 with
                     | g :: t => if ((g =? ch "-") || (g =? ch "+"))%N
                                 then ([g], t) else ([], r0)
                     | [] => ([], r0)
                     end in
                   match span_digits r' with
                   | ([], _) => ([], r2)
                   | (d0, r'') => (c0 :: sign ++ d0, r'')
                   end
                 else ([], r2)
             | [] => ([], r2)
             end).
  assert (Her : (length (snd er) <= length r2)%nat).
  { subst er. destruct r2 as [|c0 r0]; cbn [snd]; [lia|].
    destruct ((c0 =? ch "e") || (c0 =? ch "E"))%N; [|cbn; lia].
    set (sr := match r0 with
               | g :: t => if ((g =? ch "-") || (g =? ch "+"))%N
                           then ([g], t) else ([], r0)
               | [] => ([], r0)
               end).
    assert (Hsr : (length (snd sr) <= length r0)%nat).
    { subst sr. destruct r0 as [|g t]; [cbn; lia|].
      destruct ((g =? ch "-") || (g =? ch "+"))%N; cbn [snd length]; lia. }
    destruct sr as [sign r']. cbn [snd] in Hsr.
    pose proof (span_digits_length r') as Hs.
    destruct (span_digits r') as [[|x d0] r'']; cbn in *; lia. }
  destruct er as [ep r3]. cbn [snd] in Her.
  cbn [length] in *.
  destruct fp, ep; intros H; injection H as _ <-; lia.
Qed.

(** The fuel that is enough for a text: more than twice its length for a
    value and for the members of an object, and one more for the items of
    an array.  What a value leaves is shorter than the text. *)
Lemma fuel_enough (fuel : nat) :
  (forall s, (2 * length s < fuel)%nat ->
     scan_once fuel s <> OutOfFuel /\
     forall v rest, scan_once fuel s = Scanned v rest ->
                    (length rest < length s)%nat) /\
  (forall s acc, (2 * length s < fuel)%nat ->
     parse_members fuel s acc <> OutOfFuel /\
     forall v rest, parse_members fuel s acc = Scanned v rest ->
                    (length rest < length s)%nat) /\
  (forall s acc, (2 * length s + 1 < fuel)%nat ->
     parse_items fuel s acc <> OutOfFuel /\
     forall v rest, parse_items fuel s acc = Scanned v rest ->
                    (length rest < length s)%nat).
Proof.
  induction fuel as [|f (IHscan & IHmembers & IHitems)].
  { repeat split; intros; lia. }
  split; [|split].
  - (* scan_once *)
    intros s Hf. cbn [scan_once].
    destruct s as [|c r]; [split; [discriminate | intros ? ? H; discriminate H]|].
    cbn [length] in Hf.
    destruct (c =? QUOTE)%N.
    { destruct (scanstring r []) as [x rest| |] eqn:E.
      - split; [discriminate|]. intros v rest' H. injection H as _ <-.
        apply (scanstring_rest (n := length r)) in E; cbn; lia.
      - split; [discriminate | intros ? ? H; discriminate H].
      - exfalso. now apply (scanstring_fuel (n := length r)) in E. }
    destruct (c =? ch "{")%N.
    { pose proof (skip_ws_length r) as Hws.
      destruct (skip_ws r) as [|c' r']; [split; [discriminate | intros ? ? H; discriminate H]|].
      destruct (c' =? ch "}")%N.
      - split; [discriminate|]. intros v rest H. injection H as _ <-.
        cbn in *. lia.
      - destruct (IHmembers (c' :: r') []) as [Hno Hrest]; [cbn in *; lia|].
        split; [exact Hno|]. intros v rest H. apply Hrest in H. cbn in *. lia. }
    destruct (c =? ch "[")%N.
    { pose proof (skip_ws_length r) as Hws.
      destruct (skip_ws r) as [|c' r']; [split; [discriminate | intros ? ? H; discriminate H]|].
      destruct (c' =? ch "]")%N.
      - split; [discriminate|]. intros v rest H. injection H as _ <-.
        cbn in *. lia.
      - destruct (IHitems (c' :: r') []) as [Hno Hrest]; [cbn in *; lia|].
        split; [exact Hno|]. intros v rest H. apply Hrest in H. cbn in *. lia. }
    set (s := c :: r).
    assert (Hkw : forall k v0 v rest, k <> EmptyString ->
              keyword k v0 s = Some (v, rest) -> (length rest < length s)%nat).
    { intros k v0 v rest Hk H. eapply keyword_rest; eassumption. }
    destruct (keyword "null" JNull s) as [[v rest]|] eqn:E1.
    { split; [discriminate|]. intros v' rest' H. injection H as _ <-.
      eapply Hkw; [|exact E1]. discriminate. }
    destruct (keyword "true" (JBool true) s) as [[v rest]|] eqn:E2.
    { split; [discriminate|]. intros v' rest' H. injection H as _ <-.
      eapply Hkw; [|exact E2]. discriminate. }
    destruct (keyword "false" (JBool false) s) as [[v rest]|] eqn:E3.
    { split; [discriminate|]. intros v' rest' H. injection H as _ <-.
      eapply Hkw; [|exact E3]. discriminate. }
    destruct (keyword "NaN" (JFloat (lit "NaN")) s) as [[v rest]|] eqn:E4.
    { split; [discriminate|]. intros v' rest' H. injection H as _ <-.
      eapply Hkw; [|exact E4]. discriminate. }
    destruct (keyword "Infinity" (JFloat (lit "Infinity")) s) as [[v rest]|] eqn:E5.
    { split; [discriminate|]. intros v' rest' H. injection H as _ <-.
      eapply Hkw; [|exact E5]. discriminate. }
    destruct (keyword "-Infinity" (JFloat (lit "-Infinity")) s) as [[v rest]|] eqn:E6.
    { split; [discriminate|]. intros v' rest' H. injection H as _ <-.
      eapply Hkw; [|exact E6]. discriminate. }
    destruct (match_number s) as [[v rest]|] eqn:E7.
    { split; [discriminate|]. intros v' rest' H. injection H as _ <-.
      eapply match_number_rest. exact E7. }
    split; [discriminate | intros ? ? H; discriminate H].
  - (* parse_members *)
    intros s acc Hf. cbn [parse_members].
    destruct s as [|c r]; [split; [discriminate | intros ? ? H; discriminate H]|].
    cbn [length] in Hf.
    destruct (c =? QUOTE)%N; [|split; [discriminate | intros ? ? H; discriminate H]].
    destruct (scanstring r []) as [key rest| |] eqn:E.
    + apply (scanstring_rest (n := length r)) in E; [|lia].
      pose proof (skip_ws_length rest) as Hws.
      destruct (skip_ws rest) as [|c1 r1];
        [split; [discriminate | intros ? ? H; discriminate H]|].
      destruct (c1 =? ch ":")%N; [|split; [discriminate | intros ? ? H; discriminate H]].
      pose proof (skip_ws_length r1) as Hws1.
      destruct (IHscan (skip_ws r1)) as [Hno Hrest]; [cbn in *; lia|].
      destruct (scan_once f (skip_ws r1)) as [v rest'| |] eqn:Ev.
      * specialize (Hrest v rest' eq_refl).
        pose proof (skip_ws_length rest') as Hws2.
        destruct (skip_ws rest') as [|c2 r2];
          [split; [discriminate | intros ? ? H; discriminate H]|].
        destruct (c2 =? ch "}")%N.
        { split; [discriminate|]. intros v' rest'' H. injection H as _ <-.
          cbn in *. lia. }
        destruct (c2 =? ch ",")%N; [|split; [discriminate | intros ? ? H; discriminate H]].
        pose proof (skip_ws_length r2) as Hws3.
        destruct (IHmembers (skip_ws r2) (dict_set key v acc)) as [Hno' Hrest'];
          [cbn in *; lia|].
        split; [exact Hno'|]. intros v' rest'' H. apply Hrest' in H. cbn in *. lia.
      * split; [discriminate | intros ? ? H; discriminate H].
      * now contradiction Hno.
    + split; [discriminate | intros ? ? H; discriminate H].
    + exfalso. now apply (scanstring_fuel (n := length r)) in E.
  - (* parse_items *)
    intros s acc Hf. cbn [parse_items].
    destruct (IHscan s) as [Hno Hrest]; [lia|].
    destruct (scan_once f s) as [v rest| |] eqn:Ev.
    + specialize (Hrest v rest eq_refl).
      pose proof (skip_ws_length rest) as Hws.
      destruct (skip_ws rest) as [|c r];
        [split; [discriminate | intros ? ? H; discriminate H]|].
      destruct (c =? ch "]")%N.
      { split; [discriminate|]. intros v' rest' H. injection H as _ <-.
        cbn in *. lia. }
      destruct (c =? ch ",")%N; [|split; [discriminate | intros ? ? H; discriminate H]].
      pose proof (skip_ws_length r) as Hws1.
      destruct (IHitems (skip_ws r) (acc ++ [v])) as [Hno' Hrest'];
        [cbn in *; lia|].
      split; [exact Hno'|]. intros v' rest' H. apply Hrest' in H. cbn in *. lia.
    + split; [discriminate | intros ? ? H; discriminate H].
    + now contradiction Hno.
Qed.

(** [loads] never stops for lack of fuel: it fails only where the text is
    not JSON. *)
Lemma loads_fuel (s : str) :
  scan_once (S (2 * length (skip_ws s))) (skip_ws s) <> OutOfFuel.
Proof. apply fuel_enough. lia. Qed.

End JsonFacts.

(** ** dispatch_tool *)

Module ToolsFacts.
Import Tools.

Lemma clean_params_In (items : dict) (kv : str * json) :
  In kv (clean_params items) <-> In kv items /\ snd kv <> JNull.
Proof.
  unfold clean_params. rewrite filter_In.
  destruct kv as [k v]; cbn [snd].
  split; intros [Hin Hv]; split; try assumption.
  - intros ->. discriminate.
  - destruct v; try reflexivity. now contradiction Hv.
Qed.

Lemma failure_fields (message : str) :
  success (failure message) = false /\ return_code (failure message) = 1%Z.
Proof. now split. Qed.

(** C8: whatever the name and the parameters, [dispatch_tool] hands a
    [ToolResult] to its caller.  For a name that is not a key of
    [TOOL_MAP] the result has [success=False].  For a key and a parameter
    map, the tool function receives the entries of the map whose value is
    not [None] and no other; what it returns is returned, and a
    [TypeError] or any other exception becomes a result with
    [success=False] and [return_code] 1. *)
Theorem dispatch_tool_never_raises (run : handlers) (name : str) (parameters : json) :
  exists r : ToolResult,
    dispatch_tool run (JStr name) parameters = Result r /\
    (in_TOOL_MAP name = false -> success r = false /\ return_code r = 1%Z) /\
    (in_TOOL_MAP name = true ->
     forall items : dict, parameters = JObj items ->
       (forall kv, In kv (clean_params items) <-> In kv items /\ snd kv <> JNull) /\
       match run name (clean_params items) with
       | Returns result => r = result
       | RaisesTypeError _ | RaisesException _ =>
           success r = false /\ return_code r = 1%Z
       end).
Proof.
  unfold dispatch_tool.
  destruct (in_TOOL_MAP name) eqn:Hin; cbn [negb].
  - destruct parameters as [| | | | | |items];
      try (eexists; split; [reflexivity|]; split; [discriminate|];
           intros _ items' Heq; discriminate Heq).
    destruct (run name (clean_params items)) as [res|e|e] eqn:Hrun;
      (eexists; split; [reflexivity|]; split; [discriminate|]);
      intros _ items' Heq; injection Heq as <-;
      (split; [apply clean_params_In|]); rewrite Hrun;
      first [reflexivity | apply failure_fields].
  - eexists; split; [reflexivity|]. split.
    + intros _. apply failure_fields.
    + discriminate.
Qed.

Lemma dispatch_tool_never_raises_witness :
  exists r : ToolResult,
    dispatch_tool rejecting (JStr (lit "wait"))
      (JObj [(lit "seconds", JNull); (lit "delay", JInt 2)]) = Result r /\
    success r = false /\ return_code r = 1%Z.
Proof.
  destruct (dispatch_tool_never_raises rejecting (lit "wait")
              (JObj [(lit "seconds", JNull); (lit "delay", JInt 2)]))
    as (r & Hr & _ & Hkey).
  exists r. split; [exact Hr|].
  exact (proj2 (Hkey eq_refl _ eq_refl)).
Defined.

End ToolsFacts.

(** ** dispatch_tool: what is called *)

Module DispatchOnly.
Import Tools.

(** X16: [dispatch_tool] calls a tool function only under a key of
    [TOOL_MAP], and never hands it a [None]: two families of tool
    functions that agree on every key of [TOOL_MAP] and on every keyword
    map without a [None] give the same dispatch, whatever the action and
    the parameters are. *)
Theorem dispatch_tool_calls_only_tools (run run' : handlers)
    (action parameters : json) :
  (forall name params,
     in_TOOL_MAP name = true ->
     (forall k v, In (k, v) params -> v <> JNull) ->
     run name params = run' name params) ->
  dispatch_tool run action parameters = dispatch_tool run' action parameters.
Proof.
  intros Hsame. unfold dispatch_tool.
  destruct action as [| | | |name| |]; try reflexivity.
  destruct (in_TOOL_MAP name) eqn:Hin; cbn [negb]; [|reflexivity].
  destruct parameters as [| | | | | |items]; try reflexivity.
  rewrite (Hsame name (clean_params items) Hin); [reflexivity|].
  intros k v Hkv. apply ToolsFacts.clean_params_In in Hkv.
  destruct Hkv as [_ Hv]. exact Hv.
Qed.

Lemma dispatch_tool_calls_only_tools_witness :
  dispatch_tool Samples.rejecting (JStr (lit "format_disk")) (JObj []) =
  dispatch_tool
    (fun name params =>
       if in_TOOL_MAP name then Samples.rejecting name params
       else Returns (failure (lit "formatted")))
    (JStr (lit "format_disk")) (JObj []).
Proof.
  apply (@dispatch_tool_calls_only_tools Samples.rejecting
           (fun name params =>
              if in_TOOL_MAP name then Samples.rejecting name params
              else Returns (failure (lit "formatted")))
           (JStr (lit "format_disk")) (JObj [])).
  intros name params Hin _. now rewrite Hin.
Defined.

End DispatchOnly.

(** ** _classify_task *)

Module ClassifyFacts.
Import Brain.

Lemma any_in_occurs (signals : list str) (text : str) :
  any_in signals text = true <-> exists w, In w signals /\ occurs w text.
Proof.
  unfold any_in. rewrite existsb_exists.
  split; intros (w & Hin & H); exists w; (split; [assumption|]);
    now apply contains_occurs.
Qed.

(** C9: the class of a message is a function of its lower-cased text
    alone: creative when a creative signal occurs in it, whatever else
    occurs; otherwise precise when a precise signal occurs; otherwise
    balanced.  So two messages that differ only by case have the same
    class. *)
Theorem classify_task_spec (message : str) :
  let text := lower message in
  ((exists w, In w creative_signals /\ occurs w text) ->
     _classify_task message = lit "creative") /\
  (~ (exists w, In w creative_signals /\ occurs w text) ->
   (exists w, In w precise_signals /\ occurs w text) ->
     _classify_task message = lit "precise") /\
  (~ (exists w, In w creative_signals /\ occurs w text) ->
   ~ (exists w, In w precise_signals /\ occurs w text) ->
     _classify_task message = lit "balanced") /\
  (forall other : str, lower other = lower message ->
     _classify_task other = _classify_task message).
Proof.
  cbn zeta. unfold _classify_task.
  repeat split.
  - intros H. apply any_in_occurs in H. now rewrite H.
  - intros Hc Hp. apply any_in_occurs in Hp.
    destruct (any_in creative_signals (lower message)) eqn:E.
    + apply any_in_occurs in E. contradiction.
    + now rewrite Hp.
  - intros Hc Hp.
    destruct (any_in creative_signals (lower message)) eqn:E.
    + apply any_in_occurs in E. contradiction.
    + destruct (any_in precise_signals (lower message)) eqn:E'.
      * apply any_in_occurs in E'. contradiction.
      * reflexivity.
  - intros other ->. reflexivity.
Qed.

(** A message in capitals that holds a creative and a precise signal. *)
Lemma classify_task_spec_witness :
  _classify_task (lit "WRITE FILE notes.txt") = lit "creative" /\
  _classify_task (lit "Write File notes.txt") =
  _classify_task (lit "WRITE FILE notes.txt").
Proof.
  destruct (classify_task_spec (lit "WRITE FILE notes.txt"))
    as (Hcreative & _ & _ & Hcase).
  split.
  - apply Hcreative. exists (lit "write"). split.
    + cbn. now left.
    + exists [], (lit " file notes.txt"). reflexivity.
  - apply Hcase. reflexivity.
Defined.

End ClassifyFacts.

(** ** think and process_tool_result *)

Module BrainFacts.
Import Brain.

Lemma fill_defaults_lookup (decision : dict) (k : str) :
  dict_lookup k (fill_defaults decision) =
  match dict_lookup k decision with
  | Some v => Some v
  | None => default_of k
  end.
Proof.
  unfold fill_defaults, default_of.
  rewrite !dict_lookup_setdefault.
  destruct (dict_lookup k decision); [reflexivity|].
  destruct (str_eqb k K_thought); [reflexivity|].
  destruct (str_eqb k K_action); [reflexivity|].
  destruct (str_eqb k K_parameters); [reflexivity|].
  destruct (str_eqb k K_response); reflexivity.
Qed.

Lemma fill_defaults_complete (decision : dict) :
  complete (fill_defaults decision) = true.
Proof.
  unfold complete, decision_keys, dict_has. cbn [forallb].
  rewrite !fill_defaults_lookup.
  repeat match goal with
         | |- context [dict_lookup ?k decision] => destruct (dict_lookup k decision)
         end; reflexivity.
Qed.

Lemma reply_well_typed (thought response : str) :
  well_typed (reply thought response) = true.
Proof. reflexivity. Qed.

Lemma well_typed_complete (d : dict) : well_typed d = true -> complete d = true.
Proof.
  unfold well_typed, complete, decision_keys, dict_has. cbn [forallb].
  repeat match goal with
         | |- context [dict_lookup ?k d] => destruct (dict_lookup k d) as [[]|]
         end; try discriminate; reflexivity.
Qed.

Section ThinkShape.

Variable cfg : Config.
Variable llm : nat -> request -> completion.

Lemma think_loop_shaped (remaining : nat) :
  forall (attempt : Z) (msgs : list message) (temperature : Q)
         (calls : list request),
    shaped llm (fst (think_loop cfg llm remaining attempt msgs temperature calls)).
Proof.
  induction remaining as [|n IH]; intros attempt msgs temperature calls.
  - left. now eexists _, _.
  - cbn [think_loop].
    set (call := {| messages := _; temperature := _; max_tokens := _ |}).
    destruct (llm (length calls) call) as [raw|e] eqn:Hllm.
    + destruct (_extract_json raw) as [| | | | | |decision] eqn:Hex;
        try (destruct (attempt =? MAX_RETRIES cfg - 1)%Z;
             [left; now eexists _, _ | apply IH]).
      * destruct (attempt <? MAX_RETRIES cfg - 1)%Z; [apply IH|].
        left. now eexists _, _.
      * right. now exists (length calls), call, raw, decision.
    + destruct (attempt =? MAX_RETRIES cfg - 1)%Z;
        [left; now eexists _, _ | apply IH].
Qed.

End ThinkShape.

(** C3, as the code has it: every dict that [think] returns holds the five
    keys.  It is either one of the dict literals of the method, whose
    values have the types of the fields, or the dict parsed from the
    model's text, in which every key of the text keeps the value of the
    text, whatever its type, and a missing key gets its default: the empty
    text for the thought, none for the action, the empty dict for the
    parameters, a fixed sentence for the response and false for continue.
    [think] has no other result: every exception of the loop is caught. *)
Theorem think_returns_complete_decision (cfg : Config)
    (llm : nat -> request -> completion) (context : list message)
    (user_message : str) :
  let d := fst (think cfg llm context user_message) in
  complete d = true /\
  ((exists thought response,
      d = reply thought response /\ well_typed d = true) \/
   (exists n call raw decision,
      llm n call = Completed raw /\ _extract_json raw = JObj decision /\
      d = fill_defaults decision /\
      forall k, dict_lookup k d =
                match dict_lookup k decision with
                | Some v => Some v
                | None => default_of k
                end)).
Proof.
  cbn zeta. unfold think.
  destruct (think_loop_shaped cfg llm (Z.to_nat (MAX_RETRIES cfg)) 0
              (context ++ [{| role := lit "user"; content := user_message |}])
              (base_temperature cfg user_message) [])
    as [(t & r & ->)|(n & call & raw & decision & Hllm & Hex & ->)].
  - split; [reflexivity|]. left. now exists t, r.
  - split; [apply fill_defaults_complete|]. right.
    exists n, call, raw, decision. repeat split; try assumption.
    intros k. apply fill_defaults_lookup.
Qed.

(** C3 as stated fails: the decision returned for this model is complete,
    but its parameters are [None] and its [continue] is a text, not a
    boolean (and a text that Python takes for true). *)
Lemma think_ill_typed_counterexample :
  let d := fst (think CONFIG loose_model [] (lit "hello")) in
  complete d = true /\
  dict_lookup K_parameters d = Some JNull /\
  dict_lookup K_continue d = Some (JStr (lit "false")) /\
  truthy (dict_get K_continue (JBool false) d) = true /\
  well_typed d = false.
Proof. vm_compute. repeat split; reflexivity. Qed.

(** *** The retries of think *)

Lemma attempts_length (from : Z) (n : nat) : length (attempts from n) = n.
Proof. revert from. induction n; intros from; cbn; [reflexivity | now rewrite IHn]. Qed.

Lemma attempts_nth (n : nat) :
  forall (from : Z) (k : nat) (a : Z),
    nth_error (attempts from n) k = Some a ->
    a = (from + Z.of_nat k)%Z /\ (k < n)%nat.
Proof.
  induction n as [|n IH]; intros from k a; cbn.
  - destruct k; discriminate.
  - destruct k as [|k]; cbn.
    + intros H. injection H as <-. split; lia.
    + intros H. apply IH in H. lia.
Qed.

Lemma py_max_Qmax (a b : Q) : py_max a b == Qmax a b.
Proof.
  unfold py_max. destruct (Qlt_le_dec a b) as [H|H].
  - symmetry. apply Q.max_r. now apply Qlt_le_weak.
  - symmetry. now apply Q.max_l.
Qed.

Lemma current_temp_retry (base : Q) (k : Z) :
  (0 < k)%Z ->
  current_temp base k == Qmax (1 # 10) (base - (2 # 10) * inject_Z k).
Proof.
  intros Hk. unfold current_temp.
  destruct (k >? 0)%Z eqn:E; [apply py_max_Qmax | lia].
Qed.

(** From the first retry on, a later attempt is never warmer. *)
Lemma current_temp_retries_decrease (base : Q) (j k : Z) :
  (0 < j <= k)%Z -> current_temp base k <= current_temp base j.
Proof.
  intros Hjk. rewrite !current_temp_retry by lia.
  assert (H : inject_Z j <= inject_Z k) by (rewrite <- Zle_Qle; lia).
  apply Q.max_le_compat_l. lra.
Qed.

(** With a base of at least 0.1 the first attempt is the warmest. *)
Lemma current_temp_decrease (base : Q) (j k : Z) :
  1 # 10 <= base -> (0 <= j <= k)%Z ->
  current_temp base k <= current_temp base j.
Proof.
  intros Hbase Hjk. destruct (Z.eq_dec j 0) as [->|Hj].
  - destruct (Z.eq_dec k 0) as [->|Hk]; [apply Qle_refl|].
    rewrite (@current_temp_retry base k) by lia. cbn [current_temp Z.gtb Z.compare].
    assert (H : 0 <= inject_Z k) by (change 0 with (inject_Z 0); rewrite <- Zle_Qle; lia).
    apply Q.max_lub; lra.
  - apply current_temp_retries_decrease. lia.
Qed.

Section Retry.

Variable cfg : Config.
Variable llm : nat -> request -> completion.

(** Every answer of the model is text from which nothing is extracted. *)
Hypothesis unparseable :
  forall n call, exists raw, llm n call = Completed raw /\ _extract_json raw = JNull.

Lemma think_loop_unparseable (msgs : list message) (base : Q) (remaining : nat) :
  forall (attempt : Z) (calls : list request),
    (attempt + Z.of_nat remaining = MAX_RETRIES cfg)%Z ->
    (1 <= remaining)%nat ->
    exists raw,
      llm (length calls + remaining - 1) (call_at cfg msgs base (MAX_RETRIES cfg - 1)) =
        Completed raw /\
      _extract_json raw = JNull /\
      think_loop cfg llm remaining attempt msgs base calls =
        (wrapped_reply raw, calls ++ map (call_at cfg msgs base) (attempts attempt remaining)).
Proof.
  induction remaining as [|n IH]; intros attempt calls Hsum Hpos; [lia|].
  cbn [think_loop attempts map]. fold (call_at cfg msgs base attempt).
  destruct (unparseable (length calls) (call_at cfg msgs base attempt))
    as (raw & Hllm & Hex).
  rewrite Hllm, Hex.
  destruct (attempt <? MAX_RETRIES cfg - 1)%Z eqn:Hlt.
  - apply Z.ltb_lt in Hlt.
    destruct (IH (attempt + 1)%Z (calls ++ [call_at cfg msgs base attempt]))
      as (raw' & Hllm' & Hex' & Hloop); [lia | lia |].
    exists raw'. rewrite length_app in Hllm'. cbn [length] in Hllm'.
    replace (length calls + 1 + n - 1)%nat with (length calls + S n - 1)%nat
      in Hllm' by lia.
    repeat split; try assumption.
    rewrite Hloop, <- app_assoc. reflexivity.
  - apply Z.ltb_ge in Hlt. assert (n = 0%nat) by lia. subst n.
    exists raw.
    replace (length calls + 1 - 1)%nat with (length calls) by lia.
    replace (MAX_RETRIES cfg - 1)%Z with attempt by lia.
    now repeat split.
Qed.

End Retry.

(** C4, as the code has it.  Let every answer of the model be text from
    which nothing is extracted, and let [MAX_RETRIES] be at least 1.  Then
    [think] calls the model [MAX_RETRIES] times.  The first call has the
    base temperature and the messages as assembled; the call of every
    later attempt [k] has the temperature [max(0.1, base - 0.2 k)] and
    one more message, the corrective one.  From the first retry on the
    temperature never rises; it never rises at all when the base is at
    least 0.1.  The decision returned has the action none, [continue]
    false, and for response the last answer without its reasoning tags,
    or a fixed sentence when nothing is left of it. *)
Theorem think_retry_ladder (cfg : Config) (llm : nat -> request -> completion)
    (context : list message) (user_message : str) :
  (1 <= MAX_RETRIES cfg)%Z ->
  (forall n call, exists raw,
     llm n call = Completed raw /\ _extract_json raw = JNull) ->
  let base := base_temperature cfg user_message in
  let msgs := context ++ [{| role := lit "user"; content := user_message |}] in
  let d := fst (think cfg llm context user_message) in
  let calls := snd (think cfg llm context user_message) in
  Z.of_nat (length calls) = MAX_RETRIES cfg /\
  (forall k call, nth_error calls k = Some call ->
     (k = 0%nat -> temperature call = base /\ messages call = msgs) /\
     ((0 < k)%nat ->
      temperature call == Qmax (1 # 10) (base - (2 # 10) * inject_Z (Z.of_nat k)) /\
      messages call = msgs ++ [corrective_message])) /\
  (forall j k cj ck, (1 <= j <= k)%nat ->
     nth_error calls j = Some cj -> nth_error calls k = Some ck ->
     temperature ck <= temperature cj) /\
  (1 # 10 <= base ->
   forall j k cj ck, (j <= k)%nat ->
     nth_error calls j = Some cj -> nth_error calls k = Some ck ->
     temperature ck <= temperature cj) /\
  (exists last_call raw,
     nth_error calls (Z.to_nat (MAX_RETRIES cfg - 1)) = Some last_call /\
     llm (Z.to_nat (MAX_RETRIES cfg - 1)) last_call = Completed raw /\
     dict_lookup K_action d = Some (JStr (lit "none")) /\
     dict_lookup K_continue d = Some (JBool false) /\
     dict_lookup K_response d =
       Some (JStr (match strip (_strip_thinking_tags raw) with
                   | [] => lit "I processed your request but couldn't format the response properly."
                   | _ :: _ => strip (_strip_thinking_tags raw)
                   end))).
Proof.
  intros Hmax Hllm. cbn zeta. unfold think.
  set (msgs := context ++ [_]). set (base := base_temperature cfg user_message).
  destruct (@think_loop_unparseable cfg llm Hllm msgs base
              (Z.to_nat (MAX_RETRIES cfg)) 0 []) as (raw & Hlast & Hex & Hloop);
    [lia | lia |].
  rewrite Hloop. cbn [fst snd app].
  assert (Hnth : forall k call,
            nth_error (map (call_at cfg msgs base)
                         (attempts 0 (Z.to_nat (MAX_RETRIES cfg)))) k = Some call ->
            call = call_at cfg msgs base (Z.of_nat k) /\
            (Z.of_nat k < MAX_RETRIES cfg)%Z).
  { intros k call H. rewrite nth_error_map in H.
    destruct (nth_error (attempts _ _) k) as [a|] eqn:Ha; [|discriminate].
    apply attempts_nth in Ha. injection H as <-.
    destruct Ha as [-> Hk]. split; [reflexivity | lia]. }
  split; [|split; [|split; [|split]]].
  - rewrite length_map, attempts_length. lia.
  - intros k call H. apply Hnth in H. destruct H as [-> _]. split.
    + intros ->. split; [reflexivity|]. cbn. now rewrite app_nil_r.
    + intros Hk. cbn [call_at temperature messages]. split.
      * apply current_temp_retry. lia.
      * unfold extra_messages. destruct (Z.of_nat k >? 0)%Z eqn:E; [reflexivity | lia].
  - intros j k cj ck Hjk Hj Hk.
    apply Hnth in Hj, Hk. destruct Hj as [-> _], Hk as [-> _].
    cbn [call_at temperature]. apply current_temp_retries_decrease. lia.
  - intros Hbase j k cj ck Hjk Hj Hk.
    apply Hnth in Hj, Hk. destruct Hj as [-> _], Hk as [-> _].
    cbn [call_at temperature]. apply current_temp_decrease; [assumption | lia].
  - exists (call_at cfg msgs base (MAX_RETRIES cfg - 1)), raw.
    split; [|split; [|repeat split]].
    + rewrite nth_error_map.
      assert (Ha : nth_error (attempts 0 (Z.to_nat (MAX_RETRIES cfg)))
                     (Z.to_nat (MAX_RETRIES cfg - 1)) =
                   Some (MAX_RETRIES cfg - 1)%Z).
      { destruct (nth_error (attempts 0 (Z.to_nat (MAX_RETRIES cfg)))
                    (Z.to_nat (MAX_RETRIES cfg - 1))) as [a|] eqn:E.
        - apply attempts_nth in E. f_equal. lia.
        - apply nth_error_None in E. rewrite attempts_length in E. lia. }
      now rewrite Ha.
    + cbn [length Nat.add] in Hlast.
      replace (Z.to_nat (MAX_RETRIES cfg - 1))
        with (Z.to_nat (MAX_RETRIES cfg) - 1)%nat by lia.
      exact Hlast.
Qed.

Lemma prose_unparseable (n : nat) (call : request) :
  exists raw, prose_model n call = Completed raw /\ _extract_json raw = JNull.
Proof. eexists. split; [reflexivity|]. vm_compute. reflexivity. Qed.

(** C4 as stated fails: with a precise temperature of 0, the three
    attempts on a precise task run at 0, 0.1 and 0.1, so the second is
    warmer than the first. *)
Lemma think_retry_ladder_counterexample :
  let calls := snd (think cold_config prose_model [] (lit "run the tests")) in
  (forall n call, exists raw,
     prose_model n call = Completed raw /\ _extract_json raw = JNull) /\
  map temperature calls = [0; 1 # 10; 1 # 10] /\
  ~ (forall j k cj ck, (j <= k)%nat ->
       nth_error calls j = Some cj -> nth_error calls k = Some ck ->
       temperature ck <= temperature cj).
Proof.
  cbn zeta.
  assert (Hmap : map temperature
                   (snd (think cold_config prose_model [] (lit "run the tests"))) =
                 [0; 1 # 10; 1 # 10]) by (vm_compute; reflexivity).
  split; [exact prose_unparseable|]. split; [exact Hmap|].
  intros H.
  destruct (snd (think cold_config prose_model [] (lit "run the tests")))
    as [|c0 [|c1 rest]]; try discriminate.
  injection Hmap as E0 E1 _.
  specialize (H 0%nat 1%nat c0 c1 (le_S _ _ (le_n _)) eq_refl eq_refl).
  rewrite E0, E1 in H. unfold Qle in H. cbn in H. lia.
Qed.

(** The shipped configuration, a creative task and the same model: three
    calls, at 0.7, 0.5 and 0.3. *)
Lemma think_retry_ladder_witness :
  Z.of_nat (length (snd (think CONFIG prose_model [] (lit "tell me a story")))) = 3%Z /\
  dict_lookup K_action (fst (think CONFIG prose_model [] (lit "tell me a story")))
    = Some (JStr (lit "none")).
Proof.
  destruct (@think_retry_ladder CONFIG prose_model [] (lit "tell me a story"))
    as (Hlen & _ & _ & _ & (c & raw & _ & _ & Hact & _)).
  - cbn. lia.
  - exact prose_unparseable.
  - split; [exact Hlen | exact Hact].
Defined.


(** C6 at the input on which the code departs from it: the model reflects
    with a dict that holds a response and no thought.  The dict returned
    has four keys, and the thought is not among them. *)
Theorem process_tool_result_omits_thought :
  process_tool_result (Completed (litq "{'response': 'Done.'}"))
    [(K_action, JStr (lit "wait"))] (Tools.failure []) =
  Ok [(K_response, JStr (lit "Done.")); (K_action, JStr (lit "none"));
      (K_parameters, JObj []); (K_continue, JBool false)] /\
  dict_has K_thought
    [(K_response, JStr (lit "Done.")); (K_action, JStr (lit "none"));
     (K_parameters, JObj []); (K_continue, JBool false)] = false.
Proof. vm_compute. split; reflexivity. Qed.

End BrainFacts.

(** ** think: the calls of the model, whatever it answers *)

Module ThinkCalls.
Import Brain Notions.

Section Calls.

Variable cfg : Config.
Variable llm : nat -> request -> completion.

Lemma think_loop_calls (msgs : list message) (base : Q) (remaining : nat) :
  forall (attempt : Z) (calls : list request),
    exists n : nat,
      (n <= remaining)%nat /\ ((1 <= remaining)%nat -> (1 <= n)%nat) /\
      snd (think_loop cfg llm remaining attempt msgs base calls) =
        calls ++ map (call_at cfg msgs base) (attempts attempt n).
Proof.
  induction remaining as [|r IH]; intros attempt calls.
  - exists 0%nat. cbn. rewrite app_nil_r. repeat split; lia.
  - cbn [think_loop]. fold (call_at cfg msgs base attempt).
    assert (Hstop : exists n : nat,
              (n <= S r)%nat /\ ((1 <= S r)%nat -> (1 <= n)%nat) /\
              calls ++ [call_at cfg msgs base attempt] =
              calls ++ map (call_at cfg msgs base) (attempts attempt n)).
    { exists 1%nat. repeat split; lia. }
    assert (Hgo : exists n : nat,
              (n <= S r)%nat /\ ((1 <= S r)%nat -> (1 <= n)%nat) /\
              snd (think_loop cfg llm r (attempt + 1) msgs base
                     (calls ++ [call_at cfg msgs base attempt])) =
              calls ++ map (call_at cfg msgs base) (attempts attempt n)).
    { destruct (IH (attempt + 1)%Z (calls ++ [call_at cfg msgs base attempt]))
        as (n & Hn & _ & E).
      exists (S n). rewrite E, <- app_assoc. repeat split; lia. }
    destruct (llm (length calls) (call_at cfg msgs base attempt)) as [raw|e].
    + destruct (_extract_json raw);
        try (destruct (attempt =? MAX_RETRIES cfg - 1)%Z; [exact Hstop | exact Hgo]).
      * destruct (attempt <? MAX_RETRIES cfg - 1)%Z; [exact Hgo | exact Hstop].
      * exact Hstop.
    + destruct (attempt =? MAX_RETRIES cfg - 1)%Z; [exact Hstop | exact Hgo].
Qed.

End Calls.

(** X10: whatever the model answers, [think] calls it at most
    [MAX_RETRIES] times, and at least once when [MAX_RETRIES] is positive.
    The calls do not depend on the answers: the call of attempt [k] has
    the messages assembled before the loop, followed by the one
    corrective message when [k] is positive, the temperature of the
    attempt and [MAX_TOKENS].  No answer of the model and no second
    corrective message is ever sent back to it. *)
Theorem think_calls_fixed (cfg : Config) (llm : nat -> request -> completion)
    (context : list message) (user_message : str) :
  let msgs := context ++ [{| role := lit "user"; content := user_message |}] in
  exists n : nat,
    (Z.of_nat n <= Z.max 0 (MAX_RETRIES cfg))%Z /\
    ((1 <= MAX_RETRIES cfg)%Z -> (1 <= n)%nat) /\
    snd (think cfg llm context user_message) =
      map (call_at cfg msgs (base_temperature cfg user_message)) (attempts 0 n) /\
    forall k call,
      nth_error (snd (think cfg llm context user_message)) k = Some call ->
      messages call = msgs ++ (if (0 <? k)%nat then [corrective_message] else []) /\
      max_tokens call = MAX_TOKENS cfg.
Proof.
  cbn zeta. unfold think.
  set (msgs := context ++ _). set (base := base_temperature cfg user_message).
  destruct (think_loop_calls cfg llm msgs base (Z.to_nat (MAX_RETRIES cfg)) 0 [])
    as (n & Hn & Hpos & E).
  exists n. split; [lia|]. split; [intros H; apply Hpos; lia|].
  cbn [app] in E. split; [exact E|].
  intros k call Hk. rewrite E in Hk.
  rewrite nth_error_map in Hk.
  destruct (nth_error (attempts 0 n) k) as [a|] eqn:Ha; [|discriminate].
  cbn in Hk. injection Hk as <-.
  apply BrainFacts.attempts_nth in Ha. destruct Ha as [-> _].
  split; [|reflexivity]. cbn [call_at messages]. unfold extra_messages.
  destruct k as [|k]; [reflexivity|].
  assert (Hg : (0 + Z.of_nat (S k) >? 0)%Z = true) by (apply Z.gtb_lt; lia).
  rewrite Hg. reflexivity.
Qed.

End ThinkCalls.

(** ** think: the first usable answer, and a service that is down *)

Module ThinkOutcome.
Import Brain Notions MoreNotions.

Section Outcome.

Variable cfg : Config.
Variable llm : nat -> request -> completion.
Variable msgs : list message.
Variable base : Q.

(** An unusable answer before the last attempt leads to the next
    attempt. *)
Lemma think_loop_retry (remaining : nat) (attempt : Z) (calls : list request) :
  (attempt < MAX_RETRIES cfg - 1)%Z ->
  unusable (llm (length calls) (call_at cfg msgs base attempt)) ->
  think_loop cfg llm (S remaining) attempt msgs base calls =
  think_loop cfg llm remaining (attempt + 1) msgs base
    (calls ++ [call_at cfg msgs base attempt]).
Proof.
  intros Hlt Hbad. cbn [think_loop]. fold (call_at cfg msgs base attempt).
  assert (Hne : (attempt =? MAX_RETRIES cfg - 1)%Z = false) by (apply Z.eqb_neq; lia).
  assert (Hlt' : (attempt <? MAX_RETRIES cfg - 1)%Z = true) by (apply Z.ltb_lt; lia).
  destruct (llm (length calls) (call_at cfg msgs base attempt)) as [raw|e].
  - cbn [unusable] in Hbad.
    destruct (_extract_json raw); rewrite ?Hne, ?Hlt'; try reflexivity.
    contradiction.
  - now rewrite Hne.
Qed.

Lemma think_loop_success (raw : str) (decision : dict) (j : nat) :
  forall (remaining : nat) (attempt : Z) (calls : list request),
    (attempt + Z.of_nat remaining = MAX_RETRIES cfg)%Z ->
    (j < remaining)%nat ->
    (forall k, (k < j)%nat ->
       unusable (llm (length calls + k)
                   (call_at cfg msgs base (attempt + Z.of_nat k)))) ->
    llm (length calls + j) (call_at cfg msgs base (attempt + Z.of_nat j))
      = Completed raw ->
    _extract_json raw = JObj decision ->
    think_loop cfg llm remaining attempt msgs base calls =
    (fill_defaults decision,
     calls ++ map (call_at cfg msgs base) (attempts attempt (S j))).
Proof.
  induction j as [|j IH]; intros remaining attempt calls Hsum Hj Hbad Hgood Hex.
  - destruct remaining as [|r]; [lia|].
    rewrite Nat.add_0_r, Z.add_0_r in Hgood.
    cbn [think_loop]. fold (call_at cfg msgs base attempt).
    now rewrite Hgood, Hex.
  - destruct remaining as [|r]; [lia|].
    rewrite think_loop_retry.
    + rewrite (IH r (attempt + 1)%Z (calls ++ [call_at cfg msgs base attempt])).
      * cbn [attempts map]. now rewrite <- app_assoc.
      * lia.
      * lia.
      * intros k Hk. rewrite length_app. cbn [length].
        replace (length calls + 1 + k)%nat with (length calls + S k)%nat by lia.
        replace (attempt + 1 + Z.of_nat k)%Z with (attempt + Z.of_nat (S k))%Z by lia.
        apply Hbad. lia.
      * rewrite length_app. cbn [length].
        replace (length calls + 1 + j)%nat with (length calls + S j)%nat by lia.
        replace (attempt + 1 + Z.of_nat j)%Z with (attempt + Z.of_nat (S j))%Z by lia.
        exact Hgood.
      * exact Hex.
    + lia.
    + specialize (Hbad 0%nat ltac:(lia)).
      now rewrite Nat.add_0_r, Z.add_0_r in Hbad.
Qed.

Lemma think_loop_down (e : str) (remaining : nat) :
  forall (attempt : Z) (calls : list request),
    (attempt + Z.of_nat remaining = MAX_RETRIES cfg)%Z ->
    (1 <= remaining)%nat ->
    (forall k, (k < remaining)%nat ->
       unusable (llm (length calls + k)
                   (call_at cfg msgs base (attempt + Z.of_nat k)))) ->
    llm (length calls + remaining - 1) (call_at cfg msgs base (MAX_RETRIES cfg - 1))
      = ServiceError e ->
    think_loop cfg llm remaining attempt msgs base calls =
    (error_reply e,
     calls ++ map (call_at cfg msgs base) (attempts attempt remaining)).
Proof.
  induction remaining as [|r IH]; intros attempt calls Hsum Hpos Hbad Hlast; [lia|].
  destruct r as [|r].
  - replace (length calls + 1 - 1)%nat with (length calls) in Hlast by lia.
    replace (MAX_RETRIES cfg - 1)%Z with attempt in Hlast by lia.
    cbn [think_loop]. fold (call_at cfg msgs base attempt).
    rewrite Hlast.
    assert (Heq : (attempt =? MAX_RETRIES cfg - 1)%Z = true) by (apply Z.eqb_eq; lia).
    now rewrite Heq.
  - rewrite think_loop_retry.
    + rewrite (IH (attempt + 1)%Z (calls ++ [call_at cfg msgs base attempt])).
      * cbn [attempts map]. now rewrite <- app_assoc.
      * lia.
      * lia.
      * intros k Hk. rewrite length_app. cbn [length].
        replace (length calls + 1 + k)%nat with (length calls + S k)%nat by lia.
        replace (attempt + 1 + Z.of_nat k)%Z with (attempt + Z.of_nat (S k))%Z by lia.
        apply Hbad. lia.
      * rewrite length_app. cbn [length].
        replace (length calls + 1 + S r - 1)%nat
          with (length calls + S (S r) - 1)%nat by lia.
        exact Hlast.
    + lia.
    + specialize (Hbad 0%nat ltac:(lia)).
      now rewrite Nat.add_0_r, Z.add_0_r in Hbad.
Qed.

End Outcome.

(** X11: [think] returns the first decision it can extract.  Let the
    answers to the first [j] calls be unusable, errors of the service or
    texts from which no dict is extracted, and let the answer to the next
    call, still within [MAX_RETRIES], be a text from which a dict is
    extracted.  Then [think] makes [j + 1] calls and returns that dict with
    its missing keys filled; with [j = 0] there is no retry. *)
Theorem think_first_success (cfg : Config) (llm : nat -> request -> completion)
    (context : list message) (user_message : str) (j : nat)
    (raw : str) (decision : dict) :
  let msgs := context ++ [{| role := lit "user"; content := user_message |}] in
  let ask := call_at cfg msgs (base_temperature cfg user_message) in
  (Z.of_nat j < MAX_RETRIES cfg)%Z ->
  (forall k, (k < j)%nat -> unusable (llm k (ask (Z.of_nat k)))) ->
  llm j (ask (Z.of_nat j)) = Completed raw ->
  _extract_json raw = JObj decision ->
  think cfg llm context user_message =
  (fill_defaults decision, map ask (attempts 0 (S j))).
Proof.
  cbn zeta. intros Hj Hbad Hgood Hex. unfold think.
  rewrite (@think_loop_success cfg llm _ _ raw decision j); try assumption;
    try reflexivity; lia.
Qed.

Lemma think_first_success_witness :
  fst (think CONFIG
         (fun n _ => if (n =? 0)%nat then ServiceError (lit "timeout")
                     else Completed (litq "{'response': 'hi'}"))
         [] (lit "hello")) =
  fill_defaults [(K_response, JStr (lit "hi"))].
Proof.
  rewrite (@think_first_success CONFIG
             (fun n _ => if (n =? 0)%nat then ServiceError (lit "timeout")
                         else Completed (litq "{'response': 'hi'}"))
             [] (lit "hello") 1 (litq "{'response': 'hi'}")
             [(K_response, JStr (lit "hi"))]).
  - reflexivity.
  - cbn. lia.
  - intros k Hk. assert (k = 0%nat) as -> by lia. exact I.
  - reflexivity.
  - vm_compute. reflexivity.
Defined.

(** X12: a service that is down.  Let [MAX_RETRIES] be positive, let every
    one of the [MAX_RETRIES] answers be unusable, and let the last be an
    error of the service.  Then [think] has made [MAX_RETRIES] calls and
    returns the decision of its last [except] branch: the action none,
    [continue] false, and a thought and a response that carry the text of
    the last error. *)
Theorem think_service_down (cfg : Config) (llm : nat -> request -> completion)
    (context : list message) (user_message : str) (e : str) :
  let msgs := context ++ [{| role := lit "user"; content := user_message |}] in
  let ask := call_at cfg msgs (base_temperature cfg user_message) in
  let last := Z.to_nat (MAX_RETRIES cfg - 1) in
  (1 <= MAX_RETRIES cfg)%Z ->
  (forall k, (Z.of_nat k < MAX_RETRIES cfg)%Z -> unusable (llm k (ask (Z.of_nat k)))) ->
  llm last (ask (MAX_RETRIES cfg - 1)%Z) = ServiceError e ->
  think cfg llm context user_message =
  ([(K_thought, JStr (lit "Error occurred: " ++ e));
    (K_action, JStr (lit "none")); (K_parameters, JObj []);
    (K_response,
     JStr (WARNING_SIGN ++ lit " I encountered an error while processing: " ++ e));
    (K_continue, JBool false)],
   map ask (attempts 0 (Z.to_nat (MAX_RETRIES cfg)))).
Proof.
  cbn zeta. intros Hmax Hbad Hlast. unfold think.
  rewrite (@think_loop_down cfg llm _ _ e); try reflexivity; try lia.
  - intros k Hk. apply (Hbad k). lia.
  - cbn [length].
    replace (0 + Z.to_nat (MAX_RETRIES cfg) - 1)%nat
      with (Z.to_nat (MAX_RETRIES cfg - 1)) by lia.
    exact Hlast.
Qed.

Lemma think_service_down_witness :
  dict_lookup K_response
    (fst (think CONFIG (fun _ _ => ServiceError (lit "503")) [] (lit "hello"))) =
  Some (JStr (WARNING_SIGN ++ lit " I encountered an error while processing: 503")).
Proof.
  rewrite (@think_service_down CONFIG (fun _ _ => ServiceError (lit "503")) []
             (lit "hello") (lit "503")).
  - reflexivity.
  - cbn. lia.
  - intros k _. exact I.
  - reflexivity.
Defined.

End ThinkOutcome.

(** ** _extract_json *)

Module ExtractFacts.
Import Brain.

(** *** The stages of extraction *)



(** *** Round trip through a fence *)














End ExtractFacts.

(** ** _strip_thinking_tags: no opening tag is left *)

Module ThinkingTags.
Import Brain Notions.







End ThinkingTags.

(** ** execute_tool_chain *)

Module ChainFacts.
Import Brain Chain.

Section Bound.

Variable cfg : Config.
Variables (tools : nat -> Tools.handlers) (reflections : nat -> completion).
Variable user_text : str.

Let turn_of := chain_turn cfg tools reflections user_text.
Let loop := chain_loop cfg tools reflections.

Lemma len_snoc (A : Type) (l : list A) (x : A) :
  Z.of_nat (length (l ++ [x])) = (Z.of_nat (length l) + 1)%Z.
Proof. rewrite length_app. cbn. lia. Qed.

Lemma turn_continue (st st' : state) :
  inv cfg st -> turn_of st = Continue st' ->
  inv cfg st' /\ (step st' = step st + 1)%Z /\ (step st < MAX_CHAIN_STEPS cfg)%Z.
Proof.
  unfold turn_of, inv, chain_turn. intros [Hlen Hstep].
  destruct (step st <? MAX_CHAIN_STEPS cfg)%Z eqn:Hlt; [|discriminate].
  apply Z.ltb_lt in Hlt.
  destruct (names_tool _); [|discriminate].
  destruct (Tools.dispatch_tool _ _ _); [|discriminate].
  destruct (process_tool_result _ _ _); [|discriminate].
  destruct (_ && _); [|discriminate].
  intros H. injection H as <-. cbn.
  rewrite len_snoc. lia.
Qed.

Lemma turn_stop (st : state) (e : chain_end) :
  inv cfg st -> turn_of st = Stop e ->
  (Z.of_nat (length (recorded e)) <= Z.max 0 (MAX_CHAIN_STEPS cfg))%Z.
Proof.
  unfold turn_of, inv, chain_turn. intros [Hlen Hstep].
  destruct (step st <? MAX_CHAIN_STEPS cfg)%Z eqn:Hlt.
  - apply Z.ltb_lt in Hlt.
    destruct (names_tool _).
    + destruct (Tools.dispatch_tool _ _ _).
      * destruct (process_tool_result _ _ _).
        -- destruct (_ && _); [discriminate|].
           intros H. injection H as <-. cbn. rewrite len_snoc. lia.
        -- intros H. injection H as <-. cbn. rewrite len_snoc. lia.
      * intros H. injection H as <-. cbn. lia.
    + intros H. injection H as <-. cbn. lia.
  - intros H. injection H as <-. cbn. lia.
Qed.

Lemma loop_ends (fuel : nat) (st : state) :
  inv cfg st ->
  (Z.to_nat (MAX_CHAIN_STEPS cfg - step st) < fuel)%nat ->
  exists e, loop fuel user_text st = Some e /\
            (Z.of_nat (length (recorded e)) <= Z.max 0 (MAX_CHAIN_STEPS cfg))%Z.
Proof.
  revert st. induction fuel as [|fuel IH]; intros st Hinv Hfuel; [lia|].
  unfold loop. cbn [chain_loop]. fold turn_of.
  destruct (turn_of st) as [st'|e] eqn:Hturn.
  - destruct (turn_continue Hinv Hturn) as (Hinv' & Hstep & Hlt).
    apply IH; [assumption | lia].
  - exists e. split; [reflexivity|]. eapply turn_stop; eassumption.
Qed.

End Bound.

(** A turn consults the oracles only at the number of its step. *)
Lemma turn_ext (cfg : Config) (tools tools' : nat -> Tools.handlers)
    (reflections reflections' : nat -> completion) (user_text : str)
    (st : state) :
  (step st < MAX_CHAIN_STEPS cfg ->
   tools (Z.to_nat (step st + 1)) = tools' (Z.to_nat (step st + 1)) /\
   reflections (Z.to_nat (step st + 1)) = reflections' (Z.to_nat (step st + 1)))%Z ->
  chain_turn cfg tools reflections user_text st =
  chain_turn cfg tools' reflections' user_text st.
Proof.
  intros H. unfold chain_turn.
  destruct (step st <? MAX_CHAIN_STEPS cfg)%Z eqn:Hlt; [|reflexivity].
  apply Z.ltb_lt in Hlt. destruct (H Hlt) as [-> ->]. reflexivity.
Qed.

Lemma loop_ext (cfg : Config) (tools tools' : nat -> Tools.handlers)
    (reflections reflections' : nat -> completion) (user_text : str) :
  (forall n, (1 <= Z.of_nat n <= MAX_CHAIN_STEPS cfg)%Z ->
     tools n = tools' n /\ reflections n = reflections' n) ->
  forall (fuel : nat) (st : state), inv cfg st ->
    chain_loop cfg tools reflections fuel user_text st =
    chain_loop cfg tools' reflections' fuel user_text st.
Proof.
  intros Hsame. induction fuel as [|fuel IH]; intros st Hinv; [reflexivity|].
  cbn [chain_loop].
  rewrite (@turn_ext cfg tools tools' reflections reflections' user_text st).
  - destruct (chain_turn cfg tools' reflections' user_text st) as [st'|e] eqn:Hturn;
      [|reflexivity].
    apply IH.
    rewrite <- (@turn_ext cfg tools tools' reflections reflections') in Hturn.
    + eapply turn_continue; eassumption.
    + intros Hlt. apply Hsame. destruct Hinv as [_ Hstep]. lia.
  - intros Hlt. apply Hsame. destruct Hinv as [_ Hstep]. lia.
Qed.

(** C1: whatever the model answers and whatever the tools do, the loop
    ends, and with a bound [MAX_CHAIN_STEPS] that is not negative it has
    recorded at most [MAX_CHAIN_STEPS] steps.  No dispatch and no
    reflection beyond that number takes place: the run is the same under
    any other oracles that agree on the first [MAX_CHAIN_STEPS] calls. *)
Theorem chain_steps_bounded (cfg : Config) (tools : nat -> Tools.handlers)
    (reflections : nat -> completion) (user_text : str)
    (initial_decision : dict) :
  exists e : chain_end,
    execute_tool_chain cfg tools reflections user_text initial_decision = Some e /\
    ((0 <= MAX_CHAIN_STEPS cfg)%Z ->
     (Z.of_nat (length (recorded e)) <= MAX_CHAIN_STEPS cfg)%Z) /\
    (forall tools' reflections',
       (forall n, (1 <= Z.of_nat n <= MAX_CHAIN_STEPS cfg)%Z ->
          tools n = tools' n /\ reflections n = reflections' n) ->
       execute_tool_chain cfg tools' reflections' user_text initial_decision = Some e).
Proof.
  unfold execute_tool_chain.
  set (st0 := {| decision := initial_decision; chain_context := [];
                 step := 0; final_response := _ |}).
  assert (Hinv : inv cfg st0) by (unfold inv; cbn; lia).
  destruct (@loop_ends cfg tools reflections user_text
              (S (Z.to_nat (MAX_CHAIN_STEPS cfg))) st0 Hinv) as (e & He & Hlen).
  { cbn. lia. }
  exists e. split; [exact He|]. split.
  - intros Hmax. lia.
  - intros tools' reflections' Hsame.
    rewrite <- He. symmetry. now apply loop_ext.
Qed.

Lemma chain_steps_bounded_witness :
  exists e : chain_end,
    execute_tool_chain CONFIG failing_tools always_more (lit "go")
      [(K_action, JStr (lit "wait"))] = Some e /\
    (Z.of_nat (length (recorded e)) <= 10)%Z.
Proof.
  destruct (chain_steps_bounded CONFIG failing_tools always_more (lit "go")
              [(K_action, JStr (lit "wait"))]) as (e & He & Hlen & _).
  exists e. split; [exact He|]. apply Hlen. cbn. lia.
Defined.


Section Continuation.

Variable cfg : Config.
Variables (tools : nat -> Tools.handlers) (reflections : nat -> completion).
Variable user_text : str.



End Continuation.


End ChainFacts.

(** ** execute_tool_chain: what is recorded, and how a run can fail *)

Module ChainRecord.
Import Brain Chain MoreNotions.

Section Record.

Variable cfg : Config.
Variables (tools : nat -> Tools.handlers) (reflections : nat -> completion).
Variable user_text : str.





End Record.


(** X8: a decision whose action is missing, null, empty or none runs no
    tool: whatever the tools and the model are, the function returns at
    once with the response of the decision (the empty text when it has
    none) and an empty [chain_context].  The same holds for any decision
    when [MAX_CHAIN_STEPS] is not positive. *)
Theorem chain_without_tool (cfg : Config) (tools : nat -> Tools.handlers)
    (reflections : nat -> completion) (user_text : str)
    (initial_decision : dict) :
  names_tool (dict_get K_action (JStr (lit "none")) initial_decision) = false \/
  (MAX_CHAIN_STEPS cfg <= 0)%Z ->
  execute_tool_chain cfg tools reflections user_text initial_decision =
  Some (Returned (dict_get K_response (JStr []) initial_decision) []).
Proof.
  intros H. unfold execute_tool_chain. cbn [chain_loop]. unfold chain_turn.
  cbn [step decision chain_context final_response].
  destruct (0 <? MAX_CHAIN_STEPS cfg)%Z eqn:Hlt; [|reflexivity].
  destruct H as [-> | Hmax]; [reflexivity|].
  apply Z.ltb_lt in Hlt. lia.
Qed.

Lemma chain_without_tool_witness :
  execute_tool_chain CONFIG Samples.failing_tools Samples.always_more (lit "hi")
    [(K_action, JNull); (K_response, JStr (lit "Hello."))] =
  Some (Returned (JStr (lit "Hello.")) []).
Proof.
  apply (@chain_without_tool CONFIG Samples.failing_tools Samples.always_more
           (lit "hi") [(K_action, JNull); (K_response, JStr (lit "Hello."))]).
  left. reflexivity.
Defined.

End ChainRecord.

(** ** execute_tool_chain: a reflection that fails *)

Module ChainFallback.
Import Brain Chain MoreNotions.



End ChainFallback.

(** ** split_message *)

Module SplitFacts.
Import Split.

Lemma split_pos_range (text : str) (m : Z) :
  (2 <= m)%Z -> (1 <= m / 2 <= split_pos text m /\ split_pos text m <= m)%Z.
Proof.
  intros Hm.
  assert (H2 : (1 <= m / 2 <= m)%Z).
  { split; [apply Z.div_le_lower_bound; lia|].
    apply Z.div_le_upper_bound; lia. }
  assert (Hlen : forall c, (rfind c (slice_to text m) < m)%Z).
  { intros c. destruct (rfind_range c (slice_to text m)) as [E|E]; [lia|].
    unfold slice_to, len in *. destruct (0 <=? m)%Z eqn:E0; [|lia].
    rewrite length_firstn in E. lia. }
  unfold split_pos.
  destruct ((_ =? -1) || (_ <? m / 2))%Z eqn:E1.
  - destruct ((rfind SP _ =? -1) || (_ <? m / 2))%Z eqn:E2; [lia|].
    apply orb_false_iff in E2. destruct E2 as [_ E2].
    apply Z.ltb_ge in E2. specialize (Hlen SP). lia.
  - apply orb_false_iff in E1. destruct E1 as [_ E1].
    apply Z.ltb_ge in E1. specialize (Hlen NL). lia.
Qed.

Lemma split_loop_acc (fuel : nat) (m : Z) (text : str) (acc : list str) :
  split_loop fuel m text acc =
  option_map (app acc) (split_loop fuel m text []).
Proof.
  revert text acc. induction fuel as [|f IH]; intros text acc; [reflexivity|].
  cbn [split_loop]. destruct text as [|a t].
  - cbn. now rewrite app_nil_r.
  - destruct (len (a :: t) <=? m)%Z; [reflexivity|].
    rewrite IH. rewrite (IH _ ([] ++ _)).
    destruct (split_loop f m _ []); cbn; [|reflexivity].
    now rewrite <- app_assoc.
Qed.

(** What the loop returns on a text that is still too long, for any fuel
    above the text's length. *)
Lemma split_loop_ok (m : Z) : (2 <= m)%Z ->
  forall (fuel : nat) (text : str), (length text < fuel)%nat ->
  exists chunks gaps,
    split_loop fuel m text [] = Some chunks /\
    Forall (fun c => (1 <= len c <= m)%Z) chunks /\
    length gaps = length chunks /\
    text = rejoin chunks gaps.
Proof.
  intros Hm. induction fuel as [|f IH]; intros text Hf; [lia|].
  cbn [split_loop]. destruct text as [|a t].
  - exists [], []. repeat split; constructor.
  - destruct (len (a :: t) <=? m)%Z eqn:Elen.
    + apply Z.leb_le in Elen. exists [a :: t], [0%nat].
      repeat split.
      * constructor; [|constructor]. unfold len in *. cbn [length] in *. lia.
      * cbn. now rewrite app_nil_r.
    + apply Z.leb_gt in Elen.
      set (text := a :: t) in *.
      pose proof (split_pos_range text Hm) as Hp.
      set (p := split_pos text m) in *.
      assert (Hto : slice_to text p = firstn (Z.to_nat p) text).
      { unfold slice_to. destruct (0 <=? p)%Z eqn:E; [reflexivity|].
        apply Z.leb_gt in E. lia. }
      assert (Hfrom : slice_from text p = skipn (Z.to_nat p) text).
      { unfold slice_from. destruct (0 <=? p)%Z eqn:E; [reflexivity|].
        apply Z.leb_gt in E. lia. }
      rewrite Hto, Hfrom.
      assert (Hlp : (Z.to_nat p <= length text)%nat) by (unfold len in Elen; lia).
      destruct (lstrip_char_spec NL (skipn (Z.to_nat p) text)) as [g Hg].
      pose proof (lstrip_char_length NL (skipn (Z.to_nat p) text)) as Hl.
      rewrite length_skipn in Hl.
      destruct (IH (lstrip_char NL (skipn (Z.to_nat p) text)))
        as (cs & gs & Hrun & Hall & Hgl & Hjoin).
      { cbn [length] in Hf. fold text in Hf. lia. }
      rewrite split_loop_acc, Hrun. cbn [option_map app].
      exists (firstn (Z.to_nat p) text :: cs), (g :: gs).
      repeat split.
      * constructor; [|assumption].
        unfold len. rewrite length_firstn. lia.
      * cbn. now rewrite Hgl.
      * cbn [rejoin]. rewrite <- Hjoin, <- Hg.
        now rewrite firstn_skipn.
Qed.

(** C10: for a bound of at least 2, [split_message] returns; every chunk
    fits the bound; no chunk is empty unless the text is; and the chunks,
    with runs of newlines put back between them, are the text. *)
Theorem split_message_chunks (text : str) (max_length : Z) :
  (2 <= max_length)%Z ->
  exists chunks gaps,
    split_message text max_length = Some chunks /\
    Forall (fun c => (len c <= max_length)%Z) chunks /\
    (text <> [] -> Forall (fun c => c <> []) chunks) /\
    length gaps = length chunks /\
    text = rejoin chunks gaps.
Proof.
  intros Hm. unfold split_message.
  destruct (len text <=? max_length)%Z eqn:E.
  - apply Z.leb_le in E. exists [text], [0%nat]. repeat split.
    + now constructor.
    + intros Hne. now constructor.
    + cbn. now rewrite app_nil_r.
  - destruct (@split_loop_ok max_length Hm (S (length text)) text)
      as (cs & gs & Hrun & Hall & Hgl & Hjoin); [lia|].
    exists cs, gs. repeat split; try assumption.
    + eapply Forall_impl; [|exact Hall]. cbn. intros c Hc. lia.
    + intros _. eapply Forall_impl; [|exact Hall]. cbn.
      intros c Hc ->. unfold len in Hc. cbn in Hc. lia.
Qed.

Lemma split_message_chunks_witness :
  exists chunks gaps,
    split_message (lit "ab cd") 3 = Some chunks /\
    Forall (fun c => (len c <= 3)%Z) chunks /\
    (lit "ab cd" <> [] -> Forall (fun c => c <> []) chunks) /\
    length gaps = length chunks /\
    lit "ab cd" = rejoin chunks gaps.
Proof.
  apply (@split_message_chunks (lit "ab cd") 3). lia.
Defined.

End SplitFacts.
(** ** split_message: the size and the head of the chunks *)

Module SplitSizes.
Import Split SplitFacts MoreNotions.

Lemma lstrip_char_head (c : char) (s : str) :
  match lstrip_char c s with
  | x :: _ => x <> c
  | [] => True
  end.
Proof.
  induction s as [|x r IH]; cbn [lstrip_char]; [exact I|].
  destruct (N.eqb_spec x c) as [->|Hne]; [exact IH | exact Hne].
Qed.

Lemma firstn_head (n : nat) (s : str) :
  (1 <= n)%nat -> no_leading_newline s -> no_leading_newline (firstn n s).
Proof.
  destruct n as [|n]; [lia|]. now destruct s.
Qed.

(** The loop on a text that is too long cuts pieces of at least half the
    bound, and every text it goes on with begins with a character that is
    not a newline. *)
Lemma split_loop_sizes (m : Z) : (2 <= m)%Z ->
  forall (fuel : nat) (text : str), (length text < fuel)%nat ->
  exists chunks,
    split_loop fuel m text [] = Some chunks /\
    Forall (fun c => (m / 2 <= len c)%Z) (removelast chunks) /\
    (Z.of_nat (length (removelast chunks)) * (m / 2) <= len text)%Z /\
    Forall no_leading_newline (tl chunks) /\
    (no_leading_newline text -> Forall no_leading_newline chunks).
Proof.
  intros Hm. induction fuel as [|f IH]; intros text Hf; [lia|].
  cbn [split_loop]. destruct text as [|a t].
  - exists []. cbn. repeat split; try constructor. unfold len. cbn. lia.
  - destruct (len (a :: t) <=? m)%Z eqn:Elen.
    + exists [a :: t]. cbn [removelast tl length]. repeat split; try constructor.
      * unfold len. lia.
      * assumption.
      * constructor.
    + apply Z.leb_gt in Elen.
      set (text := a :: t) in *.
      pose proof (split_pos_range text Hm) as Hp.
      set (p := split_pos text m) in *.
      assert (Hto : slice_to text p = firstn (Z.to_nat p) text).
      { unfold slice_to. destruct (0 <=? p)%Z eqn:E; [reflexivity|].
        apply Z.leb_gt in E. lia. }
      assert (Hfrom : slice_from text p = skipn (Z.to_nat p) text).
      { unfold slice_from. destruct (0 <=? p)%Z eqn:E; [reflexivity|].
        apply Z.leb_gt in E. lia. }
      rewrite Hto, Hfrom.
      assert (Hlp : (Z.to_nat p <= length text)%nat) by (unfold len in Elen; lia).
      set (rest := lstrip_char NL (skipn (Z.to_nat p) text)).
      pose proof (lstrip_char_length NL (skipn (Z.to_nat p) text)) as Hl.
      rewrite length_skipn in Hl. fold rest in Hl.
      pose proof (lstrip_char_head NL (skipn (Z.to_nat p) text)) as Hh.
      fold rest in Hh.
      destruct (IH rest) as (cs & Hrun & Hbig & Hcount & _ & Hheads).
      { cbn [length] in Hf. fold text in Hf. lia. }
      rewrite split_loop_acc, Hrun. cbn [option_map app].
      set (piece := firstn (Z.to_nat p) text).
      assert (Hpiece : len piece = p).
      { unfold len, piece. rewrite length_firstn. lia. }
      exists (piece :: cs).
      assert (Hcs : Forall no_leading_newline cs).
      { destruct rest as [|x r] eqn:Er.
        - destruct f as [|f']; [cbn in Hrun; discriminate|].
          cbn in Hrun. injection Hrun as <-. constructor.
        - apply Hheads. exact Hh. }
      assert (Hhead : no_leading_newline text -> no_leading_newline piece).
      { apply firstn_head. lia. }
      destruct cs as [|c1 cs'].
      * cbn [removelast tl length]. split; [reflexivity|].
        split; [constructor|]. split; [unfold len; lia|].
        split; [constructor|]. intros H. constructor; [auto | constructor].
      * change (removelast (piece :: c1 :: cs'))
          with (piece :: removelast (c1 :: cs')).
        cbn [tl]. split; [reflexivity|].
        split; [constructor; [lia | exact Hbig]|].
        split; [cbn [length]; unfold len in *; nia|].
        split; [exact Hcs|]. intros H. constructor; [auto | exact Hcs].
Qed.

(** X1: for a bound of at least 2, every chunk of [split_message] but the
    last has at least half the bound in characters, so a text of [n]
    characters gives at most [n / (max_length // 2) + 1] chunks; and no
    chunk after the first begins with a newline. *)
Theorem split_message_chunk_sizes (text : str) (max_length : Z) :
  (2 <= max_length)%Z ->
  exists chunks,
    split_message text max_length = Some chunks /\
    Forall (fun c => (max_length / 2 <= len c)%Z) (removelast chunks) /\
    (Z.of_nat (length chunks) <= len text / (max_length / 2) + 1)%Z /\
    Forall no_leading_newline (tl chunks).
Proof.
  intros Hm. unfold split_message.
  assert (H2 : (1 <= max_length / 2)%Z) by (apply Z.div_le_lower_bound; lia).
  destruct (len text <=? max_length)%Z eqn:E.
  - exists [text]. cbn [removelast tl length]. repeat split; try constructor.
    assert (0 <= len text / (max_length / 2))%Z; [|lia].
    apply Z.div_pos; unfold len; lia.
  - destruct (@split_loop_sizes max_length Hm (S (length text)) text)
      as (chunks & Hrun & Hbig & Hcount & Hheads & _); [lia|].
    exists chunks. repeat split; try assumption.
    assert (Hq : (Z.of_nat (length (removelast chunks))
                  <= len text / (max_length / 2))%Z).
    { apply Z.div_le_lower_bound; lia. }
    assert (Hrl : (length chunks <= S (length (removelast chunks)))%nat).
    { clear. induction chunks as [|c [|c' cs] IH]; cbn [removelast length] in *; lia. }
    lia.
Qed.

Lemma split_message_chunk_sizes_witness :
  exists chunks,
    split_message (lit "one two three four") 8 = Some chunks /\
    Forall (fun c => (8 / 2 <= len c)%Z) (removelast chunks) /\
    (Z.of_nat (length chunks) <= len (lit "one two three four") / (8 / 2) + 1)%Z /\
    Forall no_leading_newline (tl chunks).
Proof.
  apply (@split_message_chunk_sizes (lit "one two three four") 8). lia.
Defined.

End SplitSizes.

(** ** safe_reply, safe_edit and handle_text_message *)

Module HandlerFacts.
Import Brain Chain Split Handler MoreNotions MoreSamples.

Section Sending.

Variable fails : nat -> option str.

Lemma send_chunk_attempts (log : list event) (chunk : str) :
  exists evs, reply_attempts chunk evs /\ send_chunk fails log chunk = log ++ evs.
Proof.
  unfold send_chunk, call. destruct (fails (length log)).
  - exists [Reply chunk false; Reply chunk true]. split; [now right|].
    cbn [fst]. now rewrite <- app_assoc.
  - exists [Reply chunk false]. split; [now left | reflexivity].
Qed.

Lemma send_chunks_attempts (chunks : list str) :
  forall log : list event,
  exists groups,
    Forall2 reply_attempts chunks groups /\
    fold_left (send_chunk fails) chunks log = log ++ concat groups.
Proof.
  induction chunks as [|c cs IH]; intros log.
  - exists []. cbn. rewrite app_nil_r. split; [constructor | reflexivity].
  - cbn [fold_left]. destruct (send_chunk_attempts log c) as (evs & Hevs & ->).
    destruct (IH (log ++ evs)) as (groups & Hall & ->).
    exists (evs :: groups). cbn [concat]. rewrite <- app_assoc.
    split; [now constructor | reflexivity].
Qed.

Lemma send_chunks_delivered (chunks : list str) :
  (forall n, fails n = None) ->
  forall log : list event,
    fold_left (send_chunk fails) chunks log =
    log ++ map (fun c => Reply c false) chunks.
Proof.
  intros Hok. induction chunks as [|c cs IH]; intros log; cbn [fold_left map].
  - now rewrite app_nil_r.
  - unfold send_chunk at 2. unfold call. rewrite Hok, IH, <- app_assoc.
    reflexivity.
Qed.

End Sending.

(** The chunks of a text that is not empty. *)
Lemma split_nonempty (shown : str) :
  shown <> [] ->
  exists chunks gaps,
    split_message shown 4096 = Some chunks /\ chunks <> [] /\
    shown = rejoin chunks gaps /\ length gaps = length chunks /\
    Forall (fun c => (1 <= len c <= 4096)%Z) chunks.
Proof.
  intros Hne. unfold split_message.
  destruct (len shown <=? 4096)%Z eqn:E.
  - apply Z.leb_le in E. exists [shown], [0%nat].
    split; [reflexivity|]. split; [discriminate|].
    split; [cbn; now rewrite app_nil_r|]. split; [reflexivity|].
    constructor; [|constructor]. split; [|exact E].
    destruct shown; [contradiction|]. unfold len. cbn [length]. lia.
  - destruct (@SplitFacts.split_loop_ok 4096 ltac:(lia) (S (length shown)) shown)
      as (chunks & gaps & Hrun & Hall & Hlen & Hjoin); [lia|].
    exists chunks, gaps. split; [exact Hrun|].
    split; [|now repeat split].
    intros ->. cbn in Hjoin. contradiction.
Qed.

Lemma done_not_empty : DONE <> [].
Proof. discriminate. Qed.

(** X2: [safe_reply] on a text.  The text sent is the text given, or a
    fixed text when the text given is empty or whitespace.  It is sent in
    the chunks of [split_message] for 4096: at least one chunk, each of 1
    to 4096 characters, which put back together are the text.  Every
    chunk is sent once, and once more without parse mode when the first
    call raised; nothing is raised to the caller.  When no call raises,
    one reply per chunk is made. *)
Theorem safe_reply_sends (fails : nat -> option str) (log : list event) (s : str) :
  let shown := match strip s with [] => DONE | _ :: _ => s end in
  exists chunks gaps groups,
    split_message shown 4096 = Some chunks /\ chunks <> [] /\
    shown = rejoin chunks gaps /\ length gaps = length chunks /\
    Forall (fun c => (1 <= len c <= 4096)%Z) chunks /\
    Forall2 reply_attempts chunks groups /\
    safe_reply fails log (JStr s) = (log ++ concat groups, None) /\
    ((forall n, fails n = None) ->
     safe_reply fails log (JStr s) =
       (log ++ map (fun c => Reply c false) chunks, None)).
Proof.
  cbn zeta. set (shown := match strip s with [] => DONE | _ :: _ => s end).
  assert (Hshown : reply_text (JStr s) = Ok shown).
  { unfold reply_text, shown. destruct s as [|c r]; [reflexivity|].
    cbn [truthy negb]. now destruct (strip (c :: r)). }
  assert (Hne : shown <> []).
  { unfold shown. destruct (strip s) eqn:E; [exact done_not_empty|].
    intros ->. discriminate. }
  destruct (split_nonempty Hne) as (chunks & gaps & Hsplit & Hc & Hjoin & Hlen & Hall).
  destruct (send_chunks_attempts fails chunks log) as (groups & Hgroups & Hfold).
  exists chunks, gaps, groups. unfold safe_reply. rewrite Hshown, Hsplit, Hfold.
  repeat split; try assumption.
  intros Hok. rewrite <- Hfold. now rewrite send_chunks_delivered.
Qed.


(** *** The handler *)




Section Handling.

Variable cfg : Config.
Variable fails : nat -> option str.
Variable llm : nat -> request -> completion.
Variable context : list message.
Variable tools : nat -> Tools.handlers.
Variable reflections : nat -> completion.







End Handling.

(** X4: the gate of the handler.  For a sender other than the authorized
    user the handler makes one call, the reply that denies access, and
    for a text of the authorized user that is empty or whitespace it
    makes none; in both cases whatever the model, the tools and the store
    are.  So the model is called and the store is written only for a text
    of the authorized user that is not blank. *)
Theorem handler_gate (cfg : Config) (settings : Settings)
    (fails : nat -> option str) (llm : nat -> request -> completion)
    (context : list message) (tools : nat -> Tools.handlers)
    (reflections : nat -> completion) (message : incoming) :
  let run := handle_text_message cfg settings fails llm context
               tools reflections message in
  (from_user_id message <> AUTHORIZED_USER_ID settings ->
     run = ([Reply ACCESS_DENIED false], fails 0%nat)) /\
  (from_user_id message = AUTHORIZED_USER_ID settings -> strip (text message) = [] ->
     run = ([], None)) /\
  (forall ev, In ev (fst run) ->
     match ev with
     | Completion _ | StoreMessage _ _ _ _ | ChatAction =>
         from_user_id message = AUTHORIZED_USER_ID settings /\ strip (text message) <> []
     | _ => True
     end).
Proof.
  cbn zeta. unfold handle_text_message, is_authorized.
  destruct (Z.eqb_spec (from_user_id message) (AUTHORIZED_USER_ID settings)) as [Heq|Hne];
    cbn [negb].
  - split; [contradiction|]. destruct (strip (text message)) eqn:Estrip.
    + split; [reflexivity|]. intros ev [].
    + split; [discriminate|]. intros ev _.
      destruct ev; try exact I; (split; [exact Heq | discriminate]).
  - split; [reflexivity|]. split; [contradiction|].
    intros ev [<-|[]]. exact I.
Qed.



(** *** The summary of the steps *)

Lemma lstrip_nil_spaces (s : str) : lstrip s = [] -> forallb isspace s = true.
Proof.
  induction s as [|x r IH]; [reflexivity|]. cbn [lstrip forallb].
  destruct (isspace x); [exact IH | discriminate].
Qed.

Lemma strip_nil_spaces (s : str) : strip s = [] -> forallb isspace s = true.
Proof.
  unfold strip, rstrip. intros H.
  apply (f_equal (@rev char)) in H. rewrite rev_involutive in H. cbn in H.
  apply lstrip_nil_spaces in H.
  destruct (lstrip s) as [|c r] eqn:E; [now apply lstrip_nil_spaces|].
  apply lstrip_head in E. rewrite forallb_forall in H.
  specialize (H c). rewrite <- in_rev in H. rewrite H in E; [discriminate | now left].
Qed.

Lemma filter_all (A : Type) (f : A -> bool) (l : list A) :
  (length (filter f l) <= length l)%nat /\
  (length (filter f l) = length l <-> forallb f l = true).
Proof.
  induction l as [|x l [IHle IHeq]]; cbn [filter forallb length].
  - split; [lia | tauto].
  - destruct (f x); cbn [length andb].
    + split; [lia|]. rewrite <- IHeq. split; lia.
    + split; [lia|]. split; [lia | discriminate].
Qed.

(** X6: the reply after a chain of several steps.  Let the authorized
    user send a text that is not blank, let no call of the chat or the
    store raise, and let the chain run for the decision of [think] return
    a text with more than one recorded step.  Then the handler stores and
    sends that text followed by a summary: the number of steps, and the
    words all successful exactly when every recorded step succeeded,
    otherwise the number of steps that succeeded, which is then smaller
    than the number of steps.  What is stored is what is sent, in the
    chunks of [split_message]. *)
Theorem handler_reports_steps (cfg : Config) (settings : Settings)
    (fails : nat -> option str) (llm : nat -> request -> completion)
    (context : list message) (tools : nat -> Tools.handlers)
    (reflections : nat -> completion) (message : incoming)
    (r : str) (ctx : list ChainStep) :
  let user_text := strip (text message) in
  let decision := dict_set K_original_message (JStr user_text)
                    (fst (think cfg llm context user_text)) in
  let n := Z.of_nat (length ctx) in
  let k := Z.of_nat (length (filter cs_success ctx)) in
  from_user_id message = AUTHORIZED_USER_ID settings ->
  user_text <> [] ->
  (forall i, fails i = None) ->
  execute_tool_chain cfg tools reflections user_text decision
    = Some (Returned (JStr r) ctx) ->
  (1 < n)%Z ->
  exists summary chunks,
    summary =
      [NL; NL; 128203%N] ++ lit " Completed " ++ int_text n ++ lit " steps" ++
      (if forallb cs_success ctx
       then [SP; 8212%N] ++ lit " all successful " ++ [9989%N]
       else [SP; 8212%N; SP] ++ int_text k ++ lit "/" ++ int_text n
            ++ lit " successful") /\
    (forallb cs_success ctx = false -> (k < n)%Z) /\
    split_message (r ++ summary) 4096 = Some chunks /\
    fst (handle_text_message cfg settings fails llm context tools
           reflections message) =
      [StoreMessage (lit "user") (JStr user_text)
         (Some (AUTHORIZED_USER_ID settings)) (Some (message_id message)); ChatAction]
      ++ map Completion (snd (think cfg llm context user_text))
      ++ [StoreMessage (lit "assistant") (JStr (r ++ summary)) None None]
      ++ map (fun c => Reply c false) chunks.
Proof.
  cbn zeta. intros Hid Hne Hok Hrun Hn.
  destruct (filter_all cs_success ctx) as [Hle Hiff].
  assert (Hsum : steps_summary ctx =
            [NL; NL; 128203%N] ++ lit " Completed "
            ++ int_text (Z.of_nat (length ctx)) ++ lit " steps" ++
            (if forallb cs_success ctx
             then [SP; 8212%N] ++ lit " all successful " ++ [9989%N]
             else [SP; 8212%N; SP]
                  ++ int_text (Z.of_nat (length (filter cs_success ctx)))
                  ++ lit "/" ++ int_text (Z.of_nat (length ctx))
                  ++ lit " successful")).
  { unfold steps_summary. cbn zeta.
    destruct (forallb cs_success ctx) eqn:Eall.
    - replace (length (filter cs_success ctx)) with (length ctx)
        by (symmetry; now apply Hiff).
      now rewrite Z.eqb_refl.
    - destruct (Z.eqb_spec (Z.of_nat (length (filter cs_success ctx)))
                  (Z.of_nat (length ctx))) as [E|E]; [|reflexivity].
      apply Nat2Z.inj in E. apply Hiff in E. discriminate. }
  exists (steps_summary ctx).
  assert (Hshown : strip (r ++ steps_summary ctx) <> []).
  { intros H. apply strip_nil_spaces in H. rewrite forallb_app in H.
    apply andb_true_iff in H. destruct H as [_ H].
    unfold steps_summary in H. cbn in H. discriminate. }
  destruct (safe_reply_sends fails
              [StoreMessage (lit "user") (JStr (strip (text message)))
                 (Some (AUTHORIZED_USER_ID settings)) (Some (message_id message)); ChatAction]
              (r ++ steps_summary ctx))
    as (chunks & _ & _ & Hsplit & _ & _ & _ & _ & _ & _).
  destruct (strip (r ++ steps_summary ctx)) eqn:Estrip; [contradiction|].
  exists chunks. split; [exact Hsum|]. split.
  { intros Hall. destruct (Z.eq_dec (Z.of_nat (length (filter cs_success ctx)))
                             (Z.of_nat (length ctx))) as [E|E]; [|lia].
    apply Nat2Z.inj in E. apply Hiff in E. congruence. }
  split; [exact Hsplit|].
  unfold handle_text_message, is_authorized. rewrite Hid, Z.eqb_refl. cbn [negb].
  destruct (strip (text message)) as [|c0 r0] eqn:Etext; [contradiction|].
  unfold call. rewrite !Hok. cbn [fst]. unfold try_block.
  destruct (think cfg llm context (c0 :: r0)) as [decision calls] eqn:Ethink.
  cbn [fst snd] in *.
  destruct (names_tool _) eqn:Hname.
  - rewrite Hrun.
    assert (Hgt : (Z.of_nat (length ctx) >? 1)%Z = true) by (apply Z.gtb_lt; lia).
    rewrite Hgt. cbn [iadd_str]. unfold respond, call. rewrite Hok.
    unfold safe_reply, reply_text.
    assert (Htr : truthy (JStr (r ++ steps_summary ctx)) = true).
    { destruct (r ++ steps_summary ctx);
        [cbn in Estrip; discriminate | reflexivity]. }
    rewrite Htr. cbn [negb]. rewrite Estrip, Hsplit.
    rewrite send_chunks_delivered by exact Hok.
    cbn [app]. now rewrite <- !app_assoc.
  - exfalso.
    unfold execute_tool_chain in Hrun. cbn [chain_loop] in Hrun.
    unfold chain_turn in Hrun. cbn [step Chain.decision chain_context] in Hrun.
    rewrite Hname in Hrun.
    destruct (0 <? MAX_CHAIN_STEPS cfg)%Z; injection Hrun as _ <-; cbn in Hn; lia.
Qed.

Lemma handler_reports_steps_witness :
  exists summary chunks,
    summary =
      [NL; NL; 128203%N] ++ lit " Completed " ++ int_text 2 ++ lit " steps" ++
      [SP; 8212%N; SP] ++ int_text 1 ++ lit "/" ++ int_text 2 ++ lit " successful" /\
    split_message (lit "All done." ++ summary) 4096 = Some chunks /\
    In (StoreMessage (lit "assistant") (JStr (lit "All done." ++ summary)) None None)
       (fst (handle_text_message CONFIG owner (fun _ => None) MoreSamples.waiting_model []
               MoreSamples.tiring_tools MoreSamples.two_steps
               {| from_user_id := 7; text := lit "wait twice"; message_id := 1 |})).
Proof.
  edestruct (@handler_reports_steps CONFIG owner (fun _ => None)
               MoreSamples.waiting_model [] MoreSamples.tiring_tools
               MoreSamples.two_steps
               {| from_user_id := 7; text := lit "wait twice"; message_id := 1 |})
    as (summary & chunks & Hsum & _ & Hsplit & Hlog).
  - reflexivity.
  - vm_compute. discriminate.
  - reflexivity.
  - vm_compute. reflexivity.
  - vm_compute. reflexivity.
  - exists summary, chunks. split; [exact Hsum|]. split; [exact Hsplit|].
    rewrite Hlog. apply in_or_app. right. apply in_or_app. right.
    apply in_or_app. left. now left.
Defined.

End HandlerFacts.
(** ** The store *)

Module MemoryFacts.
Import Memory StoreNotions.

(** *** Sorting a table that is in the order of its keys *)

Section Keys.

Variable A : Type.
Variable key : A -> Z.

Lemma ascending_weaken (lo lo' : Z) (l : list A) :
  (lo' <= lo)%Z -> ascending key lo l -> ascending key lo' l.
Proof. destruct l; cbn; [auto|]. intros H [H1 H2]. split; [lia | assumption]. Qed.

Lemma ascending_above (lo : Z) (l : list A) :
  ascending key lo l -> Forall (fun x => (lo < key x)%Z) l.
Proof.
  revert lo. induction l as [|x r IH]; intros lo; cbn; [constructor|].
  intros [H1 H2]. constructor; [assumption|].
  apply IH. eapply ascending_weaken; [|eassumption]. lia.
Qed.

Lemma ascending_snoc (lo hi : Z) (l : list A) (x : A) :
  ascending key lo l -> Forall (fun y => (key y <= hi)%Z) l ->
  (lo <= hi)%Z -> (hi < key x)%Z ->
  ascending key lo (l ++ [x]).
Proof.
  revert lo. induction l as [|y r IH]; intros lo; cbn.
  - intros _ _ H1 H2. split; [lia | exact I].
  - intros [Hy Hr] Hall Hlo Hx. inversion Hall; subst.
    split; [assumption|]. apply IH; try assumption.
Qed.

Lemma insert_desc_last (x : A) (l : list A) :
  Forall (fun y => (key x < key y)%Z) l -> insert_desc key x l = l ++ [x].
Proof.
  induction 1 as [|y r Hy _ IH]; cbn; [reflexivity|].
  destruct (Z.ltb_spec (key y) (key x)); [lia|]. now rewrite IH.
Qed.

Lemma order_by_desc_rev (lo : Z) (l : list A) :
  ascending key lo l -> order_by_desc key l = rev l.
Proof.
  revert lo. induction l as [|x r IH]; intros lo; cbn; [reflexivity|].
  intros [_ Hr]. unfold order_by_desc in *. rewrite (IH _ Hr).
  apply insert_desc_last. apply Forall_rev. now apply ascending_above.
Qed.


Lemma keyed_snoc (seq : Z) (l : list A) (x : A) :
  keyed key seq l -> key x = (seq + 1)%Z -> keyed key (seq + 1) (l ++ [x]).
Proof.
  intros (Hseq & Hasc & Hall) Hx. split; [lia|]. split.
  - apply ascending_snoc with (hi := seq); try assumption; lia.
  - apply Forall_app. split.
    + eapply Forall_impl; [|exact Hall]. cbn. lia.
    + constructor; [lia | constructor].
Qed.

Lemma keyed_nil (seq : Z) : (0 <= seq)%Z -> keyed key seq [].
Proof. intros H. split; [exact H|]. split; [exact I | constructor]. Qed.

(** The rows of a table after the first [length - n]: the last [n]. *)
Lemma recent_rows (n : Z) (lo : Z) (l : list A) :
  ascending key lo l ->
  rev (limit n (order_by_desc key l)) =
  if (n <? 0)%Z then l else skipn (length l - Z.to_nat n) l.
Proof.
  intros H. rewrite (order_by_desc_rev _ _ H). unfold limit.
  destruct (n <? 0)%Z; [apply rev_involutive|].
  rewrite firstn_rev. apply rev_involutive.
Qed.

End Keys.

Section KeysMap.

Variable A : Type.
Variable key : A -> Z.

Lemma ascending_map (f : A -> A) (lo : Z) (l : list A) :
  (forall r, key (f r) = key r) -> ascending key lo l -> ascending key lo (map f l).
Proof.
  intros Hf. revert lo. induction l as [|x r IH]; intros lo; cbn; [auto|].
  intros [Hx Hr]. rewrite Hf. split; [assumption | now apply IH].
Qed.

Lemma keyed_map (f : A -> A) (seq : Z) (l : list A) :
  (forall r, key (f r) = key r) -> keyed key seq l -> keyed key seq (map f l).
Proof.
  intros Hf (Hseq & Hasc & Hall). split; [exact Hseq|]. split.
  - now apply ascending_map.
  - apply Forall_map. eapply Forall_impl; [|exact Hall].
    cbn. intros r. now rewrite Hf.
Qed.

End KeysMap.

(** *** Every database built by the methods is consistent *)

Lemma filter_map_same (A : Type) (p : A -> bool) (f : A -> A) (l : list A) :
  (forall r, p (f r) = p r) -> filter p (map f l) = map f (filter p l).
Proof.
  intros Hp. induction l as [|x r IH]; cbn; [reflexivity|].
  rewrite Hp. destruct (p x); cbn; now rewrite IH.
Qed.

Lemma fetchone_none (A : Type) (l : list A) : fetchone l = None -> l = [].
Proof. now destruct l. Qed.

Ltac tables := split; [|split; [|split; [|split]]]; cbn; try assumption.

Lemma apply_consistent (d : db) (o : op) : consistent d -> consistent (apply d o).
Proof.
  intros (Hm & Ha & Ht & Hk & Hf).
  destruct o; cbn [apply].
  - tables. now apply keyed_snoc.
  - tables. now apply keyed_snoc.
  - tables.
  - tables. now apply keyed_snoc.
  - unfold update_task.
    assert (Hupd : forall st sc re er,
              consistent
                (with_tasks
                   (map (fun r =>
                      if (t_id r =? task_id)%Z then {|
                        t_id := t_id r;
                        t_timestamp := t_timestamp r;
                        t_description := t_description r;
                        t_status := or_old st (t_status r);
                        t_steps_completed := or_old sc (t_steps_completed r);
                        t_steps_total := t_steps_total r;
                        t_result := or_old re (t_result r);
                        t_error := or_old er (t_error r);
                        t_metadata := t_metadata r |}
                      else r) (tasks d)) (tasks_seq d) d)).
    { intros st sc re er. tables.
      apply keyed_map; [|assumption].
      intros r. now destruct (t_id r =? task_id)%Z. }
    destruct status, steps_completed, result, error;
      first [apply Hupd | tables].
  - unfold store_knowledge.
    destruct (fetchone (filter (same_fact category key) (knowledge d)))
      as [existing|] eqn:Efetch.
    + tables.
      * apply keyed_map; [|assumption].
        intros r. now destruct (k_id r =? k_id existing)%Z.
      * intros c k. rewrite filter_map_same, length_map; [apply Hf|].
        intros r. now destruct (k_id r =? k_id existing)%Z.
    + apply fetchone_none in Efetch. tables.
      * now apply keyed_snoc.
      * intros c k. rewrite filter_app, length_app. cbn [filter].
        destruct (same_fact c k _) eqn:Esame; cbn [length]; [|specialize (Hf c k); lia].
        unfold same_fact in Esame. cbn in Esame.
        apply andb_true_iff in Esame. destruct Esame as [Ec Ek].
        apply str_eqb_eq in Ec, Ek. subst c k. rewrite Efetch. cbn. lia.
  - destruct Hm as (Hm & _), Ha as (Ha & _), Ht as (Ht & _), Hk as (Hk & _).
    tables; try (now apply keyed_nil).
    intros c k. cbn. lia.
Qed.

Lemma run_consistent (ops : list op) : consistent (run ops).
Proof.
  unfold run.
  assert (H : consistent empty).
  { tables; try (apply keyed_nil; lia). intros c k. cbn. lia. }
  revert H. generalize empty. induction ops as [|o ops IH]; intros d Hd; [exact Hd|].
  cbn [fold_left]. apply IH. now apply apply_consistent.
Qed.

(** *** The messages *)

Lemma recent_messages_snoc (d : db) (role content : str)
    (user_id message_id : option Z) (metadata : option dict) (now : str) (n : Z) :
  consistent d -> (1 <= n)%Z ->
  get_recent_messages n
    (store_message role content user_id message_id metadata now d) =
  get_recent_messages (n - 1) d
  ++ [{| v_role := role; v_content := content; v_timestamp := now |}].
Proof.
  intros Hd Hn.
  assert (Hd' : consistent
                  (store_message role content user_id message_id metadata now d)).
  { apply (@apply_consistent d
             (StoreMessage role content user_id message_id metadata now) Hd). }
  destruct Hd as ((_ & Hasc & _) & _). destruct Hd' as ((_ & Hasc' & _) & _).
  unfold get_recent_messages.
  rewrite (@recent_rows _ _ _ _ _ Hasc'), (@recent_rows _ _ _ _ _ Hasc).
  cbn [messages store_message].
  destruct (Z.ltb_spec n 0); [lia|].
  destruct (Z.ltb_spec (n - 1) 0); [lia|].
  rewrite skipn_app, map_app, length_app. cbn [length].
  replace (length (messages d) + 1 - Z.to_nat n - length (messages d))%nat
    with 0%nat by lia.
  replace (length (messages d) + 1 - Z.to_nat n)%nat
    with (length (messages d) - Z.to_nat (n - 1))%nat by lia.
  reflexivity.
Qed.

(** X19: the recent messages, for every database built by the methods.
    After [store_message], the [n] most recent messages are the [n - 1]
    most recent ones of before followed by the new message, with its role,
    its content and the time of the call; so [get_recent_messages] lists
    the last messages stored, oldest first.  A negative limit is no
    limit, the limit 0 gives nothing, the number of rows returned is the
    limit or the number of messages stored if that is smaller, and
    [get_message_count] counts one more message. *)
Theorem recent_messages_after_store (ops : list op) (role content : str)
    (user_id message_id : option Z) (metadata : option dict) (now : str) (n : Z) :
  let d := run ops in
  let d' := store_message role content user_id message_id metadata now d in
  let new := {| v_role := role; v_content := content; v_timestamp := now |} in
  ((1 <= n)%Z ->
     get_recent_messages n d' = get_recent_messages (n - 1) d ++ [new]) /\
  ((n < 0)%Z -> get_recent_messages n d' = get_recent_messages n d ++ [new]) /\
  get_recent_messages 0 d' = [] /\
  Z.of_nat (length (get_recent_messages n d)) =
    (if (n <? 0)%Z then get_message_count d else Z.min n (get_message_count d)) /\
  get_message_count d' = (get_message_count d + 1)%Z.
Proof.
  cbn zeta. set (d := run ops).
  pose proof (run_consistent ops) as Hd. fold d in Hd.
  assert (Hd' : consistent
                  (store_message role content user_id message_id metadata now d)).
  { apply (@apply_consistent d
             (StoreMessage role content user_id message_id metadata now) Hd). }
  destruct Hd as ((_ & Hasc & _) & _). destruct Hd' as ((_ & Hasc' & _) & _).
  unfold get_recent_messages, get_message_count.
  rewrite !(@recent_rows _ _ _ _ _ Hasc'), !(@recent_rows _ _ _ _ _ Hasc).
  cbn [messages store_message]. rewrite length_app. cbn [length].
  repeat split.
  - intros Hn. destruct (Z.ltb_spec n 0); [lia|].
    destruct (Z.ltb_spec (n - 1) 0); [lia|].
    rewrite skipn_app, map_app.
    replace (length (messages d) + 1 - Z.to_nat n - length (messages d))%nat
      with 0%nat by lia.
    replace (length (messages d) + 1 - Z.to_nat n)%nat
      with (length (messages d) - Z.to_nat (n - 1))%nat by lia.
    reflexivity.
  - intros Hn. destruct (Z.ltb_spec n 0); [|lia]. now rewrite map_app.
  - cbn [Z.ltb Z.compare Z.to_nat]. rewrite Nat.sub_0_r.
    replace (length (messages d) + 1)%nat
      with (length (messages d ++ [{|
              m_id := messages_seq d + 1; m_timestamp := now; m_role := role;
              m_content := content; m_user_id := user_id;
              m_message_id := message_id;
              m_metadata := match metadata with
                            | Some ((_ :: _) as m) => m
                            | _ => []
                            end |}])) by (rewrite length_app; reflexivity).
    now rewrite skipn_all.
  - rewrite length_map. destruct (Z.ltb_spec n 0); [reflexivity|].
    rewrite length_skipn. lia.
  - lia.
Qed.

(** *** The state *)

Lemma get_state_upsert (key value now : str) (rows : list state_row) :
  fetchone (filter (fun r => str_eqb (s_key r) key)
              (upsert_state key value now rows)) =
  Some {| s_key := key; s_value := value; s_updated_at := now |}.
Proof.
  unfold upsert_state.
  destruct (existsb _ rows) eqn:Eex.
  - induction rows as [|r rows IH]; [discriminate|].
    cbn [existsb] in Eex. cbn [map filter].
    destruct (str_eqb (s_key r) key) eqn:Er.
    + cbn. now rewrite str_eqb_refl.
    + cbn [orb] in Eex. rewrite Er. now apply IH.
  - induction rows as [|r rows IH]; cbn.
    + now rewrite str_eqb_refl.
    + cbn [existsb] in Eex. apply orb_false_iff in Eex. destruct Eex as [Er Eex].
      rewrite Er. now apply IH.
Qed.

Lemma filter_upsert_other (key key' value now : str) (rows : list state_row) :
  key' <> key ->
  filter (fun r => str_eqb (s_key r) key') (upsert_state key value now rows) =
  filter (fun r => str_eqb (s_key r) key') rows.
Proof.
  intros Hne. apply str_eqb_neq in Hne. unfold upsert_state.
  destruct (existsb _ rows).
  - induction rows as [|r rows IH]; [reflexivity|]. cbn [map filter].
    destruct (str_eqb (s_key r) key) eqn:Er.
    + apply str_eqb_eq in Er. cbn [s_key]. rewrite Er.
      assert (Hk : str_eqb key key' = false).
      { apply str_eqb_neq. apply str_eqb_neq in Hne. congruence. }
      rewrite Hk. exact IH.
    + destruct (str_eqb (s_key r) key'); now rewrite IH.
  - rewrite filter_app. cbn.
    assert (Hk : str_eqb key key' = false).
    { apply str_eqb_neq. apply str_eqb_neq in Hne. congruence. }
    rewrite Hk. apply app_nil_r.
Qed.

(** X20: the state is a map from keys to texts.  After [set_state] the key
    reads as the value written, whatever was there before; every other
    key reads as before; a key never written, or written before the last
    [clear_memory] only, reads as [None]; and writing a key again does not
    add a row. *)
Theorem state_round_trip (d : db) (key value now : str) :
  get_state key (set_state key value now d) = Some value /\
  (forall key', key' <> key ->
     get_state key' (set_state key value now d) = get_state key' d) /\
  get_state key empty = None /\
  get_state key (clear_memory d) = None /\
  (get_state key d <> None ->
     length (state (set_state key value now d)) = length (state d)).
Proof.
  split; [|split; [|split; [|split]]].
  - unfold get_state, set_state. cbn [state with_state].
    now rewrite get_state_upsert.
  - intros key' Hne. unfold get_state, set_state. cbn [state with_state].
    now rewrite filter_upsert_other.
  - reflexivity.
  - reflexivity.
  - unfold get_state, set_state, upsert_state. cbn [state with_state].
    destruct (existsb _ (state d)) eqn:Eex; [now rewrite length_map|].
    intros H. exfalso. apply H.
    replace (filter (fun r => str_eqb (s_key r) key) (state d)) with (@nil state_row);
      [reflexivity|].
    symmetry. clear H. induction (state d) as [|r rows IH]; [reflexivity|].
    cbn in *. apply orb_false_iff in Eex. destruct Eex as [-> Eex]. now apply IH.
Qed.

(** *** The tasks *)

Lemma ascending_key_inj (A : Type) (key : A -> Z) (lo : Z) (l : list A) (x y : A) :
  ascending key lo l -> In x l -> In y l -> key x = key y -> x = y.
Proof.
  revert lo. induction l as [|z r IH]; intros lo; cbn; [contradiction|].
  intros [Hz Hr] [<-|Hx] [<-|Hy] E; try reflexivity.
  - apply ascending_above in Hr. rewrite Forall_forall in Hr.
    apply Hr in Hy. lia.
  - apply ascending_above in Hr. rewrite Forall_forall in Hr.
    apply Hr in Hx. lia.
  - eapply IH; eassumption.
Qed.

Lemma map_id_on (A : Type) (f : A -> A) (l : list A) :
  (forall x, In x l -> f x = x) -> map f l = l.
Proof.
  induction l as [|x r IH]; cbn; [reflexivity|].
  intros H. rewrite H by now left. rewrite IH; [reflexivity|].
  intros y Hy. apply H. now right.
Qed.


(** *** The knowledge *)

Lemma filter_one (A : Type) (p : A -> bool) (l : list A) (x : A) :
  fetchone (filter p l) = Some x -> (length (filter p l) <= 1)%nat ->
  filter p l = [x].
Proof.
  destruct (filter p l) as [|y [|z r]]; cbn; try discriminate.
  - intros H _. now injection H as ->.
  - intros _ H. lia.
Qed.

(** X22: the knowledge holds one row for each pair of a category and a
    key, for every database built by the methods.  After
    [store_knowledge] the pair has exactly one row, which holds the value,
    the confidence, the source and the time of this call; the rows of
    every other pair are as before; and the table has one row more
    exactly when the pair was not there. *)
Theorem knowledge_upsert (ops : list op) (category key value : str)
    (confidence : Q) (source now : str) :
  let d := run ops in
  let d' := store_knowledge category key value confidence source now d in
  (exists row,
     filter (same_fact category key) (knowledge d') = [row] /\
     k_value row = value /\ k_confidence row = confidence /\
     k_source row = source /\ k_timestamp row = now) /\
  (forall c k, c <> category \/ k <> key ->
     filter (same_fact c k) (knowledge d') = filter (same_fact c k) (knowledge d)) /\
  length (knowledge d') =
    (length (knowledge d) +
     (if existsb (same_fact category key) (knowledge d) then 0 else 1))%nat.
Proof.
  cbn zeta. set (d := run ops).
  pose proof (run_consistent ops) as Hd. fold d in Hd.
  destruct Hd as (_ & _ & _ & (Hseq & Hasc & Hall) & Hone).
  unfold store_knowledge.
  destruct (fetchone (filter (same_fact category key) (knowledge d)))
    as [existing|] eqn:Efetch.
  - pose proof (filter_one _ _ Efetch (Hone category key)) as Hfilter.
    assert (Hin : In existing (knowledge d) /\ same_fact category key existing = true).
    { apply filter_In. rewrite Hfilter. now left. }
    destruct Hin as [Hin Hsame].
    cbn [knowledge with_knowledge].
    set (f := fun r : knowledge_row => if (k_id r =? k_id existing)%Z then _ else r).
    assert (Hf : forall c k r, same_fact c k (f r) = same_fact c k r).
    { intros c k r. unfold f. now destruct (k_id r =? k_id existing)%Z. }
    split; [|split].
    + eexists. rewrite filter_map_same by apply Hf. rewrite Hfilter. cbn [map].
      unfold f. rewrite Z.eqb_refl. repeat split.
    + intros c k Hck. rewrite filter_map_same by apply Hf.
      apply map_id_on. intros r Hr. apply filter_In in Hr. destruct Hr as [Hr Hrs].
      unfold f. destruct (Z.eqb_spec (k_id r) (k_id existing)) as [E|E]; [|reflexivity].
      exfalso. assert (r = existing) by (eapply ascending_key_inj; eassumption).
      subst r. unfold same_fact in *.
      apply andb_true_iff in Hsame, Hrs.
      destruct Hsame as [H1 H2], Hrs as [H3 H4].
      apply str_eqb_eq in H1, H2, H3, H4.
      destruct Hck as [Hck|Hck]; apply Hck; congruence.
    + rewrite length_map.
      assert (Hex : existsb (same_fact category key) (knowledge d) = true).
      { apply existsb_exists. now exists existing. }
      rewrite Hex. lia.
  - apply fetchone_none in Efetch. cbn [knowledge with_knowledge].
    split; [|split].
    + eexists. rewrite filter_app, Efetch. cbn [filter app].
      unfold same_fact at 1. cbn [k_category k_key]. rewrite !str_eqb_refl.
      cbn [andb]. repeat split.
    + intros c k Hck. rewrite filter_app. cbn [filter].
      unfold same_fact at 2. cbn [k_category k_key].
      assert (Hsym : str_eqb category c && str_eqb key k = false).
      { destruct (str_eqb category c) eqn:E1; [|reflexivity].
        destruct (str_eqb key k) eqn:E2; [|reflexivity].
        apply str_eqb_eq in E1, E2. subst. destruct Hck; congruence. }
      rewrite Hsym. apply app_nil_r.
    + rewrite length_app. cbn [length].
      assert (Hex : existsb (same_fact category key) (knowledge d) = false).
      { destruct (existsb _ _) eqn:E; [|reflexivity].
        apply existsb_exists in E. destruct E as (x & Hx & Hs).
        assert (Hin : In x (filter (same_fact category key) (knowledge d)))
          by (apply filter_In; now split).
        rewrite Efetch in Hin. contradiction. }
      rewrite Hex. reflexivity.
Qed.

End MemoryFacts.
(** ** The background loops *)

Module LoopFacts.
Import Memory World Cognition Watchdog StoreNotions.

Section Loops.

Variable settings : Settings.
Variable clock : nat -> str.



Lemma get_state_set_same (key value now : str) (d : db) :
  get_state key (set_state key value now d) = Some value.
Proof.
  unfold get_state, set_state. cbn [state with_state].
  now rewrite MemoryFacts.get_state_upsert.
Qed.

Lemma get_state_set_other (key key' value now : str) (d : db) :
  str_eqb key' key = false ->
  get_state key' (set_state key value now d) = get_state key' d.
Proof.
  intros H. apply str_eqb_neq in H. unfold get_state, set_state.
  cbn [state with_state]. now rewrite MemoryFacts.filter_upsert_other.
Qed.

Lemma timed_set_state_tables (key value : str) (w : world) :
  messages (store (timed clock (set_state key value) w)) = messages (store w) /\
  actions (store (timed clock (set_state key value) w)) = actions (store w).
Proof. split; reflexivity. Qed.


Lemma check_system_health_tables (h : health) (w : world) :
  messages (store (_check_system_health clock h w)) = messages (store w) /\
  actions (store (_check_system_health clock h w)) = actions (store w).
Proof.
  unfold _check_system_health.
  destruct (disk h) as [[p f]|], (db_size_mb h) as [s|]; split; reflexivity.
Qed.

Lemma tick_tables (h : health) (c : CognitionLoop) (w : world) :
  messages (store (_tick clock h c w)) = messages (store w) /\
  actions (store (_tick clock h c w)) = actions (store w).
Proof.
  unfold _tick, utcnow. destruct (_tick_count c mod 5 =? 0)%Z.
  - match goal with
    | |- context [_check_system_health clock h ?x] =>
        destruct (check_system_health_tables h x) as [-> ->]
    end.
    split; reflexivity.
  - split; reflexivity.
Qed.


(** *** The watchdog *)

Lemma restart_inv (g : Watchdog) (c : CognitionLoop) (w : world) :
  let '(g', c', w') := restart settings clock g c w in
  exists rows,
    actions (store w') = actions (store w) ++ rows /\
    (_restart_count g' = _restart_count g + Z.of_nat (length rows))%Z /\
    Forall restart_row rows /\
    (_restart_count g <= Z.max 0 (MAX_RESTART_ATTEMPTS settings) ->
     _restart_count g' <= Z.max 0 (MAX_RESTART_ATTEMPTS settings))%Z /\
    state (store w') = state (store w).
Proof.
  unfold restart. destruct (negb (is_running c)).
  - destruct (Z.ltb_spec (_restart_count g) (MAX_RESTART_ATTEMPTS settings)).
    + eexists [_]. cbn. repeat split; try lia.
      constructor; [|constructor]. now split.
    + exists []. cbn. rewrite app_nil_r. repeat split; try lia. constructor.
  - exists []. cbn. rewrite app_nil_r. repeat split; try lia. constructor.
Qed.

Lemma happen_inv (s : Watchdog * CognitionLoop * world) (e : happening) :
  let '(g, c, w) := s in
  let '(g', c', w') := happen settings clock s e in
  exists rows,
    actions (store w') = actions (store w) ++ rows /\
    (_restart_count g' = _restart_count g + Z.of_nat (length rows))%Z /\
    Forall restart_row rows /\
    (_restart_count g <= Z.max 0 (MAX_RESTART_ATTEMPTS settings) ->
     _restart_count g' <= Z.max 0 (MAX_RESTART_ATTEMPTS settings))%Z.
Proof.
  destruct s as [[g c] w]. destruct e as [age_raises|h| |]; cbn [happen].
  - unfold _check_health. pose proof (restart_inv g c w) as H.
    destruct (restart settings clock g c w) as [[g1 c1] w1].
    destruct H as (rows & Ha & Hc & Hr & Hb & _).
    destruct age_raises; exists rows; now repeat split.
  - destruct (is_running c); cbn [loop_turn].
    + exists []. rewrite app_nil_r. destruct (tick_tables h c w) as [_ Hn].
      split; [exact Hn|]. cbn. repeat split; try lia. constructor.
    + exists []. rewrite app_nil_r. cbn. repeat split; try lia. constructor.
  - exists []. cbn. rewrite app_nil_r. repeat split; try lia. constructor.
  - exists []. cbn. rewrite app_nil_r. repeat split; try lia. constructor.
Qed.

Lemma happenings_inv (es : list happening) :
  forall s : Watchdog * CognitionLoop * world,
  let '(g, c, w) := s in
  let '(g', c', w') := happenings settings clock es s in
  exists rows,
    actions (store w') = actions (store w) ++ rows /\
    (_restart_count g' = _restart_count g + Z.of_nat (length rows))%Z /\
    Forall restart_row rows /\
    (_restart_count g <= Z.max 0 (MAX_RESTART_ATTEMPTS settings) ->
     _restart_count g' <= Z.max 0 (MAX_RESTART_ATTEMPTS settings))%Z.
Proof.
  unfold happenings. induction es as [|e es IH]; intros [[g c] w]; cbn [fold_left].
  - exists []. rewrite app_nil_r. cbn. repeat split; try lia. constructor.
  - pose proof (happen_inv (g, c, w) e) as H1. cbn beta iota in H1.
    destruct (happen settings clock (g, c, w) e) as [[g1 c1] w1].
    destruct H1 as (rows1 & Ha1 & Hc1 & Hr1 & Hb1).
    specialize (IH (g1, c1, w1)). cbn beta iota in IH.
    destruct (fold_left (happen settings clock) es (g1, c1, w1)) as [[g2 c2] w2].
    destruct IH as (rows2 & Ha2 & Hc2 & Hr2 & Hb2).
    exists (rows1 ++ rows2). rewrite Ha2, Ha1, <- app_assoc, length_app.
    split; [reflexivity|]. split; [lia|]. split; [|now auto].
    apply Forall_app. now split.
Qed.

End Loops.

(** X24: the watchdog never starts the cognition loop more than
    [MAX_RESTART_ATTEMPTS] times.  Whatever happens in whatever order,
    health checks, ticks, and calls of [stop] and [start] from outside,
    the restart count stays between 0 and the limit, and it is the number
    of actions that the run has added to the store, each of which records
    a restart of the watchdog as a success. *)
Theorem watchdog_restarts_bounded (settings : Settings) (clock : nat -> str)
    (es : list happening) (c : CognitionLoop) (w : world) :
  let '(g', c', w') := happenings settings clock es (new_watchdog, c, w) in
  (0 <= _restart_count g' <= Z.max 0 (MAX_RESTART_ATTEMPTS settings))%Z /\
  exists rows,
    actions (store w') = actions (store w) ++ rows /\
    Z.of_nat (length rows) = _restart_count g' /\
    Forall restart_row rows.
Proof.
  pose proof (happenings_inv settings clock es (new_watchdog, c, w)) as H.
  cbn beta iota in H.
  destruct (happenings settings clock es (new_watchdog, c, w)) as [[g' c'] w'].
  destruct H as (rows & Ha & Hc & Hr & Hb). cbn in Hc, Hb.
  split; [lia|]. exists rows. repeat split; try assumption. lia.
Qed.

(** X25: one health check.  A cognition loop that is running is left
    alone.  One that is not running is started, the count goes up by one
    and the restart is stored, as long as the count is below
    [MAX_RESTART_ATTEMPTS]; from then on the check leaves the loop
    stopped.  When the check of the heartbeat does not raise, the store
    then holds the restart count under its key, and under the key of the
    last check a time read during the check. *)
Theorem check_health_restarts (settings : Settings) (clock : nat -> str)
    (age_raises : bool) (g : Watchdog) (c : CognitionLoop) (w : world) :
  let '(g', c', w') := _check_health settings clock age_raises g c w in
  (is_running c = true ->
     g' = g /\ c' = c /\ actions (store w') = actions (store w)) /\
  (is_running c = false ->
     if (_restart_count g <? MAX_RESTART_ATTEMPTS settings)%Z
     then is_running c' = true /\
          _restart_count g' = (_restart_count g + 1)%Z /\
          get_action_count (store w') = (get_action_count (store w) + 1)%Z
     else g' = g /\ c' = c /\ actions (store w') = actions (store w)) /\
  (age_raises = false ->
     get_state (lit "watchdog_restart_count") (store w')
       = Some (int_text (_restart_count g')) /\
     exists n, (readings w <= n < readings w')%nat /\
       get_state (lit "watchdog_last_check") (store w') = Some (clock n)).
Proof.
  unfold _check_health, restart.
  destruct (is_running c) eqn:Erun; cbn [negb].
  - destruct age_raises; cbn.
    + repeat split; discriminate.
    + split; [now repeat split|]. split; [discriminate|]. intros _. split.
      * apply get_state_set_same.
      * exists (readings w). split; [cbn; lia|].
        rewrite get_state_set_other by reflexivity. apply get_state_set_same.
  - destruct (_restart_count g <? MAX_RESTART_ATTEMPTS settings)%Z eqn:Elt.
    + assert (Hstart : is_running (start c) = true).
      { unfold start, is_running in *. now rewrite Erun. }
      destruct age_raises; cbn.
      * split; [discriminate|]. split; [|discriminate]. intros _.
        split; [exact Hstart|]. split; [reflexivity|].
        unfold get_action_count, set_state, with_state, store_action. cbn [actions]. rewrite length_app. cbn [length]. lia.
      * split; [discriminate|]. split.
        -- intros _. split; [exact Hstart|]. split; [reflexivity|].
           unfold get_action_count, set_state, with_state, store_action. cbn [actions]. rewrite length_app. cbn [length]. lia.
        -- intros _. split.
           ++ apply get_state_set_same.
           ++ exists (S (readings w)). split; [cbn; lia|].
              rewrite get_state_set_other by reflexivity.
              apply get_state_set_same.
    + destruct age_raises; cbn.
      * split; [congruence|]. split; [now repeat split | discriminate].
      * split; [congruence|]. split; [now repeat split|]. intros _. split.
        -- apply get_state_set_same.
        -- exists (readings w). split; [cbn; lia|].
           rewrite get_state_set_other by reflexivity.
           apply get_state_set_same.
Qed.


End LoopFacts.

(** ** execute_cmd and read_file *)

Module ToolFunFacts.
Import Tools ToolFuns ToolNotions.

Lemma truncated_cases (max_len : Z) (marker s : str) :
  (0 <= max_len)%Z ->
  ((len s <= max_len)%Z /\ truncated max_len marker s = s) \/
  ((max_len < len s)%Z /\
   truncated max_len marker s = slice_to s max_len ++ marker /\
   len (truncated max_len marker s) = (max_len + len marker)%Z).
Proof.
  intros Hm. unfold truncated.
  destruct (len s >? max_len)%Z eqn:E.
  - right. apply Z.gtb_lt in E. split; [exact E|].
    split; [reflexivity|]. unfold slice_to.
    destruct (0 <=? max_len)%Z eqn:E0; [|apply Z.leb_gt in E0; lia].
    unfold len in *. rewrite length_app, length_firstn. lia.
  - left. rewrite Z.gtb_ltb in E. apply Z.ltb_ge in E. now split.
Qed.

Lemma strip_trimmed (s : str) : trimmed (strip s).
Proof.
  unfold trimmed, strip. split.
  - destruct (lstrip s) as [|c r] eqn:E; [exact I|].
    pose proof (lstrip_head _ E) as Hc.
    change (c :: r) with ([] ++ c :: r).
    rewrite rstrip_app_nonspace by exact Hc. exact Hc.
  - unfold rstrip. rewrite rev_involutive.
    destruct (lstrip (rev (lstrip s))) as [|c r] eqn:E; [exact I|].
    eapply lstrip_head. exact E.
Qed.

Lemma truncated_trimmed (max_len : Z) (s : str) :
  (1 <= max_len)%Z -> trimmed s ->
  trimmed (truncated max_len OUTPUT_TRUNCATED s).
Proof.
  intros Hm [Hhead Hlast].
  destruct (@truncated_cases max_len OUTPUT_TRUNCATED s) as [[_ ->]|(Hlong & -> & _)].
  - lia.
  - now split.
  - split.
    + destruct s as [|c r]; [unfold len in Hlong; cbn in Hlong; lia|].
      unfold slice_to.
      destruct (0 <=? max_len)%Z eqn:E0; [|apply Z.leb_gt in E0; lia].
      destruct (Z.to_nat max_len) eqn:En; [lia|]. exact Hhead.
    + rewrite rev_app_distr. reflexivity.
Qed.

(** X17: what [execute_cmd] returns.  The result succeeds exactly when
    its return code is 0; a command that timed out or could not be run
    has the return code -1 and an empty [stdout].  For a process that
    ended, the return code is that of the process, and [stdout] and
    [stderr] are its two outputs stripped, or their first 8000
    characters followed by a marker when they are longer: so each has at
    most 8023 characters, and neither begins or ends with whitespace.
    [execute_powershell] is [execute_cmd] on the script wrapped in a call
    of PowerShell. *)
Theorem execute_cmd_result (settings : Settings) (shell : str -> process)
    (command : str) :
  let r := execute_cmd settings shell command in
  let cut := fun s =>
    if (len (strip s) <=? 8000)%Z then strip s
    else slice_to (strip s) 8000 ++ OUTPUT_TRUNCATED in
  (success r = true <-> return_code r = 0%Z) /\
  (len (stdout r) <= 8023)%Z /\
  image_path r = [] /\ file_path r = [] /\
  (forall out err rc, shell command = Exited out err rc ->
     return_code r = rc /\ stdout r = cut out /\ stderr r = cut err /\
     (len (stderr r) <= 8023)%Z /\ trimmed (stdout r) /\ trimmed (stderr r)) /\
  ((forall out err rc, shell command <> Exited out err rc) ->
     success r = false /\ stdout r = [] /\ return_code r = (-1)%Z) /\
  (forall script,
     execute_powershell settings shell script =
     execute_cmd settings shell
       (litq "powershell.exe -NoProfile -ExecutionPolicy Bypass -Command '"
        ++ script ++ [QUOTE])).
Proof.
  cbn zeta.
  assert (Hcut : forall s,
            truncated 8000 OUTPUT_TRUNCATED (strip s) =
            (if (len (strip s) <=? 8000)%Z then strip s
             else slice_to (strip s) 8000 ++ OUTPUT_TRUNCATED) /\
            (len (truncated 8000 OUTPUT_TRUNCATED (strip s)) <= 8023)%Z /\
            trimmed (truncated 8000 OUTPUT_TRUNCATED (strip s))).
  { intros s. split; [|split].
    - destruct (@truncated_cases 8000 OUTPUT_TRUNCATED (strip s))
        as [[Hle ->]|(Hlt & -> & _)]; [lia | |].
      + apply Z.leb_le in Hle. now rewrite Hle.
      + apply Z.leb_gt in Hlt. now rewrite Hlt.
    - destruct (@truncated_cases 8000 OUTPUT_TRUNCATED (strip s))
        as [[Hle ->]|(_ & _ & ->)]; [lia | lia |].
      change (len OUTPUT_TRUNCATED) with 23%Z. lia.
    - apply truncated_trimmed; [lia | apply strip_trimmed]. }
  unfold execute_cmd.
  destruct (shell command) as [out err rc| |e]; cbn [result success stdout stderr
    return_code image_path file_path].
  - destruct (Hcut out) as (Ho1 & Ho2 & Ho3), (Hcut err) as (He1 & He2 & He3).
    split; [apply Z.eqb_eq|]. split; [exact Ho2|]. split; [reflexivity|].
    split; [reflexivity|]. split; [|split; [|reflexivity]].
    + intros out' err' rc' H. injection H as E1 E2 E3. subst out' err' rc'.
      cbv beta. split; [reflexivity|]. split; [exact Ho1|]. split; [exact He1|].
      split; [exact He2|]. split; [exact Ho3 | exact He3].
    + intros H. exfalso. now apply (H out err rc).
  - split; [split; discriminate|]. split; [unfold len; cbn; lia|].
    split; [reflexivity|]. split; [reflexivity|].
    split; [discriminate|]. split; [intros; now repeat split | reflexivity].
  - split; [split; discriminate|]. split; [unfold len; cbn; lia|].
    split; [reflexivity|]. split; [reflexivity|].
    split; [discriminate|]. split; [intros; now repeat split | reflexivity].
Qed.

(** *** read_file *)

Lemma readlines_from_concat (s : str) :
  forall cur, concat (readlines_from cur s) = rev cur ++ s.
Proof.
  induction s as [|c r IH]; intros cur; cbn [readlines_from].
  - destruct cur; cbn [concat]; [reflexivity|]. now rewrite !app_nil_r.
  - destruct (c =? NL)%N.
    + cbn [concat rev]. rewrite IH. cbn [rev app]. now rewrite <- app_assoc.
    + rewrite IH. cbn [rev]. now rewrite <- app_assoc.
Qed.

Lemma readlines_from_lines (s : str) :
  forall cur, ~ In NL cur ->
    Forall (is_line true) (readlines_from cur s) /\
    Forall (is_line false) (removelast (readlines_from cur s)).
Proof.
  induction s as [|c r IH]; intros cur Hcur; cbn [readlines_from].
  - destruct cur as [|x cur']; [split; constructor|].
    split; [|constructor]. constructor; [|constructor].
    exists (rev (x :: cur')). split; [now rewrite <- in_rev|].
    right. split; [reflexivity|]. split; [reflexivity|].
    intros H. apply (f_equal (@length char)) in H.
    rewrite length_rev in H. discriminate.
  - destruct (N.eqb_spec c NL) as [->|Hne].
    + destruct (IH [] (fun H => H)) as [Hall Hinit].
      assert (Hline : forall last, is_line last (rev (NL :: cur))).
      { intros last. exists (rev cur). split; [now rewrite <- in_rev|].
        left. reflexivity. }
      split; [constructor; [apply Hline | exact Hall]|].
      destruct (readlines_from [] r) as [|l ls] eqn:E; [constructor|].
      change (removelast (rev (NL :: cur) :: l :: ls))
        with (rev (NL :: cur) :: removelast (l :: ls)).
      constructor; [apply Hline | exact Hinit].
    + apply IH. intros [H|H]; [congruence | contradiction].
Qed.

Lemma py_slice_range (A : Type) (l : list A) (a b : Z) :
  (1 <= a <= b)%Z ->
  py_slice l (a - 1) b =
  firstn (Z.to_nat (b - a + 1)) (skipn (Z.to_nat (a - 1)) l).
Proof.
  intros Hab. unfold py_slice, slice_index.
  destruct (Z.ltb_spec (a - 1) 0); [lia|].
  destruct (Z.ltb_spec b 0); [lia|].
  destruct (Z_lt_le_dec (a - 1) (Z.of_nat (length l))) as [Hlt|Hge].
  - replace (Z.to_nat (Z.min (a - 1) (Z.of_nat (length l))))
      with (Z.to_nat (a - 1)) by lia.
    destruct (Z_le_gt_dec b (Z.of_nat (length l))) as [Hb|Hb].
    + f_equal. lia.
    + rewrite !firstn_all2; [reflexivity | |]; rewrite length_skipn; lia.
  - rewrite !skipn_all2 by lia. now rewrite !firstn_nil.
Qed.

Lemma py_slice_from (A : Type) (l : list A) (a : Z) :
  (1 <= a)%Z ->
  py_slice l (a - 1) (Z.of_nat (length l)) = skipn (Z.to_nat (a - 1)) l.
Proof.
  intros Ha. unfold py_slice, slice_index.
  destruct (Z.ltb_spec (a - 1) 0); [lia|].
  destruct (Z.ltb_spec (Z.of_nat (length l)) 0); [lia|].
  destruct (Z_lt_le_dec (a - 1) (Z.of_nat (length l))) as [Hlt|Hge].
  - replace (Z.to_nat (Z.min (a - 1) (Z.of_nat (length l))))
      with (Z.to_nat (a - 1)) by lia.
    apply firstn_all2. rewrite length_skipn. lia.
  - rewrite !skipn_all2 by lia. now rewrite firstn_nil.
Qed.

(** X18: [read_file] on a file that can be read.  The lines of the file
    put together are its text; each holds no newline but at its end, and
    only the last may lack one.  The result succeeds with at most 10021
    characters: the text asked for, cut to its first 10000 characters and
    a marker when it is longer.  With [start_line] [a] and [end_line] [b],
    [1 <= a <= b], the text asked for is the lines numbered [a] to [b],
    counted from 1, as many of them as the file has; without [end_line] it
    is the lines from [a] on.  A [start_line] of 0 is read as 1, and
    alone it asks for the whole file, as no range does. *)
Theorem read_file_lines (open : str -> opened) (path text : str) :
  open path = Opened text ->
  let lines := readlines text in
  let shown := truncated 10000 FILE_TRUNCATED in
  concat lines = text /\
  Forall (is_line true) lines /\ Forall (is_line false) (removelast lines) /\
  (forall a b, (1 <= a <= b)%Z ->
     stdout (read_file open path (Some a) (Some b)) =
     shown (concat (firstn (Z.to_nat (b - a + 1)) (skipn (Z.to_nat (a - 1)) lines)))) /\
  (forall a, (1 <= a)%Z ->
     stdout (read_file open path (Some a) None) =
     shown (concat (skipn (Z.to_nat (a - 1)) lines))) /\
  stdout (read_file open path None None) = shown text /\
  read_file open path (Some 0%Z) None = read_file open path None None /\
  (forall e, read_file open path (Some 0%Z) e = read_file open path (Some 1%Z) e) /\
  (forall start_line end_line,
     let r := read_file open path start_line end_line in
     success r = true /\ return_code r = 0%Z /\ stderr r = [] /\
     (len (stdout r) <= 10021)%Z).
Proof.
  intros Hopen. cbn zeta.
  assert (Hcat : concat (readlines text) = text).
  { unfold readlines. now rewrite readlines_from_concat. }
  destruct (@readlines_from_lines text [] (fun H => H)) as [Hall Hinit].
  split; [exact Hcat|]. split; [exact Hall|]. split; [exact Hinit|].
  unfold read_file. rewrite Hopen. cbn [stdout result].
  split; [|split; [|split; [|split; [|split]]]].
  - intros a b Hab. cbn [int_or].
    destruct (Z.eqb_spec a 0); [lia|]. destruct (Z.eqb_spec b 0); [lia|].
    now rewrite py_slice_range.
  - intros a Ha. cbn [int_or]. destruct (Z.eqb_spec a 0); [lia|].
    now rewrite py_slice_from.
  - reflexivity.
  - cbn [int_or Z.eqb]. change (1 - 1)%Z with (1 - 1)%Z.
    rewrite (@py_slice_from _ (readlines text) 1) by lia.
    cbn [Z.to_nat Z.sub Z.add Z.opp Z.pos_sub skipn]. now rewrite Hcat.
  - intros e. reflexivity.
  - intros sl el. cbn [success return_code stderr stdout result].
    split; [reflexivity|]. split; [reflexivity|]. split; [reflexivity|].
    match goal with
    | |- (len (truncated 10000 FILE_TRUNCATED ?c) <= _)%Z =>
        destruct (@truncated_cases 10000 FILE_TRUNCATED c) as [[Hle ->]|(_ & _ & ->)];
          [lia | lia |]
    end.
    change (len FILE_TRUNCATED) with 21%Z. lia.
Qed.

Lemma read_file_lines_witness :
  stdout (read_file (fun _ => Opened (lit "one" ++ [NL] ++ lit "two" ++ [NL] ++ lit "three"))
            (lit "notes.txt") (Some 2%Z) (Some 9%Z)) =
  lit "two" ++ [NL] ++ lit "three".
Proof.
  destruct (@read_file_lines
              (fun _ => Opened (lit "one" ++ [NL] ++ lit "two" ++ [NL] ++ lit "three"))
              (lit "notes.txt")
              (lit "one" ++ [NL] ++ lit "two" ++ [NL] ++ lit "three") eq_refl)
    as (_ & _ & _ & Hrange & _).
  rewrite (Hrange 2%Z 9%Z) by lia. reflexivity.
Defined.

End ToolFunFacts.
(** ** The messages sent to the model *)

Module PromptFacts.
Import Memory Prompt Brain Notions.

Lemma known_role_known (role : str) :
  In (known_role role) [lit "system"; lit "user"; lit "assistant"].
Proof.
  unfold known_role.
  destruct (str_eqb role (lit "user")) eqn:Eu.
  - apply str_eqb_eq in Eu. subst. right. now left.
  - destruct (str_eqb role (lit "assistant")) eqn:Ea.
    + apply str_eqb_eq in Ea. subst. right. right. now left.
    + destruct (str_eqb role (lit "system")) eqn:Es; cbn [orb].
      * apply str_eqb_eq in Es. subst. now left.
      * right. now left.
Qed.

Lemma known_role_id (role : str) :
  In role [lit "system"; lit "user"; lit "assistant"] -> known_role role = role.
Proof.
  intros [<-|[<-|[<-|[]]]]; reflexivity.
Qed.

(** X13: the roles of the messages sent to the model.  Whatever roles the
    store holds, every message of every call that [think] makes has the
    role system, user or assistant.  Each call begins with the system
    prompt, followed by the history in its order, each message with its
    content as stored and with its role when that is one of the three,
    and the role user otherwise; recent actions add one system message;
    then comes the message of the user, and on a retry the corrective
    message. *)
Theorem think_message_roles (cfg : Config) (llm : nat -> request -> completion)
    (system_prompt : str) (b : bundle) (user_message : str) :
  forall k call,
    nth_error (snd (think cfg llm (context_of system_prompt b) user_message)) k
      = Some call ->
    (forall m, In m (messages call) ->
       In (role m) [lit "system"; lit "user"; lit "assistant"]) /\
    exists actions tail,
      messages call =
        {| role := lit "system"; content := system_prompt |}
        :: map (fun msg => {| role := known_role (v_role msg);
                              content := v_content msg |}) (b_messages b)
        ++ actions
        ++ {| role := lit "user"; content := user_message |} :: tail /\
      (actions = [] /\ b_actions b = [] \/
       actions = [{| role := lit "system";
                     content := actions_summary (b_actions b) |}]
       /\ b_actions b <> []) /\
      tail = (if (0 <? k)%nat then [corrective_message] else []).
Proof.
  intros k call Hk. unfold think in Hk.
  destruct (ThinkCalls.think_loop_calls cfg llm
              (context_of system_prompt b
               ++ [{| role := lit "user"; content := user_message |}])
              (base_temperature cfg user_message)
              (Z.to_nat (MAX_RETRIES cfg)) 0 []) as (n & _ & _ & E).
  rewrite E in Hk. cbn [app] in Hk. rewrite nth_error_map in Hk.
  destruct (nth_error (attempts 0 n) k) as [a|] eqn:Ha; [|discriminate].
  cbn [option_map] in Hk. injection Hk as <-.
  apply BrainFacts.attempts_nth in Ha. destruct Ha as [-> _].
  cbn [call_at messages].
  assert (Hextra : extra_messages (0 + Z.of_nat k) =
                   if (0 <? k)%nat then [corrective_message] else []).
  { unfold extra_messages. destruct k as [|k]; [reflexivity|].
    assert (Hg : (0 + Z.of_nat (S k) >? 0)%Z = true) by (apply Z.gtb_lt; lia).
    now rewrite Hg. }
  rewrite Hextra. split.
  - intros m Hm. apply in_app_or in Hm. destruct Hm as [Hm|Hm].
    + unfold context_of in Hm. cbn [app] in Hm. destruct Hm as [<-|Hm]; [now left|].
      apply in_app_or in Hm. destruct Hm as [Hm|[<-|[]]]; [|right; now left].
      apply in_app_or in Hm. destruct Hm as [Hm|Hm].
      * apply in_map_iff in Hm. destruct Hm as (msg & <- & _).
        apply known_role_known.
      * destruct (b_actions b); [contradiction|].
        destruct Hm as [<-|[]]. now left.
    + destruct (0 <? k)%nat; [|contradiction].
      destruct Hm as [<-|[]]. right. now left.
  - exists (match b_actions b with
            | [] => []
            | _ :: _ => [{| role := lit "system";
                            content := actions_summary (b_actions b) |}]
            end), (if (0 <? k)%nat then [corrective_message] else []).
    split; [|split; [|reflexivity]].
    + unfold context_of. cbn [app]. rewrite <- !app_assoc. reflexivity.
    + destruct (b_actions b); [left; now split | right; split; [reflexivity | discriminate]].
Qed.

Lemma think_message_roles_witness :
  exists call,
    nth_error
      (snd (think CONFIG Samples.prose_model
              (context_of (lit "You are SharkonAI.") MoreSamples.odd_bundle)
              (lit "hello"))) 0 = Some call /\
    forall m, In m (messages call) ->
      In (role m) [lit "system"; lit "user"; lit "assistant"].
Proof.
  destruct (nth_error
              (snd (think CONFIG Samples.prose_model
                      (context_of (lit "You are SharkonAI.") MoreSamples.odd_bundle)
                      (lit "hello"))) 0) as [call|] eqn:E.
  - exists call. split; [reflexivity|].
    exact (proj1 (@think_message_roles CONFIG Samples.prose_model
                    (lit "You are SharkonAI.") MoreSamples.odd_bundle
                    (lit "hello") 0 call E)).
  - vm_compute in E. discriminate.
Defined.

(** X14: the text of the user reaches the model twice.  The handler
    stores the text before it calls [think], and [think] reads the recent
    messages back from the store before it adds the text itself.  So when
    the bundle keeps at least one message and the model is called at all,
    the first call holds the text as a message of the user at the end of
    the history, then at most the message about recent actions, then the
    text once more, as its last message. *)
Theorem think_sees_text_twice (cfg : Config) (settings : Settings)
    (llm : nat -> request -> completion) (system_prompt : str)
    (knowledge : list knowledge_row) (summaries : list summary_view)
    (ops : list op) (user_text : str) (user_id message_id : option Z) (now : str) :
  (1 <= MAX_CONTEXT_MESSAGES settings)%Z -> (1 <= MAX_RETRIES cfg)%Z ->
  let d := store_message (lit "user") user_text user_id message_id None now
             (run ops) in
  let context := context_of system_prompt
                   (get_context_bundle settings knowledge summaries d) in
  let said := {| role := lit "user"; content := user_text |} in
  exists call before between,
    nth_error (snd (think cfg llm context user_text)) 0 = Some call /\
    messages call = before ++ [said] ++ between ++ [said] /\
    (between = [] \/ exists summary,
       between = [{| role := lit "system"; content := summary |}]).
Proof.
  intros Hmax Hretries. cbn zeta.
  set (d := store_message _ _ _ _ _ _ _).
  set (b := get_context_bundle settings knowledge summaries d).
  destruct (ThinkCalls.think_loop_calls cfg llm
              (context_of system_prompt b
               ++ [{| role := lit "user"; content := user_text |}])
              (base_temperature cfg user_text)
              (Z.to_nat (MAX_RETRIES cfg)) 0 []) as (n & _ & Hpos & E).
  unfold think. rewrite E. cbn [app].
  destruct n as [|n]; [specialize (Hpos ltac:(lia)); lia|].
  cbn [attempts map nth_error]. eexists. 
  assert (Hhist : b_messages b =
            get_recent_messages (MAX_CONTEXT_MESSAGES settings - 1) (run ops)
            ++ [{| v_role := lit "user"; v_content := user_text;
                   v_timestamp := now |}]).
  { unfold b, get_context_bundle, d. cbn [b_messages].
    apply MemoryFacts.recent_messages_snoc; [apply MemoryFacts.run_consistent | exact Hmax]. }
  exists ({| role := lit "system"; content := system_prompt |}
          :: map (fun msg => {| role := known_role (v_role msg);
                                content := v_content msg |})
               (get_recent_messages (MAX_CONTEXT_MESSAGES settings - 1) (run ops))).
  exists (match b_actions b with
          | [] => []
          | _ :: _ => [{| role := lit "system";
                          content := actions_summary (b_actions b) |}]
          end).
  split; [reflexivity|]. split.
  - cbn [call_at messages extra_messages Z.gtb Z.compare].
    unfold context_of. rewrite Hhist, map_app. cbn [map v_role v_content].
    change (known_role (lit "user")) with (lit "user").
    rewrite app_nil_r. cbn [app]. rewrite <- !app_assoc. reflexivity.
  - destruct (b_actions b); [now left | right; now eexists].
Qed.

Lemma think_sees_text_twice_witness :
  exists call before between,
    nth_error
      (snd (think CONFIG Samples.prose_model
              (context_of (lit "You are SharkonAI.")
                 (get_context_bundle SETTINGS [] []
                    (store_message (lit "user") (lit "hello") (Some 7%Z) (Some 1%Z)
                       None (lit "2026-01-01T00:00:00") (run []))))
              (lit "hello"))) 0 = Some call /\
    messages call =
      before ++ [{| role := lit "user"; content := lit "hello" |}] ++ between
      ++ [{| role := lit "user"; content := lit "hello" |}] /\
    (between = [] \/ exists summary,
       between = [{| role := lit "system"; content := summary |}]).
Proof.
  apply (@think_sees_text_twice CONFIG SETTINGS Samples.prose_model
           (lit "You are SharkonAI.") [] [] [] (lit "hello") (Some 7%Z) (Some 1%Z)
           (lit "2026-01-01T00:00:00")); cbn; lia.
Defined.

(** *** The recent actions *)

Lemma fold_left_lines (A : Type) (line : A -> str) (l : list A) :
  forall acc : str,
    fold_left (fun summary x => summary ++ line x) l acc =
    acc ++ concat (map line l).
Proof.
  induction l as [|x l IH]; intros acc; cbn [fold_left map concat].
  - now rewrite app_nil_r.
  - rewrite IH. now rewrite <- app_assoc.
Qed.

Lemma py_slice_last (A : Type) (l : list A) (n : nat) :
  ToolFuns.py_slice l (- Z.of_nat (S n)) (Z.of_nat (length l)) =
  skipn (length l - S n) l.
Proof.
  unfold ToolFuns.py_slice, ToolFuns.slice_index.
  destruct (Z.ltb_spec (- Z.of_nat (S n)) 0); [|lia].
  destruct (Z.ltb_spec (Z.of_nat (length l)) 0); [lia|].
  replace (Z.to_nat (Z.max 0 (Z.of_nat (length l) + - Z.of_nat (S n))))
    with (length l - S n)%nat by lia.
  apply firstn_all2. rewrite length_skipn. lia.
Qed.

(** X26: the actions that the model is told about.  For every database
    built by the methods of the store, the bundle fetches the 8 most
    recent actions and [think] shows the last 5 of them: the message
    about recent actions is a heading followed by one line for each of
    the 5 actions stored last, or for all of them when there are fewer,
    oldest first, each with a mark for its success flag, its type and
    the first 19 characters of its time.  The message is the last one
    before the message of the user, and it is there exactly when an
    action is stored. *)
Theorem think_shows_last_actions (settings : Settings) (system_prompt : str)
    (knowledge : list knowledge_row) (summaries : list summary_view)
    (ops : list op) :
  let d := run ops in
  let b := get_context_bundle settings knowledge summaries d in
  let shown := skipn (length (actions d) - 5) (actions d) in
  actions_summary (b_actions b) =
    lit "Recent tool executions:" ++ [NL] ++ concat (map action_line shown) /\
  (length shown <= 5)%nat /\
  (actions d = [] ->
     context_of system_prompt b =
     {| role := lit "system"; content := system_prompt |}
     :: map (fun msg => {| role := known_role (v_role msg);
                           content := v_content msg |}) (b_messages b)) /\
  (actions d <> [] ->
     context_of system_prompt b =
     {| role := lit "system"; content := system_prompt |}
     :: map (fun msg => {| role := known_role (v_role msg);
                           content := v_content msg |}) (b_messages b)
     ++ [{| role := lit "system";
            content := lit "Recent tool executions:" ++ [NL]
                       ++ concat (map action_line shown) |}]).
Proof.
  cbn zeta. set (d := run ops).
  pose proof (MemoryFacts.run_consistent ops) as Hd. fold d in Hd.
  destruct Hd as (_ & (_ & Hasc & _) & _).
  assert (Hfetch : get_recent_actions 8 d =
                   skipn (length (actions d) - 8) (actions d)).
  { unfold get_recent_actions.
    rewrite (@MemoryFacts.recent_rows _ _ 8 _ _ Hasc). reflexivity. }
  assert (Hsum : actions_summary (get_recent_actions 8 d) =
            lit "Recent tool executions:" ++ [NL]
            ++ concat (map action_line
                         (skipn (length (actions d) - 5) (actions d)))).
  { unfold actions_summary. rewrite fold_left_lines, <- app_assoc. do 2 f_equal.
    change (-5)%Z with (- Z.of_nat 5)%Z.
    rewrite py_slice_last, Hfetch, skipn_skipn, length_skipn.
    replace (length (actions d) - (length (actions d) - 8) - 5
             + (length (actions d) - 8))%nat
      with (length (actions d) - 5)%nat by lia.
    reflexivity. }
  split; [exact Hsum|]. split; [rewrite length_skipn; lia|].
  unfold context_of. cbn [b_actions b_messages get_context_bundle app].
  split.
  - intros Hnil. rewrite Hfetch, Hnil. cbn [length skipn Nat.sub].
    now rewrite app_nil_r.
  - intros Hne. rewrite Hsum.
    destruct (get_recent_actions 8 d) as [|a l] eqn:E; [|reflexivity].
    exfalso. clear Hsum E.
    apply (f_equal (@length action_row)) in Hfetch.
    rewrite length_skipn in Hfetch. cbn [length] in Hfetch.
    assert (Hlen : length (actions d) <> 0%nat).
    { intros H0. apply Hne. now apply length_zero_iff_nil. }
    lia.
Qed.

End PromptFacts.
